(** * FileSystemCacheMsgspec: a shallow embedding

    Source: [src/flask_caching/contrib/filesystemcachemsgspec.py].

    The cache keeps one file per entry in a directory of the local file
    system.  The embedding makes the file system, the clock, the log and the
    I/O faults an explicit [world]; every method of the class becomes a
    function in a state-and-exception monad over that world.  A Python
    exception leaves the side effects made before it in place, so the monad
    returns the world also when it raises. *)

From Stdlib Require Import String Ascii List ZArith QArith Bool Lia Lqa.
Import ListNotations.

Open Scope string_scope.
Open Scope Z_scope.

(* ===================================================================== *)
(** ** Strings, paths *)
(* ===================================================================== *)

(** Python [bytes]; a Rocq string is a sequence of 8-bit characters. *)
Definition bytes := string.

Module Str.

(** [c in s] for a single character. *)
Fixpoint has_char (c : ascii) (s : string) : bool :=
  match s with
  | EmptyString => false
  | String d r => Ascii.eqb c d || has_char c r
  end.

(** [s.startswith(pre)], and the remainder after the prefix. *)
Fixpoint strip_prefix (pre s : string) : option string :=
  match pre, s with
  | EmptyString, _ => Some s
  | String a p, String b r => if Ascii.eqb a b then strip_prefix p r else None
  | String _ _, EmptyString => None
  end.

Definition starts_with (pre s : string) : bool :=
  match strip_prefix pre s with Some _ => true | None => false end.

(** [s.endswith(suf)] *)
Fixpoint ends_with (suf s : string) : bool :=
  String.eqb s suf ||
  match s with
  | EmptyString => false
  | String _ r => ends_with suf r
  end.

(** [s.split("/")[-1]] *)
Fixpoint last_component (s : string) : string :=
  match s with
  | EmptyString => EmptyString
  | String c r =>
      if has_char "/" r then last_component r
      else if Ascii.eqb c "/" then r else s
  end.

(** [s.split("/")[0]] *)
Fixpoint first_component (s : string) : string :=
  match s with
  | EmptyString => EmptyString
  | String c r => if Ascii.eqb c "/" then EmptyString else String c (first_component r)
  end.

(** every character of [s] satisfies [p] *)
Fixpoint all (p : ascii -> bool) (s : string) : bool :=
  match s with
  | EmptyString => true
  | String c r => p c && all p r
  end.

End Str.

(** [os.path.join(a, b)] of posixpath, for two components. *)
Definition os_path_join (a b : string) : string :=
  if Str.starts_with "/" b then b
  else if String.eqb a "" || Str.ends_with "/" a then a ++ b
  else a ++ "/" ++ b.

(* ===================================================================== *)
(** ** Python values and the few dynamic operations the cache applies *)
(* ===================================================================== *)

(** The exceptions that can occur.  [FileNotFoundError] is a subclass of
    [OSError]; all of them are subclasses of [Exception].  [OSError] stands
    for every other I/O failure (permission, disk full, ...). *)
Inductive exn : Type :=
| FileNotFoundError
| OSError
| TypeError
| ValueError
| OverflowError
| DecodeError
| ZlibError
| RecursionError.

Definition is_OSError (e : exn) : bool :=
  match e with FileNotFoundError | OSError => true | _ => false end.

Definition is_FileNotFoundError (e : exn) : bool :=
  match e with FileNotFoundError => true | _ => false end.

Inductive outcome (A : Type) : Type :=
| Return (a : A)
| Raise (e : exn).
Arguments Return {A} a.
Arguments Raise {A} e.

Definition obind {A B : Type} (m : outcome A) (k : A -> outcome B) : outcome B :=
  match m with
  | Return a => k a
  | Raise e => Raise e
  end.

#[local] Set Warnings "-register-all".

(** The values that travel through the cache: what msgpack can carry, a
    [tuple], which the encoder writes as an array and the decoder reads
    back as a [list], and [VObject], an instance of a class the encoder
    does not know. *)
Inductive pyval : Type :=
| VNone
| VBool (b : bool)
| VInt (z : Z)
| VStr (s : string)
| VBytes (b : bytes)
| VList (l : list pyval)
| VTuple (l : list pyval)
| VObject (cls : string).

(** A numeric reading of a value: [int] and [bool] are numbers. *)
Definition py_num (v : pyval) : option Z :=
  match v with
  | VInt z => Some z
  | VBool b => Some (if b then 1 else 0)
  | _ => None
  end.

(** [bool(v)] *)
Definition py_truthy (v : pyval) : bool :=
  match v with
  | VNone => false
  | VBool b => b
  | VInt z => negb (z =? 0)
  | VStr s => negb (String.eqb s "")
  | VBytes b => negb (String.eqb b "")
  | VList l => match l with [] => false | _ => true end
  | VTuple l => match l with [] => false | _ => true end
  | VObject _ => true
  end.

(** [v or 0] *)
Definition py_or_zero (v : pyval) : pyval :=
  if py_truthy v then v else VInt 0.

(** [v != 0]: never raises; a value that is not a number differs from 0. *)
Definition py_ne_zero (v : pyval) : bool :=
  match py_num v with
  | Some z => negb (z =? 0)
  | None => true
  end.

Definition Qltb (x y : Q) : bool := negb (Qle_bool y x).

(** [v < t] and [v <= t] against a float [t]: [TypeError] unless [v] is a
    number. *)
Definition py_lt (v : pyval) (t : Q) : outcome bool :=
  match py_num v with
  | Some z => Return (Qltb (inject_Z z) t)
  | None => Raise TypeError
  end.

Definition py_le (v : pyval) (t : Q) : outcome bool :=
  match py_num v with
  | Some z => Return (Qle_bool (inject_Z z) t)
  | None => Raise TypeError
  end.

(** [v > n] against an int. *)
Definition py_gt_int (v : pyval) (n : Z) : outcome bool :=
  match py_num v with
  | Some z => Return (n <? z)
  | None => Raise TypeError
  end.

(** [v + d] for an int [d]. *)
Definition py_add_int (v : pyval) (d : Z) : outcome pyval :=
  match py_num v with
  | Some z => Return (VInt (z + d))
  | None => Raise TypeError
  end.

(** [a, b = v]: unpacking into exactly two targets.  A list or a tuple
    gives its two items, [bytes] of length two give two ints, a string of
    two characters gives two strings; any other length is a [ValueError],
    any other type a [TypeError]. *)
Definition unpack2 (v : pyval) : outcome (pyval * pyval) :=
  match v with
  | VList [a; b] => Return (a, b)
  | VList _ => Raise ValueError
  | VTuple [a; b] => Return (a, b)
  | VTuple _ => Raise ValueError
  | VBytes (String a (String b EmptyString)) =>
      Return (VInt (Z.of_N (N_of_ascii a)), VInt (Z.of_N (N_of_ascii b)))
  | VBytes _ => Raise ValueError
  | VStr (String a (String b EmptyString)) =>
      Return (VStr (String a EmptyString), VStr (String b EmptyString))
  | VStr _ => Raise ValueError
  | _ => Raise TypeError
  end.

(** [int(x)] of a float: truncation towards zero. *)
Definition py_int (x : Q) : Z := Z.quot (Qnum x) (Z.pos (Qden x)).

(** [n / d] rounded to the nearest integer, a tie to the even one, for
    [0 <= n] and [0 < d]. *)
Definition round_half_even (n d : Z) : Z :=
  let q := n / d in
  let r := n mod d in
  if 2 * r <? d then q
  else if d <? 2 * r then q + 1
  else if Z.even q then q else q + 1.

(** A Python [float] is a binary64 number.  [py_float x] is the float
    nearest to [x]: a significand of 53 bits, a tie going to the even
    significand, as [float(n)] of an [int] and every float operation round.
    The exponent is not bounded here: there is no overflow to [inf] and
    there are no subnormal numbers, so [py_float] is the binary64 rounding
    for magnitudes from 2^-1022 up to 2^1024, which covers every clock and
    every timeout in seconds. *)
Definition py_float (x : Q) : Q :=
  let n := Z.abs (Qnum x) in
  let d := Z.pos (Qden x) in
  if n =? 0 then 0%Q
  else
    let e0 := Z.log2 n - Z.log2 d in
    (* [2^e <= n/d < 2^(e+1)] *)
    let e := if (if 0 <=? e0 then d * 2 ^ e0 <=? n else d <=? n * 2 ^ (- e0))
             then e0 else e0 - 1 in
    (* the unit in the last place is [2^s] *)
    let s := e - 52 in
    let m := if 0 <=? s then round_half_even n (d * 2 ^ s)
             else round_half_even (n * 2 ^ (- s)) d in
    let m := Z.sgn (Qnum x) * m in
    if 0 <=? s then inject_Z (m * 2 ^ s)
    else Qred (Qmake m (Z.to_pos (2 ^ (- s)))).

(** [a + b] of two floats, or of a float and an [int]: the operands as
    floats, the exact sum rounded to a float. *)
Definition float_add (a b : Q) : Q := py_float (py_float a + py_float b)%Q.

(* ===================================================================== *)
(** ** The world: directory, clock, platform, faults, log *)
(* ===================================================================== *)

Record file : Type := mkfile { f_data : bytes; f_mode : Z }.

(** The files, keyed by full path, in the order [os.listdir] reports them.
    There are no directory objects: a subdirectory exists through the
    paths below it. *)
Definition directory := list (string * file).

Inductive platform : Type := Posix | Win32.

Inductive logrec : Type :=
| LogError (op : string) (key : string) (e : exn)
| LogDebug (msg : string) (n : Z).

(** [w_faults] is the schedule of I/O failures: every system call that can
    fail takes the head of the list and raises [OSError] when it is [true].
    The empty schedule is a file system that never fails.
    [w_trace] records the directory after every mutating system call, most
    recent first: the states another process could observe in between. *)
Record world : Type := mkworld {
  w_files : directory;
  w_now : Q;
  w_platform : platform;
  w_faults : list bool;
  w_log : list logrec;
  w_trace : list directory
}.

Module Dir.

Fixpoint lookup (p : string) (d : directory) : option file :=
  match d with
  | [] => None
  | (q, f) :: r => if String.eqb p q then Some f else lookup p r
  end.

Definition mem (p : string) (d : directory) : bool :=
  match lookup p d with Some _ => true | None => false end.

(** create or overwrite in place *)
Fixpoint store (p : string) (f : file) (d : directory) : directory :=
  match d with
  | [] => [(p, f)]
  | (q, g) :: r => if String.eqb p q then (q, f) :: r else (q, g) :: store p f r
  end.

Fixpoint erase (p : string) (d : directory) : directory :=
  match d with
  | [] => []
  | (q, g) :: r => if String.eqb p q then erase p r else (q, g) :: erase p r
  end.

(** give the entry [src] the name [dst] *)
Fixpoint rename (src dst : string) (d : directory) : directory :=
  match d with
  | [] => []
  | (q, g) :: r =>
      if String.eqb src q then (dst, g) :: rename src dst r
      else (q, g) :: rename src dst r
  end.

(** The entry of the directory with prefix [pre] that the path [q] lies
    in: its name, and whether the path lies below the entry, which is
    then a subdirectory, or is the entry itself. *)
Definition entry_of (pre q : string) : option (string * bool) :=
  match Str.strip_prefix pre q with
  | Some rest =>
      let fn := Str.first_component rest in
      if String.eqb fn "" then None else Some (fn, Str.has_char "/" rest)
  | None => None
  end.

(** the names met along the paths [ps]: every file, and every
    subdirectory once ([seen] holds the subdirectories already named) *)
Fixpoint scan (pre : string) (seen : list string) (ps : list string)
    : list string :=
  match ps with
  | [] => []
  | q :: r =>
      match entry_of pre q with
      | Some (fn, false) => fn :: scan pre seen r
      | Some (fn, true) =>
          if existsb (String.eqb fn) seen then scan pre seen r
          else fn :: scan pre (fn :: seen) r
      | None => scan pre seen r
      end
  end.

(** The names directly under the directory prefix [pre]: the files, and
    the subdirectories, which are there through the paths below them (a
    path that ends with the separator stands for an empty one). *)
Definition names (pre : string) (d : directory) : list string :=
  scan pre [] (map fst d).

End Dir.

(** the mode of a file created by [open(..., "wb")] under umask 022 *)
Definition creat_mode : Z := 420.

(** [stat.S_IWRITE] *)
Definition S_IWRITE : Z := 128.

(* ===================================================================== *)
(** ** The monad *)
(* ===================================================================== *)

Definition io (A : Type) : Type := world -> outcome A * world.

Definition ret {A : Type} (a : A) : io A := fun w => (Return a, w).

Definition raise {A : Type} (e : exn) : io A := fun w => (Raise e, w).

Definition bind {A B : Type} (m : io A) (k : A -> io B) : io B :=
  fun w =>
    match m w with
    | (Return a, w') => k a w'
    | (Raise e, w') => (Raise e, w')
    end.

Definition lift {A : Type} (o : outcome A) : io A := fun w => (o, w).

(** [try: m  except: h] *)
Definition try_except {A : Type} (m : io A) (h : exn -> io A) : io A :=
  fun w =>
    match m w with
    | (Return a, w') => (Return a, w')
    | (Raise e, w') => h e w'
    end.

(** [try: m  except: h  else: k] *)
Definition try_except_else {A B : Type}
    (m : io A) (h : exn -> io B) (k : A -> io B) : io B :=
  fun w =>
    match m w with
    | (Return a, w') => k a w'
    | (Raise e, w') => h e w'
    end.

Declare Scope io_scope.
Delimit Scope io_scope with io.
Notation "x <- m ;; k" := (bind m (fun x => k))
  (at level 61, m at next level, right associativity) : io_scope.
Notation "m ;; k" := (bind m (fun _ => k))
  (at level 61, right associativity) : io_scope.
Open Scope io_scope.

(* ===================================================================== *)
(** ** System calls *)
(* ===================================================================== *)

Definition set_files (d : directory) (w : world) : world :=
  {| w_files := d; w_now := w_now w; w_platform := w_platform w;
     w_faults := w_faults w; w_log := w_log w; w_trace := d :: w_trace w |}.

Definition set_faults (fs : list bool) (w : world) : world :=
  {| w_files := w_files w; w_now := w_now w; w_platform := w_platform w;
     w_faults := fs; w_log := w_log w; w_trace := w_trace w |}.

Definition add_log (r : logrec) (w : world) : world :=
  {| w_files := w_files w; w_now := w_now w; w_platform := w_platform w;
     w_faults := w_faults w; w_log := r :: w_log w; w_trace := w_trace w |}.

(** the environment lets time pass *)
Definition set_now (t : Q) (w : world) : world :=
  {| w_files := w_files w; w_now := t; w_platform := w_platform w;
     w_faults := w_faults w; w_log := w_log w; w_trace := w_trace w |}.

(** One point at which the operating system may refuse. *)
Definition syscall : io unit :=
  fun w =>
    match w_faults w with
    | [] => (Return tt, w)
    | false :: fs => (Return tt, set_faults fs w)
    | true :: fs => (Raise OSError, set_faults fs w)
    end.

Definition time : io Q := fun w => (Return (w_now w), w).

Definition sys_platform : io platform := fun w => (Return (w_platform w), w).

Definition logger_error (op key : string) (e : exn) : io unit :=
  fun w => (Return tt, add_log (LogError op key e) w).

Definition logger_debug (msg : string) (n : Z) : io unit :=
  fun w => (Return tt, add_log (LogDebug msg n) w).

(** [os.listdir(path)]: the names of the files and of the subdirectories
    of [path]. *)
Definition os_listdir (path : string) : io (list string) :=
  syscall ;;
  if String.eqb path "" then raise FileNotFoundError
  else
    let pre := if Str.ends_with "/" path then path else path ++ "/" in
    fun w => (Return (Dir.names pre (w_files w)), w).

(** [with open(p, "rb") as f: f.read()].  Only a file can be read.  For
    the path of a subdirectory the error is the one of a missing file here,
    where Python raises [IsADirectoryError]; both are [OSError]s. *)
Definition read_file (p : string) : io bytes :=
  syscall ;;
  fun w =>
    match Dir.lookup p (w_files w) with
    | Some f => (Return (f_data f), w)
    | None => (Raise FileNotFoundError, w)
    end.

(** [with open(p, "wb") as f: f.write(data)]: opening creates or truncates
    the file; the write may then fail and leave it empty. *)
Definition write_file (p : string) (data : bytes) : io unit :=
  syscall ;;
  mode <- (fun w =>
             let mode := match Dir.lookup p (w_files w) with
                         | Some f => f_mode f
                         | None => creat_mode
                         end in
             (Return mode,
              set_files (Dir.store p (mkfile "" mode) (w_files w)) w)) ;;
  syscall ;;
  fun w => (Return tt, set_files (Dir.store p (mkfile data mode) (w_files w)) w).

(** [os.path.exists(p)]: never raises.  It looks for a file: a
    subdirectory that carries the digest of a key as its name is outside
    the model. *)
Definition os_path_exists (p : string) : io bool :=
  fun w => (Return (Dir.mem p (w_files w)), w).

(** [os.remove(p)].  Only a file can be removed.  For the path of a
    subdirectory the error is the one of a missing file here, where Python
    raises [IsADirectoryError] or [PermissionError]; all are [OSError]s,
    which is what [clear] and the sweep catch. *)
Definition os_remove (p : string) : io unit :=
  syscall ;;
  fun w =>
    if Dir.mem p (w_files w)
    then (Return tt, set_files (Dir.erase p (w_files w)) w)
    else (Raise FileNotFoundError, w).

(** [os.replace(src, dst)]: one atomic step that takes the place of [dst]. *)
Definition os_replace (src dst : string) : io unit :=
  syscall ;;
  fun w =>
    if Dir.mem src (w_files w)
    then (Return tt,
          set_files
            (if String.eqb src dst then w_files w
             else Dir.rename src dst (Dir.erase dst (w_files w))) w)
    else (Raise FileNotFoundError, w).

(** [os.chmod(p, mode)] *)
Definition os_chmod (p : string) (mode : Z) : io unit :=
  syscall ;;
  fun w =>
    match Dir.lookup p (w_files w) with
    | Some f =>
        (Return tt, set_files (Dir.store p (mkfile (f_data f) mode) (w_files w)) w)
    | None => (Raise FileNotFoundError, w)
    end.

(** [os.makedirs(path)]: the directory tree itself is not part of the world;
    the call can only fail with an error other than EEXIST. *)
Definition os_makedirs (path : string) : io unit := syscall.

(* ===================================================================== *)
(** ** The codecs: msgspec.msgpack and zlib *)
(* ===================================================================== *)

(** The two libraries are used through four functions.  They are an
    interface here; [RefCodec] below implements it. *)
Class Codec : Type := {
  msgpack_encode : pyval -> outcome bytes;
  msgpack_decode : bytes -> outcome pyval;
  zlib_compress : Z -> bytes -> outcome bytes;
  zlib_decompress : bytes -> outcome bytes
}.

(* ===================================================================== *)
(** ** The cache object *)
(* ===================================================================== *)

Record FileSystemCacheMsgspec : Type := {
  _path : string;
  _threshold : Z;
  default_timeout : Q;
  _mode : Z;
  _hash_method : bytes -> string;   (* [hash_method(key).hexdigest()] *)
  ignore_errors : bool;
  compress : bool;
  compress_level : Z
}.

Definition _fs_transaction_suffix : string := ".__wz_cache".
Definition _fs_count_file : string := "__wz_cache_count".

(** Modelled from the spec: [BaseCache._normalize_timeout] of
    [flask_caching.backends.base], which is not among the sources.  The spec
    gives the cache a default TTL in seconds that applies when a call names
    no timeout. *)
Definition BaseCache_normalize_timeout
    (self : FileSystemCacheMsgspec) (timeout : option Q) : Q :=
  match timeout with
  | None => default_timeout self
  | Some t => t
  end.

Section Methods.

Context {codec : Codec}.
Variable self : FileSystemCacheMsgspec.

(** [time()] is a float, so line 98 is a float addition. *)
Definition _normalize_timeout (timeout : option Q) : io Z :=
  let timeout := BaseCache_normalize_timeout self timeout in
  if negb (Qeq_bool timeout 0)
  then (now <- time ;; ret (py_int (float_add now timeout)))
  else ret (py_int timeout).

(** Keys are the UTF-8 bytes of the caller's [str], or its [bytes]. *)
Definition _get_filename (key : string) : string :=
  let hash := _hash_method self key in
  os_path_join (_path self) hash.

Definition _list_dir : io (list string) :=
  let mgmt_files :=
    map (fun name => Str.last_component (_get_filename name))
        [_fs_count_file] in
  names <- os_listdir (_path self) ;;
  ret (map (fun fn => os_path_join (_path self) fn)
           (filter (fun fn =>
                      negb (Str.ends_with _fs_transaction_suffix fn)
                      && negb (existsb (String.eqb fn) mgmt_files))
                   names)).

Definition _serialize (obj : pyval) : outcome bytes :=
  obind (msgpack_encode obj) (fun data =>
  if compress self then zlib_compress (compress_level self) data
  else Return data).

Definition _deserialize (data : bytes) : outcome pyval :=
  obind (if compress self then zlib_decompress data else Return data)
        msgpack_decode.

(** [(expires != 0 and expires <= now) or idx % 3 == 0] *)
Definition prune_decide (expires : pyval) (now : Q) (idx : Z) : outcome bool :=
  if py_ne_zero expires
  then obind (py_le expires now) (fun passed =>
       Return (passed || (idx mod 3 =? 0)))
  else Return (idx mod 3 =? 0).

(** [expires != 0 and expires < time()] *)
Definition expired (expires : pyval) : io bool :=
  if py_ne_zero expires
  then (now <- time ;; lift (py_lt expires now))
  else ret false.

(** The loop of [_prune]: [for idx, fname in enumerate(entries)], with
    the running [nremoved]. *)
Fixpoint sweep (now : Q) (idx : Z) (entries : list string) (nremoved : Z)
    {struct entries} : io Z :=
  match entries with
  | [] => ret nremoved
  | fname :: rest =>
      nremoved <-
        try_except
          (data <- read_file fname ;;
           obj <- lift (_deserialize data) ;;
           ev <- lift (unpack2 obj) ;;
           remove <- lift (prune_decide (fst ev) now idx) ;;
           if remove : bool
           then (os_remove fname ;; ret (nremoved + 1))
           else ret nremoved)
          (fun _ => ret nremoved) ;;
      sweep now (idx + 1) rest nremoved
  end.

(** The methods call each other in a cycle ([get] may [delete], which
    updates the count, which reads it with [get] and writes it with
    [set]); [depth] bounds the depth of the calls as the interpreter's
    recursion limit does. *)
Fixpoint get (depth : nat) (key : string) {struct depth} : io pyval :=
  match depth with
  | O => raise RecursionError
  | S depth =>
      let filename := _get_filename key in
      try_except
        (data <- read_file filename ;;
         obj <- lift (_deserialize data) ;;
         ev <- lift (unpack2 obj) ;;
         let '(expires, value) := ev in
         stale <- expired expires ;;
         if stale then (delete depth key false ;; ret VNone)
         else ret value)
        (fun exc =>
           if is_FileNotFoundError exc then ret VNone
           else (logger_error "get" key exc ;; ret VNone))
  end

with delete (depth : nat) (key : string) (mgmt_element : bool)
     {struct depth} : io bool :=
  match depth with
  | O => raise RecursionError
  | S depth =>
      try_except
        (os_remove (_get_filename key) ;;
         (if negb mgmt_element
          then _update_count depth (Some (-1)) None
          else ret tt) ;;
         ret true)
        (fun exc =>
           if is_FileNotFoundError exc then ret false
           else (logger_error "delete" key exc ;; ret false))
  end

with _update_count (depth : nat) (delta value : option Z)
     {struct depth} : io unit :=
  match depth with
  | O => raise RecursionError
  | S depth =>
      if _threshold self =? 0 then ret tt
      else
        new_count <-
          (match delta with
           | Some d =>
               if negb (d =? 0)
               then (c <- get depth _fs_count_file ;;
                     lift (py_add_int (py_or_zero c) d))
               else ret (VInt (match value with Some v => v | None => 0 end))
           | None => ret (VInt (match value with Some v => v | None => 0 end))
           end) ;;
        set depth _fs_count_file new_count None true ;;
        ret tt
  end

with set (depth : nat) (key : string) (value : pyval) (timeout : option Q)
         (mgmt_element : bool) {struct depth} : io bool :=
  match depth with
  | O => raise RecursionError
  | S depth =>
      timeout <- (if mgmt_element then ret (Some 0%Q)
                  else (_prune depth ;; ret timeout)) ;;
      timeout <- _normalize_timeout timeout ;;
      let filename := _get_filename key in
      let tmpname := filename ++ ".__tmp" in
      data <- lift (_serialize (VList [VInt timeout; value])) ;;
      try_except_else
        (write_file tmpname data ;;
         present <- os_path_exists filename ;;
         let is_new_file := negb present in
         (if negb is_new_file then os_remove filename else ret tt) ;;
         os_replace tmpname filename ;;
         plat <- sys_platform ;;
         match plat with
         | Win32 => os_chmod filename S_IWRITE
         | Posix => os_chmod filename (_mode self)
         end ;;
         ret is_new_file)
        (fun exc => logger_error "set" key exc ;; ret false)
        (fun is_new_file =>
           (if negb mgmt_element && is_new_file
            then _update_count depth (Some 1) None
            else ret tt) ;;
           ret true)
  end

with _prune (depth : nat) {struct depth} : io unit :=
  match depth with
  | O => raise RecursionError
  | S depth =>
      skip <- (if _threshold self =? 0 then ret true
               else (c <- get depth _fs_count_file ;;
                     over <- lift (py_gt_int (py_or_zero c) (_threshold self)) ;;
                     ret (negb over))) ;;
      if skip : bool then ret tt
      else
        entries <- _list_dir ;;
        now <- time ;;
        nremoved <- sweep now 0 entries 0 ;;
        remaining <- _list_dir ;;
        _update_count depth None (Some (Z.of_nat (List.length remaining))) ;;
        logger_debug "evicted %d key(s)" nremoved
  end.

Definition _file_count (depth : nat) : io pyval :=
  c <- get depth _fs_count_file ;; ret (py_or_zero c).

Definition add (depth : nat) (key : string) (value : pyval)
    (timeout : option Q) : io bool :=
  let filename := _get_filename key in
  present <- os_path_exists filename ;;
  if negb present then set depth key value timeout false
  else ret false.

Definition has (depth : nat) (key : string) : io bool :=
  let filename := _get_filename key in
  try_except
    (data <- read_file filename ;;
     obj <- lift (_deserialize data) ;;
     ev <- lift (unpack2 obj) ;;
     stale <- expired (fst ev) ;;
     if stale then (delete depth key false ;; ret false)
     else ret true)
    (fun exc =>
       if is_FileNotFoundError exc then ret false
       else (logger_error "has" key exc ;; ret false)).

Fixpoint clear_loop (depth : nat) (entries : list string) : io bool :=
  match entries with
  | [] => _update_count depth None (Some 0) ;; ret true
  | fname :: rest =>
      removed <-
        try_except
          (os_remove fname ;; ret true)
          (fun exc =>
             if is_OSError exc
             then (remaining <- _list_dir ;;
                   _update_count depth None
                     (Some (Z.of_nat (List.length remaining))) ;;
                   ret false)
             else raise exc) ;;
      if removed : bool then clear_loop depth rest else ret false
  end.

Definition clear (depth : nat) : io bool :=
  entries <- _list_dir ;;
  clear_loop depth entries.

(** [__init__], after the fields are stored. *)
Definition init (depth : nat) : io unit :=
  os_makedirs (_path self) ;;
  if negb (_threshold self =? 0)
  then (entries <- _list_dir ;;
        _update_count depth None (Some (Z.of_nat (List.length entries))))
  else ret tt.

End Methods.

(* ===================================================================== *)
(** ** Reference implementations of the collaborators *)
(* ===================================================================== *)

Definition code (a : ascii) : Z := Z.of_N (N_of_ascii a).
Definition chr (n : Z) : ascii := ascii_of_N (Z.to_N (n mod 256)).
Definition byte (n : Z) : string := String (chr n) EmptyString.

(** [n] as [k] bytes, most significant first; a negative [n] comes out in
    two's complement. *)
Fixpoint big_endian (k : nat) (n : Z) : string :=
  match k with
  | O => EmptyString
  | S k' => big_endian k' (n / 256) ++ byte n
  end.

Fixpoint of_big_endian (acc : Z) (s : string) : Z :=
  match s with
  | EmptyString => acc
  | String c r => of_big_endian (acc * 256 + code c) r
  end.

(** the first [n] bytes and the rest; [None] when there are fewer *)
Fixpoint split_at (n : nat) (s : string) : option (string * string) :=
  match n, s with
  | O, _ => Some (EmptyString, s)
  | S n', String c r =>
      match split_at n' r with
      | Some (a, b) => Some (String c a, b)
      | None => None
      end
  | S _, EmptyString => None
  end.

Definition strlen (s : string) : Z := Z.of_nat (String.length s).

(** The part of the MessagePack format that [pyval] covers: nil, booleans,
    integers of 64 bits, strings, binary and arrays, each in its shortest
    form.  A tuple is written as an array; an array is read as a list.
    Maps, floats and extension types are outside the value model and are
    reported as [DecodeError]. *)
Module Msgpack.

Definition enc_int (z : Z) : outcome bytes :=
  if 0 <=? z then
    if z <? 128 then Return (byte z)
    else if z <? 2 ^ 8 then Return (byte 204 ++ big_endian 1 z)
    else if z <? 2 ^ 16 then Return (byte 205 ++ big_endian 2 z)
    else if z <? 2 ^ 32 then Return (byte 206 ++ big_endian 4 z)
    else if z <? 2 ^ 64 then Return (byte 207 ++ big_endian 8 z)
    else Raise OverflowError
  else
    if -32 <=? z then Return (byte (z + 256))
    else if - 2 ^ 7 <=? z then Return (byte 208 ++ big_endian 1 z)
    else if - 2 ^ 15 <=? z then Return (byte 209 ++ big_endian 2 z)
    else if - 2 ^ 31 <=? z then Return (byte 210 ++ big_endian 4 z)
    else if - 2 ^ 63 <=? z then Return (byte 211 ++ big_endian 8 z)
    else Raise OverflowError.

Definition str_header (n : Z) : outcome bytes :=
  if n <? 32 then Return (byte (160 + n))
  else if n <? 2 ^ 8 then Return (byte 217 ++ big_endian 1 n)
  else if n <? 2 ^ 16 then Return (byte 218 ++ big_endian 2 n)
  else if n <? 2 ^ 32 then Return (byte 219 ++ big_endian 4 n)
  else Raise ValueError.

Definition bin_header (n : Z) : outcome bytes :=
  if n <? 2 ^ 8 then Return (byte 196 ++ big_endian 1 n)
  else if n <? 2 ^ 16 then Return (byte 197 ++ big_endian 2 n)
  else if n <? 2 ^ 32 then Return (byte 198 ++ big_endian 4 n)
  else Raise ValueError.

Definition array_header (n : Z) : outcome bytes :=
  if n <? 16 then Return (byte (144 + n))
  else if n <? 2 ^ 16 then Return (byte 220 ++ big_endian 2 n)
  else if n <? 2 ^ 32 then Return (byte 221 ++ big_endian 4 n)
  else Raise ValueError.

Fixpoint encode (v : pyval) : outcome bytes :=
  match v with
  | VNone => Return (byte 192)
  | VBool false => Return (byte 194)
  | VBool true => Return (byte 195)
  | VInt z => enc_int z
  | VStr s => obind (str_header (strlen s)) (fun h => Return (h ++ s))
  | VBytes b => obind (bin_header (strlen b)) (fun h => Return (h ++ b))
  | VList l | VTuple l =>
      obind (array_header (Z.of_nat (List.length l))) (fun h =>
      obind ((fix items (l : list pyval) : outcome bytes :=
                match l with
                | [] => Return EmptyString
                | x :: r =>
                    obind (encode x) (fun a =>
                    obind (items r) (fun b => Return (a ++ b)))
                end) l) (fun body =>
      Return (h ++ body)))
  | VObject _ => Raise TypeError
  end.

(** a length or integer field of [k] bytes, then the rest *)
Definition field (k : nat) (s : string) : outcome (Z * string) :=
  match split_at k s with
  | Some (a, r) => Return (of_big_endian 0 a, r)
  | None => Raise DecodeError
  end.

Definition signed (k : nat) (n : Z) : Z :=
  if n <? 2 ^ (8 * Z.of_nat k - 1) then n else n - 2 ^ (8 * Z.of_nat k).

Definition payload (n : Z) (s : string) : outcome (string * string) :=
  match split_at (Z.to_nat n) s with
  | Some p => Return p
  | None => Raise DecodeError
  end.

Fixpoint parse (fuel : nat) (s : string) : outcome (pyval * string) :=
  match fuel with
  | O => Raise DecodeError
  | S fuel =>
      let array (n : Z) (r : string) : outcome (pyval * string) :=
        if strlen r <? n then Raise DecodeError
        else
          obind ((fix items (n : nat) (s : string)
                    : outcome (list pyval * string) :=
                    match n with
                    | O => Return ([], s)
                    | S n' =>
                        obind (parse fuel s) (fun vs =>
                        obind (items n' (snd vs)) (fun ws =>
                        Return (fst vs :: fst ws, snd ws)))
                    end) (Z.to_nat n) r)
                (fun ws => Return (VList (fst ws), snd ws)) in
      let str (n : Z) (r : string) : outcome (pyval * string) :=
        obind (payload n r) (fun p => Return (VStr (fst p), snd p)) in
      let bin (n : Z) (r : string) : outcome (pyval * string) :=
        obind (payload n r) (fun p => Return (VBytes (fst p), snd p)) in
      let uint (k : nat) (r : string) : outcome (pyval * string) :=
        obind (field k r) (fun p => Return (VInt (fst p), snd p)) in
      let sint (k : nat) (r : string) : outcome (pyval * string) :=
        obind (field k r) (fun p => Return (VInt (signed k (fst p)), snd p)) in
      let sized (k : nat) (f : Z -> string -> outcome (pyval * string))
                (r : string) : outcome (pyval * string) :=
        obind (field k r) (fun p => f (fst p) (snd p)) in
      match s with
      | EmptyString => Raise DecodeError
      | String c r =>
          let t := code c in
          if t <? 128 then Return (VInt t, r)
          else if t <? 144 then Raise DecodeError
          else if t <? 160 then array (t - 144) r
          else if t <? 192 then str (t - 160) r
          else if t =? 192 then Return (VNone, r)
          else if t =? 194 then Return (VBool false, r)
          else if t =? 195 then Return (VBool true, r)
          else if t =? 196 then sized 1%nat bin r
          else if t =? 197 then sized 2%nat bin r
          else if t =? 198 then sized 4%nat bin r
          else if t =? 204 then uint 1%nat r
          else if t =? 205 then uint 2%nat r
          else if t =? 206 then uint 4%nat r
          else if t =? 207 then uint 8%nat r
          else if t =? 208 then sint 1%nat r
          else if t =? 209 then sint 2%nat r
          else if t =? 210 then sint 4%nat r
          else if t =? 211 then sint 8%nat r
          else if t =? 217 then sized 1%nat str r
          else if t =? 218 then sized 2%nat str r
          else if t =? 219 then sized 4%nat str r
          else if t =? 220 then sized 2%nat array r
          else if t =? 221 then sized 4%nat array r
          else if 224 <=? t then Return (VInt (t - 256), r)
          else Raise DecodeError
      end
  end.

(** one value and nothing after it *)
Definition decode (s : bytes) : outcome pyval :=
  match parse (S (String.length s)) s with
  | Return (v, EmptyString) => Return v
  | Return (_, String _ _) => Raise DecodeError
  | Raise e => Raise e
  end.

End Msgpack.

(** zlib streams made of stored (uncompressed) deflate blocks: what
    [zlib.compress] writes at level 0, and a stream every decompressor
    reads.  [decompress] reads stored blocks only. *)
Module Zlib.

Definition little_endian2 (n : Z) : string := byte n ++ byte (n / 256).

Definition adler32 (s : string) : Z :=
  let fix go (a b : Z) (s : string) : Z :=
    match s with
    | EmptyString => b * 65536 + a
    | String c r =>
        let a' := (a + code c) mod 65521 in
        go a' ((b + a') mod 65521) r
    end in
  go 1 0 s.

Fixpoint blocks (fuel : nat) (s : string) : string :=
  match fuel with
  | O => EmptyString
  | S fuel =>
      match split_at (Z.to_nat 65535) s with
      | Some (a, String c r) =>
          byte 0 ++ little_endian2 65535 ++ little_endian2 0 ++ a
          ++ blocks fuel (String c r)
      | _ =>
          let n := strlen s in
          byte 1 ++ little_endian2 n ++ little_endian2 (65535 - n) ++ s
      end
  end.

Definition compress (level : Z) (data : bytes) : outcome bytes :=
  if (level <? -1) || (9 <? level) then Raise ZlibError
  else Return (byte 120 ++ byte 1
               ++ blocks (S (String.length data)) data
               ++ big_endian 4 (adler32 data)).

Fixpoint inflate (fuel : nat) (s : string) : outcome (string * string) :=
  match fuel with
  | O => Raise ZlibError
  | S fuel =>
      match s with
      | String h (String l0 (String l1 (String n0 (String n1 r)))) =>
          let len := code l0 + 256 * code l1 in
          let nlen := code n0 + 256 * code n1 in
          if negb (code h / 2 =? 0) || negb (len + nlen =? 65535)
          then Raise ZlibError
          else
            match split_at (Z.to_nat len) r with
            | Some (a, rest) =>
                if code h =? 1 then Return (a, rest)
                else obind (inflate fuel rest) (fun p =>
                     Return (a ++ fst p, snd p))
            | None => Raise ZlibError
            end
      | _ => Raise ZlibError
      end
  end.

Definition decompress (s : bytes) : outcome bytes :=
  match s with
  | String cmf (String flg r) =>
      if negb (code cmf =? 120)
         || negb ((code cmf * 256 + code flg) mod 31 =? 0)
         || negb (code flg / 32 mod 2 =? 0)
      then Raise ZlibError
      else
        obind (inflate (S (String.length r)) r) (fun p =>
        match split_at 4 (snd p) with
        | Some (sum, _) =>
            if of_big_endian 0 sum =? adler32 (fst p) then Return (fst p)
            else Raise ZlibError
        | None => Raise ZlibError
        end)
  | _ => Raise ZlibError
  end.

End Zlib.

#[export] Instance RefCodec : Codec := {
  msgpack_encode := Msgpack.encode;
  msgpack_decode := Msgpack.decode;
  zlib_compress := Zlib.compress;
  zlib_decompress := Zlib.decompress
}.

(** [hashlib.md5], the default [hash_method] (RFC 1321). *)
Module MD5.

Definition w32 (x : Z) : Z := x mod 2 ^ 32.

Definition rotl (x c : Z) : Z :=
  w32 (Z.lor (Z.shiftl x c) (Z.shiftr x (32 - c))).

Definition not32 (x : Z) : Z := Z.lxor x (2 ^ 32 - 1).

Definition K : list Z :=
  [3614090360; 3905402710; 606105819; 3250441966; 4118548399; 1200080426; 2821735955; 4249261313;
   1770035416; 2336552879; 4294925233; 2304563134; 1804603682; 4254626195; 2792965006; 1236535329;
   4129170786; 3225465664; 643717713; 3921069994; 3593408605; 38016083; 3634488961; 3889429448;
   568446438; 3275163606; 4107603335; 1163531501; 2850285829; 4243563512; 1735328473; 2368359562;
   4294588738; 2272392833; 1839030562; 4259657740; 2763975236; 1272893353; 4139469664; 3200236656;
   681279174; 3936430074; 3572445317; 76029189; 3654602809; 3873151461; 530742520; 3299628645;
   4096336452; 1126891415; 2878612391; 4237533241; 1700485571; 2399980690; 4293915773; 2240044497;
   1873313359; 4264355552; 2734768916; 1309151649; 4149444226; 3174756917; 718787259; 3951481745].

Definition shifts : list Z :=
  [7; 12; 17; 22; 7; 12; 17; 22; 7; 12; 17; 22; 7; 12; 17; 22;
   5; 9; 14; 20; 5; 9; 14; 20; 5; 9; 14; 20; 5; 9; 14; 20;
   4; 11; 16; 23; 4; 11; 16; 23; 4; 11; 16; 23; 4; 11; 16; 23;
   6; 10; 15; 21; 6; 10; 15; 21; 6; 10; 15; 21; 6; 10; 15; 21].

Fixpoint codes (s : string) : list Z :=
  match s with
  | EmptyString => []
  | String c r => code c :: codes r
  end.

Fixpoint little_endian (k : nat) (n : Z) : list Z :=
  match k with
  | O => []
  | S k' => n mod 256 :: little_endian k' (n / 256)
  end.

(** the message, a one bit, zeros up to 56 modulo 64, the bit length *)
Definition pad (msg : list Z) : list Z :=
  let n := Z.of_nat (List.length msg) in
  let zeros := Z.to_nat ((55 - n) mod 64) in
  msg ++ [128] ++ repeat 0 zeros ++ little_endian 8 (8 * n).

Fixpoint words (fuel : nat) (bs : list Z) : list Z :=
  match fuel, bs with
  | S fuel, b0 :: b1 :: b2 :: b3 :: r =>
      (b0 + 256 * b1 + 65536 * b2 + 16777216 * b3) :: words fuel r
  | _, _ => []
  end.

Definition state := (Z * Z * Z * Z)%type.

Definition round (M : list Z) (st : state) (i : Z) : state :=
  let '(A, B, C, D) := st in
  let F :=
    if i <? 16 then Z.lor (Z.land B C) (Z.land (not32 B) D)
    else if i <? 32 then Z.lor (Z.land D B) (Z.land (not32 D) C)
    else if i <? 48 then Z.lxor B (Z.lxor C D)
    else Z.lxor C (Z.lor B (not32 D)) in
  let g :=
    if i <? 16 then i
    else if i <? 32 then (5 * i + 1) mod 16
    else if i <? 48 then (3 * i + 5) mod 16
    else (7 * i) mod 16 in
  let F' := w32 (F + A + nth (Z.to_nat i) K 0 + nth (Z.to_nat g) M 0) in
  (D, w32 (B + rotl F' (nth (Z.to_nat i) shifts 0)), B, C).

Definition block (st : state) (M : list Z) : state :=
  let '(a0, b0, c0, d0) := st in
  let '(A, B, C, D) :=
    fold_left (round M) (map Z.of_nat (seq 0 64)) st in
  (w32 (a0 + A), w32 (b0 + B), w32 (c0 + C), w32 (d0 + D)).

Fixpoint blocks (fuel : nat) (st : state) (ws : list Z) : state :=
  match fuel, ws with
  | S fuel, _ :: _ => blocks fuel (block st (firstn 16 ws)) (skipn 16 ws)
  | _, _ => st
  end.

Definition digest (msg : bytes) : state :=
  let bs := pad (codes msg) in
  let ws := words (List.length bs) bs in
  blocks (List.length ws) (1732584193, 4023233417, 2562383102, 271733878) ws.

Definition hexdigit (n : Z) : ascii :=
  nth (Z.to_nat (n mod 16))
      ["0"; "1"; "2"; "3"; "4"; "5"; "6"; "7";
       "8"; "9"; "a"; "b"; "c"; "d"; "e"; "f"]%char "0"%char.

Definition hex_byte (b : Z) (k : string) : string :=
  String (hexdigit (b / 16)) (String (hexdigit b) k).

Definition hex_word (w : Z) (k : string) : string :=
  hex_byte w (hex_byte (w / 256) (hex_byte (w / 65536)
    (hex_byte (w / 16777216) k))).

Definition hexdigest (msg : bytes) : string :=
  let '(a, b, c, d) := digest msg in
  hex_word a (hex_word b (hex_word c (hex_word d EmptyString))).

End MD5.

(* ===================================================================== *)
(** ** Vocabulary of the statements *)
(* ===================================================================== *)

(** A file system that never refuses. *)
Definition fault_free (w : world) : Prop := w_faults w = [].

Definition is_hex (c : ascii) : bool :=
  existsb (Ascii.eqb c)
    ["0"; "1"; "2"; "3"; "4"; "5"; "6"; "7";
     "8"; "9"; "a"; "b"; "c"; "d"; "e"; "f"]%char.

(** What the constructor and [hashlib] guarantee: a cache directory with a
    name, and digests that are non-empty strings of hexadecimal digits. *)
Record well_formed (self : FileSystemCacheMsgspec) : Prop := {
  wf_path : _path self <> "";
  wf_hex : forall key, Str.all is_hex (_hash_method self key) = true;
  wf_digest : forall key, _hash_method self key <> ""
}.

(** the directory with its trailing separator *)
Definition dir_prefix (path : string) : string :=
  if Str.ends_with "/" path then path else path ++ "/".

(** the expiry [set] stores for [timeout] when the clock shows [now] *)
Definition expiry (self : FileSystemCacheMsgspec) (timeout : option Q) (now : Q) : Z :=
  let t := BaseCache_normalize_timeout self timeout in
  if negb (Qeq_bool t 0) then py_int (float_add now t) else py_int t.

(** [get] finds the entry stale at [now]. *)
Definition stale (e : Z) (now : Q) : bool :=
  negb (e =? 0) && Qltb (inject_Z e) now.

(** [obj] passes through the codec unchanged. *)
Definition serializable `{Codec} (self : FileSystemCacheMsgspec) (obj : pyval) : Prop :=
  exists data, _serialize self obj = Return data
               /\ _deserialize self data = Return obj.

(** The counter file holds a count that never expires, whenever counting
    is on: the state [__init__] and every count update leave behind. *)
Definition counter_ok `{Codec} (self : FileSystemCacheMsgspec) (w : world) : Prop :=
  _threshold self = 0
  \/ exists f n,
       Dir.lookup (_get_filename self _fs_count_file) (w_files w) = Some f
       /\ _deserialize self (f_data f) = Return (VList [VInt 0; VInt n]).

(** How a path's content may change between two states. *)
Definition change : Type := string -> option file -> option file -> Prop.

Definition any_change : change := fun _ _ _ => True.

(** paths in [S] are free, every other path keeps its content *)
Definition frame (S : string -> Prop) : change :=
  fun q a b => S q \/ b = a.

(** paths in [S] are free, every other path keeps its content or vanishes *)
Definition shrink (S : string -> Prop) : change :=
  fun q a b => S q \/ b = a \/ b = None.

(** [w'] comes after [w]: no fault appears from nowhere, clock and platform
    stay, the trace only grows, and the final directory and every directory
    added to the trace differ from the one of [w] as [T] allows.  A change
    of the directory shows in the trace: the final directory is the one
    added last, or the one of [w] when none was added. *)
Record evolves (T : change) (w w' : world) : Prop := {
  ev_faults : w_faults w = [] -> w_faults w' = [];
  ev_now : w_now w' = w_now w;
  ev_platform : w_platform w' = w_platform w;
  ev_files : forall q, T q (Dir.lookup q (w_files w)) (Dir.lookup q (w_files w'));
  ev_trace : exists new, w_trace w' = (new ++ w_trace w)%list
             /\ forall d, In d new ->
                forall q, T q (Dir.lookup q (w_files w)) (Dir.lookup q d);
  ev_head : exists new, w_trace w' = (new ++ w_trace w)%list
            /\ w_files w' = hd (w_files w) new
}.

Definition preserves {A : Type} (T : change) (m : io A) : Prop :=
  forall w r w', m w = (r, w') -> evolves T w w'.

Definition reflexive (T : change) : Prop := forall q a, T q a a.
Definition transitive (T : change) : Prop :=
  forall q a b c, T q a b -> T q b c -> T q a c.
Definition free_at (T : change) (p : string) : Prop := forall a b, T p a b.
Definition removable_at (T : change) (p : string) : Prop := forall a, T p a None.

(** the directory [set] leaves behind when nothing fails: the record under
    [fn], the temporary name gone *)
Definition installed (fn tmp : string) (data : bytes) (mode : Z) (d : directory)
    : directory :=
  let d1 := Dir.store tmp (mkfile data
              (match Dir.lookup tmp d with Some f => f_mode f | None => creat_mode end)) d in
  let d2 := if Dir.mem fn d1 then Dir.erase fn d1 else d1 in
  let d3 := if String.eqb tmp fn then d2 else Dir.rename tmp fn (Dir.erase fn d2) in
  Dir.store fn (mkfile data mode) d3.

(** the mode [set] gives the file *)
Definition final_mode (self : FileSystemCacheMsgspec) (w : world) : Z :=
  match w_platform w with Win32 => S_IWRITE | Posix => _mode self end.

(** The body of the [try] block of [set]: write the temporary file, remove
    an existing target, rename, set the mode; the result is [is_new_file]. *)
Definition write_phase (self : FileSystemCacheMsgspec)
    (filename tmpname : string) (data : bytes) : io bool :=
  write_file tmpname data ;;
  present <- os_path_exists filename ;;
  let is_new_file := negb present in
  (if negb is_new_file then os_remove filename else ret tt) ;;
  os_replace tmpname filename ;;
  plat <- sys_platform ;;
  match plat with
  | Win32 => os_chmod filename S_IWRITE
  | Posix => os_chmod filename (_mode self)
  end ;;
  ret is_new_file.

(** the paths of the counter: its file and its temporary file *)
Definition counter_path `{Codec} (self : FileSystemCacheMsgspec) (q : string) : Prop :=
  q = _get_filename self _fs_count_file
  \/ q = _get_filename self _fs_count_file ++ ".__tmp".

(** what [_list_dir] returns for a directory: the paths of the names that
    pass its filter, in directory order *)
Definition listing `{Codec} (self : FileSystemCacheMsgspec) (d : directory)
    : list string :=
  map (fun fn => os_path_join (_path self) fn)
      (filter (fun fn =>
                 negb (Str.ends_with _fs_transaction_suffix fn)
                 && negb (existsb (String.eqb fn)
                            [Str.last_component (_get_filename self _fs_count_file)]))
              (Dir.names (dir_prefix (_path self)) d)).

(** the states a reader may find the target of a write in *)
Definition old_none_or_new (old : option file) (data : bytes) (cur : option file)
    : Prop :=
  cur = old \/ cur = None \/ exists mode, cur = Some (mkfile data mode).

(** The verdict of the sweep on the file [f] found at position [idx]: an
    entry that cannot be read as a record is kept. *)
Definition evict `{Codec} (self : FileSystemCacheMsgspec) (now : Q) (idx : Z)
    (f : file) : bool :=
  match obind (_deserialize self (f_data f)) (fun obj =>
        obind (unpack2 obj) (fun ev => prune_decide (fst ev) now idx)) with
  | Return b => b
  | Raise _ => false
  end.

(** the directory after the sweep has passed over [entries] *)
Fixpoint sweep_dir `{Codec} (self : FileSystemCacheMsgspec) (now : Q) (idx : Z)
    (entries : list string) (d : directory) : directory :=
  match entries with
  | [] => d
  | p :: rest =>
      sweep_dir self now (idx + 1) rest
        (match Dir.lookup p d with
         | Some f => if evict self now idx f then Dir.erase p d else d
         | None => d
         end)
  end.

(** What [get] returns, read off the file of the key and the clock. *)
Definition read_value `{Codec} (self : FileSystemCacheMsgspec) (now : Q)
    (o : option file) : pyval :=
  match o with
  | None => VNone
  | Some f =>
      match obind (_deserialize self (f_data f)) unpack2 with
      | Return (expires, value) =>
          match (if py_ne_zero expires then py_lt expires now else Return false) with
          | Return false => value
          | _ => VNone
          end
      | Raise _ => VNone
      end
  end.


(** the world with another fault schedule *)
Definition with_faults (fs : list bool) (w : world) : world := set_faults fs w.

(** The codec reads back what it wrote for [obj]: msgpack decodes the
    encoding of [obj] to [obj] and, for a cache that compresses, zlib
    restores what it compressed. *)
Definition reads_back `{Codec} (self : FileSystemCacheMsgspec) (obj : pyval) : Prop :=
  forall packed,
    msgpack_encode obj = Return packed ->
    msgpack_decode packed = Return obj
    /\ (compress self = true ->
        forall z, zlib_compress (compress_level self) packed = Return z ->
                  zlib_decompress z = Return packed).

(** The key is not mapped to the file of the counter. *)
Definition regular `{Codec} (self : FileSystemCacheMsgspec) (key : string) : Prop :=
  _hash_method self key <> _hash_method self _fs_count_file.

(** How the write phase of [set] changes the directory: the temporary file
    is free, the target keeps its file, loses it or holds the new record,
    every other path keeps its content. *)
Definition target_change (fn tmp : string) (data : bytes) : change :=
  fun q a b => q = tmp \/ (q = fn /\ old_none_or_new a data b) \/ b = a.

(** a counter file as a management write leaves it: the record of a count
    with expiry 0 *)
Definition count_file `{Codec} (self : FileSystemCacheMsgspec) (o : option file)
    : Prop :=
  exists n data mode,
    _serialize self (VList [VInt 0; VInt n]) = Return data
    /\ o = Some (mkfile data mode).

(** How the cache itself changes the counter file: it keeps it, removes it
    or leaves a count with expiry 0 there; the other paths are free. *)
Definition counter_change `{Codec} (self : FileSystemCacheMsgspec) : change :=
  fun q a b =>
    q <> _get_filename self _fs_count_file
    \/ b = a \/ b = None \/ count_file self b.

(** No eviction is due and the count can be kept: the cache does not
    count, or its threshold is positive and the counter file is absent or
    holds a count that is not above the threshold, and the count that the
    next new entry makes can be encoded. *)
Definition counter_quiet `{Codec} (self : FileSystemCacheMsgspec) (d : directory)
    : Prop :=
  _threshold self = 0
  \/ (0 < _threshold self
      /\ (exists data, _serialize self (VList [VInt 0; VInt 1]) = Return data)
      /\ (Dir.lookup (_get_filename self _fs_count_file) d = None
          \/ exists f n,
               Dir.lookup (_get_filename self _fs_count_file) d = Some f
               /\ _deserialize self (f_data f) = Return (VList [VInt 0; VInt n])
               /\ n <= _threshold self
               /\ exists data,
                    _serialize self (VList [VInt 0; VInt (n + 1)]) = Return data)).

(** The counter file is sound: absent, or a count with expiry 0. *)
Definition counter_sound `{Codec} (self : FileSystemCacheMsgspec) (d : directory)
    : Prop :=
  Dir.lookup (_get_filename self _fs_count_file) d = None
  \/ count_file self (Dir.lookup (_get_filename self _fs_count_file) d).

(** [m] leaves a sound counter file sound, however it ends. *)
Definition keeps_counter `{Codec} {A : Type} (self : FileSystemCacheMsgspec)
    (m : io A) : Prop :=
  forall w r w',
    counter_sound self (w_files w) -> m w = (r, w') ->
    counter_sound self (w_files w').

(** [w'] is [w] but for the fault schedule and the log. *)
Definition same_files (w w' : world) : Prop :=
  w_files w' = w_files w /\ w_now w' = w_now w
  /\ w_platform w' = w_platform w /\ w_trace w' = w_trace w.

(* ===================================================================== *)
(** ** Sample objects *)
(* ===================================================================== *)

(** [FileSystemCacheMsgspec("/tmp/cache")] with the default arguments. *)
Definition cache0 : FileSystemCacheMsgspec :=
  {| _path := "/tmp/cache"; _threshold := 500; default_timeout := 300;
     _mode := 384; _hash_method := MD5.hexdigest; ignore_errors := false;
     compress := false; compress_level := 3 |}.

(** the same with [threshold=0]: no counting, no eviction *)
Definition cache_unbounded : FileSystemCacheMsgspec :=
  {| _path := "/tmp/cache"; _threshold := 0; default_timeout := 300;
     _mode := 384; _hash_method := MD5.hexdigest; ignore_errors := false;
     compress := false; compress_level := 3 |}.

(** [threshold=2], to see a sweep *)
Definition cache_small : FileSystemCacheMsgspec :=
  {| _path := "/tmp/cache"; _threshold := 2; default_timeout := 300;
     _mode := 384; _hash_method := MD5.hexdigest; ignore_errors := false;
     compress := false; compress_level := 3 |}.

(** an empty directory, a working file system *)
Definition world0 : world :=
  {| w_files := []; w_now := 1700000000; w_platform := Posix; w_faults := [];
     w_log := []; w_trace := [] |}.

(** the world a computation ends in *)
Definition after {A : Type} (m : io A) (w : world) : world := snd (m w).

(** its result *)
Definition result {A : Type} (m : io A) (w : world) : outcome A := fst (m w).

(** the call depth given to the sample runs *)
Definition depth0 : nat := 12.

(** [world0] after the constructor of [cache0] has run *)
Definition world1 : world := after (init cache0 depth0) world0.

(** then [set("k", "v")] with the default timeout *)
Definition world2 : world :=
  after (set cache0 depth0 "k" (VStr "v") None false) world1.

(** [world2] after [set("k", "new")]: an overwrite *)
Definition world3 : world :=
  after (set cache0 depth0 "k" (VStr "new") None false) world2.

(** [world1], where the fourth system call from now will fail: for a [set]
    of a new key that is the rename (the first reads the counter, the next
    two open and write the temporary file) *)
Definition world_rename_fails : world :=
  with_faults [false; false; false; true] world1.

(** the world that [set("k", "v")] leaves when the rename fails *)
Definition world_leftover : world :=
  after (set cache0 depth0 "k" (VStr "v") None false) world_rename_fails.

(** an unbounded cache on an empty directory where opening a file fails *)
Definition world_open_fails : world := with_faults [true] world0.


(** three entries in a cache of threshold two: the count exceeds it *)
Definition world_full : world :=
  after (init cache_small depth0 ;;
         set cache_small depth0 "a" (VInt 1) None false ;;
         set cache_small depth0 "b" (VInt 2) None false ;;
         set cache_small depth0 "c" (VInt 3) None false) world0.


(** [world2], a thousand seconds later: the entry of ["k"] has expired *)
Definition world_later : world := set_now 1700001000 world2.



(** the file of ["k"] in [world2] *)
Definition file_k : file :=
  match Dir.lookup (_get_filename cache0 "k") (w_files world2) with
  | Some f => f
  | None => mkfile "" 0
  end.

(** [world2] after one more increment of the counter *)
Definition world_counted : world :=
  after (_update_count cache0 depth0 (Some 1) None) world2.

(** the counter file of [world_full] *)
Definition counter_full : file :=
  match Dir.lookup (_get_filename cache_small _fs_count_file) (w_files world_full) with
  | Some f => f
  | None => mkfile "" 0
  end.



(** the counter file of [world2] *)
Definition counter2 : file :=
  match Dir.lookup (_get_filename cache0 _fs_count_file) (w_files world2) with
  | Some f => f
  | None => mkfile "" 0
  end.

(** [world1] after [add("k", "first")] *)
Definition world_added : world :=
  after (add cache0 depth0 "k" (VStr "first") None) world1.

(** [world1] after [set("k", "v", timeout=0)] *)
Definition world_forever : world :=
  after (set cache0 depth0 "k" (VStr "v") (Some 0%Q) false) world1.

(* ===================================================================== *)
(** ** Vocabulary of the further properties *)
(* ===================================================================== *)

(** the paths of a directory, in order *)
Definition paths (d : directory) : list string := map fst d.

(** the codec reads back the counter records it writes *)
Definition count_roundtrip `{Codec} (self : FileSystemCacheMsgspec) : Prop :=
  forall n data,
    _serialize self (VList [VInt 0; VInt n]) = Return data ->
    _deserialize self data = Return (VList [VInt 0; VInt n]).

(** no temporary file of a key is left in the directory *)
Definition tidy `{Codec} (self : FileSystemCacheMsgspec) (d : directory) : Prop :=
  forall key, Dir.lookup (_get_filename self key ++ ".__tmp") d = None.

(** the counter file holds the count [n], with expiry 0 *)
Definition counts `{Codec} (self : FileSystemCacheMsgspec) (d : directory) (n : Z)
    : Prop :=
  exists f,
    Dir.lookup (_get_filename self _fs_count_file) d = Some f
    /\ _deserialize self (f_data f) = Return (VList [VInt 0; VInt n]).

(** The counter agrees with the directory: it holds the number of entries
    [_list_dir] reports. *)
Definition tracked `{Codec} (self : FileSystemCacheMsgspec) (d : directory) : Prop :=
  NoDup (paths d) /\ tidy self d
  /\ counts self d (Z.of_nat (List.length (listing self d))).

(* ===================================================================== *)
(** ** The factory *)
(* ===================================================================== *)

(** A Python [dict] with string keys, in insertion order. *)
Definition pydict : Type := list (string * pyval).

Fixpoint dict_get (k : string) (d : pydict) : option pyval :=
  match d with
  | [] => None
  | (k', v) :: r => if String.eqb k k' then Some v else dict_get k r
  end.

(** [d[k] = v] *)
Fixpoint dict_set (k : string) (v : pyval) (d : pydict) : pydict :=
  match d with
  | [] => [(k, v)]
  | (k', v') :: r =>
      if String.eqb k k' then (k', v) :: r else (k', v') :: dict_set k v r
  end.

(** [d.update(new)] *)
Definition dict_update (d new : pydict) : pydict :=
  fold_left (fun d kv => dict_set (fst kv) (snd kv) d) new d.

(** [d.get(k, default)] *)
Definition dict_get_default (k : string) (default : pyval) (d : pydict) : pyval :=
  match dict_get k d with
  | Some v => v
  | None => default
  end.

(** the parameters of [__init__] after [self] *)
Definition init_params : list string :=
  ["cache_dir"; "threshold"; "default_timeout"; "mode"; "hash_method";
   "ignore_errors"; "compress"; "compress_level"].

(** A call with unpacked [args] and [kwargs]: the positional arguments fill
    the parameters in order, and there must not be more of them than
    parameters; a keyword argument must name a parameter that has no value
    yet.  [None] is the [TypeError] of the call. *)
Fixpoint bind_positional (params : list string) (args : list pyval)
    : option pydict :=
  match args, params with
  | [], _ => Some []
  | a :: args', p :: params' =>
      match bind_positional params' args' with
      | Some b => Some ((p, a) :: b)
      | None => None
      end
  | _ :: _, [] => None
  end.

Fixpoint bind_keywords (params : list string) (bound kwargs : pydict)
    : option pydict :=
  match kwargs with
  | [] => Some bound
  | (k, v) :: r =>
      if existsb (String.eqb k) params
      then match dict_get k bound with
           | None => bind_keywords params (bound ++ [(k, v)])%list r
           | Some _ => None
           end
      else None
  end.

Definition bind_call (params : list string) (args : list pyval) (kwargs : pydict)
    : option pydict :=
  match bind_positional params args with
  | Some bound => bind_keywords params bound kwargs
  | None => None
  end.

(** The instance [__init__] sets up from its arguments, with the defaults
    of the signature.  The fields of the embedding are typed: a directory
    that is a [str], integers for [threshold], [default_timeout], [mode]
    and [compress_level], booleans for the two flags, and the default
    [hash_method]; for arguments of other types there is no instance in
    the embedding ([None]). *)
Definition instance (bound : pydict) : option FileSystemCacheMsgspec :=
  match dict_get "cache_dir" bound,
        dict_get_default "threshold" (VInt 500) bound,
        dict_get_default "default_timeout" (VInt 300) bound,
        dict_get_default "mode" (VInt 384) bound,
        dict_get "hash_method" bound,
        dict_get_default "ignore_errors" (VBool false) bound,
        dict_get_default "compress" (VBool false) bound,
        dict_get_default "compress_level" (VInt 3) bound
  with
  | Some (VStr dir), VInt th, VInt dt, VInt mode, None, VBool ie, VBool c, VInt lvl =>
      Some {| _path := dir; _threshold := th; default_timeout := inject_Z dt;
              _mode := mode; _hash_method := MD5.hexdigest; ignore_errors := ie;
              compress := c; compress_level := lvl |}
  | _, _, _, _, _, _, _, _ => None
  end.

(** How a call of the factory ends. *)
Inductive factory_result : Type :=
| Built (self : FileSystemCacheMsgspec)   (* the instance is returned *)
| KeyError (key : string)                 (* [config[key]] of a missing key *)
| CallError                               (* the [TypeError] of [cls(...)] *)
| InitError (e : exn)                     (* [__init__] raised *)
| Untyped.                                (* arguments outside the typed fields *)

(** The result, and the caller's [args] and [kwargs] as the call leaves
    them: the factory changes both in place. *)
Record factory_call : Type := mkcall {
  c_result : factory_result;
  c_args : list pyval;
  c_kwargs : pydict
}.

(** [FileSystemCacheMsgspec.factory(app, config, args, kwargs)]; [app] is
    not used. *)
Definition factory `{Codec} (depth : nat) (config : pydict) (args : list pyval)
    (kwargs : pydict) : world -> factory_call * world :=
  fun w =>
    match dict_get "CACHE_DIR" config with
    | None => (mkcall (KeyError "CACHE_DIR") args kwargs, w)
    | Some dir =>
        let args := dir :: args in
        match dict_get "CACHE_THRESHOLD" config with
        | None => (mkcall (KeyError "CACHE_THRESHOLD") args kwargs, w)
        | Some th =>
            match dict_get "CACHE_IGNORE_ERRORS" config with
            | None => (mkcall (KeyError "CACHE_IGNORE_ERRORS") args kwargs, w)
            | Some ie =>
                let kwargs :=
                  dict_update kwargs
                    [("threshold", th);
                     ("ignore_errors", ie);
                     ("compress",
                      dict_get_default "CACHE_COMPRESS" (VBool false) config);
                     ("compress_level",
                      dict_get_default "CACHE_COMPRESS_LEVEL" (VInt 3) config)] in
                match bind_call init_params args kwargs with
                | None => (mkcall CallError args kwargs, w)
                | Some bound =>
                    match instance bound with
                    | None => (mkcall Untyped args kwargs, w)
                    | Some self =>
                        match init self depth w with
                        | (Return _, w') => (mkcall (Built self) args kwargs, w')
                        | (Raise e, w') => (mkcall (InitError e) args kwargs, w')
                        end
                    end
                end
            end
        end
    end.

(* ===================================================================== *)
(** ** More sample objects *)
(* ===================================================================== *)

(** the bytes [_serialize] gives for an object *)
Definition record_of `{Codec} (self : FileSystemCacheMsgspec) (obj : pyval) : bytes :=
  match _serialize self obj with
  | Return data => data
  | Raise _ => ""
  end.

(** [cache0] with [compress=True] *)
Definition cache_compressed : FileSystemCacheMsgspec :=
  {| _path := "/tmp/cache"; _threshold := 500; default_timeout := 300;
     _mode := 384; _hash_method := MD5.hexdigest; ignore_errors := false;
     compress := true; compress_level := 3 |}.

(** [world2] where the next system call is refused *)
Definition world_refused : world := with_faults [true] world2.

(** a directory in which the file of ["k"] does not hold a record *)
Definition world_corrupt : world :=
  {| w_files := [(_get_filename cache0 "k", mkfile "not a record" 384)];
     w_now := 1700000000; w_platform := Posix; w_faults := [];
     w_log := []; w_trace := [] |}.

(** [world2] after [delete("k")] *)
Definition world_deleted : world := after (delete cache0 depth0 "k" false) world2.

(** the unbounded cache after [set("k", "v")] *)
Definition world_unbounded_k : world :=
  after (set cache_unbounded depth0 "k" (VStr "v") None false) world0.

(** the same, where the fourth system call from now is refused: for an
    overwrite in the unbounded cache that is the rename *)
Definition world_replace_refused : world :=
  with_faults [false; false; false; true] world_unbounded_k.

(** [world1] with the clock half a second past the full second *)
Definition world_halfsecond : world := set_now (3400000001 # 2) world1.

(** then [set("k", "v", timeout=0.3)] *)
Definition world_short : world :=
  after (set cache0 depth0 "k" (VStr "v") (Some (3 # 10)) false) world_halfsecond.

(** [world_full] after [set("d", 4)]: the count exceeds the threshold, and
    the write is preceded by a sweep *)
Definition world_after_sweep : world :=
  after (set cache_small depth0 "d" (VInt 4) None false) world_full.

(** a Flask configuration for the backend *)
Definition config0 : pydict :=
  [("CACHE_TYPE", VStr "FileSystemCacheMsgspec");
   ("CACHE_DIR", VStr "/tmp/cache");
   ("CACHE_THRESHOLD", VInt 100);
   ("CACHE_IGNORE_ERRORS", VBool false);
   ("CACHE_COMPRESS", VBool true)].

(** [world2] after the counter file has been lost *)
Definition world_lost_counter : world :=
  set_files (Dir.erase (_get_filename cache0 _fs_count_file) (w_files world2)) world2.

(** the object held by the file of a key *)
Definition stored `{Codec} (self : FileSystemCacheMsgspec) (key : string)
    (d : directory) : outcome pyval :=
  match Dir.lookup (_get_filename self key) d with
  | Some f => _deserialize self (f_data f)
  | None => Raise FileNotFoundError
  end.

(** The constructor of [cache0] on an empty directory where the third system
    call is refused: after [os.makedirs] and [os.listdir], the opening of
    the counter's temporary file.  [set] catches the error; the directory
    has no counter file. *)
Definition world_uncounted : world :=
  after (init cache0 depth0) (with_faults [false; false; true] world0).

(** [world1] after [set("k", (1, 2))] *)
Definition world_tuple : world :=
  after (set cache0 depth0 "k" (VTuple [VInt 1; VInt 2]) None false) world1.

(** [world1] after [add("k", (1, 2))] *)
Definition world_tuple_added : world :=
  after (add cache0 depth0 "k" (VTuple [VInt 1; VInt 2]) None) world1.

(** [world_uncounted] after [set("__wz_cache_count", 7)] *)
Definition world_reserved_counted : world :=
  after (set cache0 depth0 _fs_count_file (VInt 7) None false) world_uncounted.

(** [world_uncounted] after [add("__wz_cache_count", 7)] *)
Definition world_reserved_added : world :=
  after (add cache0 depth0 _fs_count_file (VInt 7) None) world_uncounted.

(** [world1] after [set("__wz_cache_count", 5)], a public write to the
    file of the counter *)
Definition world_public_count : world :=
  after (set cache0 depth0 _fs_count_file (VInt 5) None false) world1.

(** a thousand seconds later, after the count has been read *)
Definition world_count_expired : world :=
  after (_file_count cache0 depth0) (set_now 1700001000 world_public_count).

(** [world2] with a subdirectory [sub] in the cache directory, holding one
    file *)
Definition world_subdir : world :=
  set_files (Dir.store "/tmp/cache/sub/x" (mkfile "data" 420) (w_files world2)) world2.

(** [world1] after [set("k", "v", timeout=0.9999999999)]: the float sum of
    the clock and the timeout is the next full second *)
Definition world_nearly : world :=
  after (set cache0 depth0 "k" (VStr "v") (Some (9999999999 # 10000000000)) false)
    world1.
(* ===================================================================== *)
(** ** Strings and paths *)
(* ===================================================================== *)

Lemma append_nil_r (s : string) : s ++ "" = s.
Proof. induction s; simpl; congruence. Qed.

Lemma append_assoc (a b c : string) : (a ++ b) ++ c = a ++ (b ++ c).
Proof. induction a; simpl; congruence. Qed.

Lemma append_inj_l (p a b : string) : p ++ a = p ++ b -> a = b.
Proof. induction p; simpl; intros H; [assumption | injection H; auto]. Qed.

Lemma strip_prefix_app (p s : string) : Str.strip_prefix p (p ++ s) = Some s.
Proof. induction p; simpl; [reflexivity | rewrite Ascii.eqb_refl; assumption]. Qed.

Lemma strip_prefix_inv (p s r : string) :
  Str.strip_prefix p s = Some r -> s = p ++ r.
Proof.
  revert s; induction p as [|a p IH]; intros s H; simpl in *.
  - congruence.
  - destruct s as [|b s]; [discriminate|].
    destruct (Ascii.eqb a b) eqn:E; [|discriminate].
    apply Ascii.eqb_eq in E; subst. f_equal; auto.
Qed.

Lemma all_app (p : ascii -> bool) (a b : string) :
  Str.all p (a ++ b) = Str.all p a && Str.all p b.
Proof. induction a; simpl; [reflexivity | rewrite IHa, andb_assoc; reflexivity]. Qed.

Lemma ends_with_cons (suf : string) (c : ascii) (s : string) :
  Str.ends_with suf (String c s)
  = String.eqb (String c s) suf || Str.ends_with suf s.
Proof. reflexivity. Qed.

Lemma ends_with_nil (suf : string) :
  Str.ends_with suf "" = String.eqb "" suf.
Proof. unfold Str.ends_with. apply orb_false_r. Qed.

Lemma ends_with_all (p : ascii -> bool) (suf s : string) :
  Str.ends_with suf s = true -> Str.all p s = true -> Str.all p suf = true.
Proof.
  induction s as [|c s IH]; intros H Hs.
  - rewrite ends_with_nil in H. apply String.eqb_eq in H; subst; reflexivity.
  - rewrite ends_with_cons in H.
    apply orb_true_iff in H; destruct H as [H | H].
    + apply String.eqb_eq in H; subst; assumption.
    + simpl in Hs. apply andb_true_iff in Hs; destruct Hs; auto.
Qed.

Lemma has_char_all (p : ascii -> bool) (c : ascii) (s : string) :
  p c = false -> Str.all p s = true -> Str.has_char c s = false.
Proof.
  intros Hc; induction s as [|d s IH]; simpl; intros H; [reflexivity|].
  apply andb_true_iff in H; destruct H as [Hd Hs].
  rewrite (IH Hs), orb_false_r.
  destruct (Ascii.eqb c d) eqn:E; [|reflexivity].
  apply Ascii.eqb_eq in E; subst; congruence.
Qed.

Lemma ends_with_app (suf a : string) : Str.ends_with suf (a ++ suf) = true.
Proof.
  induction a as [|c a IH].
  - cbn [append]. destruct suf.
    + reflexivity.
    + rewrite ends_with_cons, String.eqb_refl. reflexivity.
  - cbn [append]. rewrite ends_with_cons, IH, orb_true_r; reflexivity.
Qed.

Lemma ends_with_slash_dir_prefix (path : string) :
  Str.ends_with "/" (dir_prefix path) = true.
Proof.
  unfold dir_prefix. destruct (Str.ends_with "/" path) eqn:E; [assumption|].
  apply ends_with_app.
Qed.

Lemma ends_with_has_char (c : ascii) (s : string) :
  Str.ends_with (String c "") s = true -> Str.has_char c s = true.
Proof.
  induction s as [|d s IH]; intros H.
  - rewrite ends_with_nil in H. discriminate.
  - rewrite ends_with_cons in H. simpl.
    apply orb_true_iff in H; destruct H as [H | H].
    + apply String.eqb_eq in H. injection H as -> ->.
      rewrite Ascii.eqb_refl. reflexivity.
    + rewrite (IH H), orb_true_r. reflexivity.
Qed.

Lemma has_char_app (c : ascii) (a b : string) :
  Str.has_char c (a ++ b) = Str.has_char c a || Str.has_char c b.
Proof. induction a; simpl; [reflexivity | rewrite IHa, orb_assoc; reflexivity]. Qed.

(** After a prefix that ends with the separator, the last component of a
    path is the slash-free name that follows. *)
Lemma last_component_app (pre h : string) :
  Str.ends_with "/" pre = true -> Str.has_char "/" h = false ->
  Str.last_component (pre ++ h) = h.
Proof.
  induction pre as [|c pre IH]; intros Hp Hh.
  - rewrite ends_with_nil in Hp. discriminate.
  - rewrite ends_with_cons in Hp. simpl.
    rewrite has_char_app, Hh, orb_false_r.
    apply orb_true_iff in Hp; destruct Hp as [Hp | Hp].
    + apply String.eqb_eq in Hp. injection Hp as -> ->. reflexivity.
    + rewrite (ends_with_has_char _ _ Hp). auto.
Qed.

Lemma is_hex_slash : is_hex "/" = false.
Proof. reflexivity. Qed.

Section Paths.

Context {codec : Codec}.
Variable self : FileSystemCacheMsgspec.
Hypothesis WF : well_formed self.

Lemma digest_no_slash key : Str.has_char "/" (_hash_method self key) = false.
Proof. apply (has_char_all is_hex); [reflexivity | apply WF]. Qed.

Lemma digest_not_absolute key : Str.starts_with "/" (_hash_method self key) = false.
Proof.
  pose proof (digest_no_slash key) as H.
  destruct (_hash_method self key) as [|c s]; [reflexivity|].
  unfold Str.starts_with; simpl in *.
  apply orb_false_iff in H; destruct H as [H _]. rewrite H. reflexivity.
Qed.

Lemma join_name (fn : string) :
  Str.has_char "/" fn = false ->
  os_path_join (_path self) fn = dir_prefix (_path self) ++ fn.
Proof.
  intros Hfn. unfold os_path_join, dir_prefix.
  assert (Str.starts_with "/" fn = false) as ->.
  { destruct fn as [|c s]; [reflexivity|]. unfold Str.starts_with; simpl in *.
    apply orb_false_iff in Hfn; destruct Hfn as [-> _]; reflexivity. }
  assert (String.eqb (_path self) "" = false) as ->.
  { apply String.eqb_neq. apply WF. }
  simpl. destruct (Str.ends_with "/" (_path self)); [reflexivity|].
  rewrite append_assoc. reflexivity.
Qed.

Lemma filename_eq key :
  _get_filename self key = dir_prefix (_path self) ++ _hash_method self key.
Proof. unfold _get_filename. apply join_name, digest_no_slash. Qed.

Lemma filename_inj k1 k2 :
  _get_filename self k1 = _get_filename self k2 ->
  _hash_method self k1 = _hash_method self k2.
Proof. rewrite !filename_eq. apply append_inj_l. Qed.

Lemma filename_basename key :
  Str.last_component (_get_filename self key) = _hash_method self key.
Proof.
  rewrite filename_eq. apply last_component_app.
  - apply ends_with_slash_dir_prefix.
  - apply digest_no_slash.
Qed.

(** No file of an entry carries the name of a temporary file. *)
Lemma filename_not_tmp k1 k2 :
  _get_filename self k1 <> _get_filename self k2 ++ ".__tmp".
Proof.
  rewrite !filename_eq, append_assoc. intros H. apply append_inj_l in H.
  pose proof (wf_hex self WF k1) as Hh. rewrite H, all_app in Hh.
  apply andb_true_iff in Hh. destruct Hh as [_ Hh]. discriminate.
Qed.

Lemma tmp_inj k1 k2 :
  _get_filename self k1 ++ ".__tmp" = _get_filename self k2 ++ ".__tmp" ->
  _get_filename self k1 = _get_filename self k2.
Proof.
  intros H.
  assert (G : forall a b : string, a ++ ".__tmp" = b ++ ".__tmp" -> a = b).
  { clear. induction a as [|c a IH]; intros b Hb.
    - destruct b as [|c1 [|c2 [|c3 [|c4 [|c5 [|c6 b]]]]]]; try reflexivity;
        simpl in Hb; try discriminate.
      exfalso. injection Hb as _ _ _ _ _ _ Hb. destruct b; discriminate.
    - destruct b as [|d b].
      + exfalso.
        destruct a as [|c1 [|c2 [|c3 [|c4 [|c5 a]]]]]; simpl in Hb; try discriminate.
        injection Hb as _ _ _ _ _ _ Hb. destruct a; discriminate.
      + simpl in Hb. injection Hb as -> Hb. f_equal. auto. }
  auto.
Qed.

End Paths.

(* ===================================================================== *)
(** ** Directories *)
(* ===================================================================== *)

Lemma lookup_store_eq p f d : Dir.lookup p (Dir.store p f d) = Some f.
Proof.
  induction d as [|[q g] d IH]; simpl.
  - rewrite String.eqb_refl. reflexivity.
  - destruct (String.eqb p q) eqn:E; simpl; rewrite E; auto.
Qed.

Lemma lookup_store_neq p q f d :
  p <> q -> Dir.lookup q (Dir.store p f d) = Dir.lookup q d.
Proof.
  intros Hpq. induction d as [|[r g] d IH]; simpl.
  - assert (String.eqb q p = false) as -> by (apply String.eqb_neq; congruence).
    reflexivity.
  - destruct (String.eqb p r) eqn:E; simpl.
    + apply String.eqb_eq in E; subst r.
      assert (String.eqb q p = false) as -> by (apply String.eqb_neq; congruence).
      reflexivity.
    + rewrite IH. reflexivity.
Qed.

Lemma lookup_erase_eq p d : Dir.lookup p (Dir.erase p d) = None.
Proof.
  induction d as [|[q g] d IH]; simpl; [reflexivity|].
  destruct (String.eqb p q) eqn:E; simpl; [|rewrite E]; auto.
Qed.

Lemma lookup_erase_neq p q d :
  p <> q -> Dir.lookup q (Dir.erase p d) = Dir.lookup q d.
Proof.
  intros Hpq. induction d as [|[r g] d IH]; simpl; [reflexivity|].
  destruct (String.eqb p r) eqn:E; simpl.
  - apply String.eqb_eq in E; subst r.
    assert (String.eqb q p = false) as -> by (apply String.eqb_neq; congruence).
    assumption.
  - rewrite IH. reflexivity.
Qed.

Lemma lookup_rename_src src dst d :
  src <> dst -> Dir.lookup src (Dir.rename src dst d) = None.
Proof.
  intros Hsd. induction d as [|[r g] d IH]; simpl; [reflexivity|].
  destruct (String.eqb src r) eqn:E; simpl.
  - assert (String.eqb src dst = false) as -> by (apply String.eqb_neq; congruence).
    assumption.
  - rewrite E. assumption.
Qed.

Lemma lookup_rename_dst src dst d :
  Dir.lookup dst d = None ->
  Dir.lookup dst (Dir.rename src dst d) = Dir.lookup src d.
Proof.
  induction d as [|[r g] d IH]; simpl; [reflexivity|].
  destruct (String.eqb dst r) eqn:Ed; [discriminate|]. intros H.
  destruct (String.eqb src r) eqn:E; simpl.
  - rewrite String.eqb_refl. reflexivity.
  - rewrite Ed. auto.
Qed.

Lemma lookup_rename_other src dst q d :
  q <> src -> q <> dst ->
  Dir.lookup q (Dir.rename src dst d) = Dir.lookup q d.
Proof.
  intros Hs Hd. induction d as [|[r g] d IH]; simpl; [reflexivity|].
  destruct (String.eqb src r) eqn:E; simpl.
  - apply String.eqb_eq in E; subst r.
    assert (String.eqb q dst = false) as -> by (apply String.eqb_neq; congruence).
    assert (String.eqb q src = false) as -> by (apply String.eqb_neq; congruence).
    assumption.
  - rewrite IH. reflexivity.
Qed.

Lemma mem_true p d : Dir.mem p d = true <-> exists f, Dir.lookup p d = Some f.
Proof.
  unfold Dir.mem. destruct (Dir.lookup p d) as [f|]; split; intros H;
    try discriminate; eauto. destruct H; discriminate.
Qed.

Lemma mem_false p d : Dir.mem p d = false <-> Dir.lookup p d = None.
Proof.
  unfold Dir.mem. destruct (Dir.lookup p d) as [f|]; split; intros H;
    try discriminate; eauto.
Qed.

Lemma erase_absent p d : Dir.lookup p d = None -> Dir.erase p d = d.
Proof.
  induction d as [|[q g] d IH]; simpl; [reflexivity|].
  destruct (String.eqb p q) eqn:E; [discriminate|]. intros H. f_equal. auto.
Qed.

(** The content of [fn] and of every path other than the temporary name
    after a write that went through. *)
Lemma lookup_installed_target fn tmp data mode d :
  Dir.lookup fn (installed fn tmp data mode d) = Some (mkfile data mode).
Proof. unfold installed. apply lookup_store_eq. Qed.

Lemma lookup_installed_other fn tmp data mode d q :
  q <> fn -> q <> tmp ->
  Dir.lookup q (installed fn tmp data mode d) = Dir.lookup q d.
Proof.
  intros Hf Ht. unfold installed.
  rewrite lookup_store_neq by congruence.
  set (d1 := Dir.store tmp _ d).
  assert (H1 : Dir.lookup q d1 = Dir.lookup q d).
  { unfold d1. apply lookup_store_neq. congruence. }
  set (d2 := if Dir.mem fn d1 then Dir.erase fn d1 else d1).
  assert (H2 : Dir.lookup q d2 = Dir.lookup q d).
  { unfold d2. destruct (Dir.mem fn d1); [rewrite lookup_erase_neq by congruence|];
      assumption. }
  destruct (String.eqb tmp fn); [assumption|].
  rewrite lookup_rename_other by assumption.
  rewrite lookup_erase_neq by congruence. assumption.
Qed.

Lemma lookup_installed_tmp fn tmp data mode d :
  tmp <> fn -> Dir.lookup tmp (installed fn tmp data mode d) = None.
Proof.
  intros Hne. unfold installed.
  rewrite lookup_store_neq by congruence.
  assert (String.eqb tmp fn = false) as -> by (apply String.eqb_neq; assumption).
  apply lookup_rename_src. assumption.
Qed.

(* ===================================================================== *)
(** ** Running the monad *)
(* ===================================================================== *)

Lemma bind_inv {A B : Type} (m : io A) (k : A -> io B) w r w' :
  bind m k w = (r, w') ->
  (exists a w1, m w = (Return a, w1) /\ k a w1 = (r, w'))
  \/ (exists e, m w = (Raise e, w') /\ r = Raise e).
Proof.
  unfold bind. destruct (m w) as [[a|e] w1]; intros H.
  - left; eauto.
  - right. injection H as <- <-. eauto.
Qed.

Lemma bind_run {A B : Type} (m : io A) (k : A -> io B) w a w1 :
  m w = (Return a, w1) -> bind m k w = k a w1.
Proof. unfold bind. intros ->. reflexivity. Qed.

Lemma bind_raise {A B : Type} (m : io A) (k : A -> io B) w e w1 :
  m w = (Raise e, w1) -> bind m k w = (Raise e, w1).
Proof. unfold bind. intros ->. reflexivity. Qed.

Lemma try_except_inv {A : Type} (m : io A) (h : exn -> io A) w r w' :
  try_except m h w = (r, w') ->
  (exists a, m w = (Return a, w') /\ r = Return a)
  \/ (exists e w1, m w = (Raise e, w1) /\ h e w1 = (r, w')).
Proof.
  unfold try_except. destruct (m w) as [[a|e] w1]; intros H.
  - left. injection H as <- <-. eauto.
  - right; eauto.
Qed.

Lemma try_except_else_inv {A B : Type} (m : io A) (h : exn -> io B)
    (k : A -> io B) w r w' :
  try_except_else m h k w = (r, w') ->
  (exists a w1, m w = (Return a, w1) /\ k a w1 = (r, w'))
  \/ (exists e w1, m w = (Raise e, w1) /\ h e w1 = (r, w')).
Proof.
  unfold try_except_else. destruct (m w) as [[a|e] w1]; intros H; [left|right]; eauto.
Qed.

(** In a world without faults a system call point is a no-op. *)
Lemma syscall_fault_free w : fault_free w -> syscall w = (Return tt, w).
Proof. unfold fault_free, syscall. intros ->. reflexivity. Qed.

(* ===================================================================== *)
(** ** What a computation may change *)
(* ===================================================================== *)

Section Evolves.

Variable T : change.
Hypothesis T_refl : reflexive T.
Hypothesis T_trans : transitive T.

Lemma evolves_refl w : evolves T w w.
Proof.
  split; auto.
  - exists []. split; [reflexivity | intros d []].
  - exists []. split; reflexivity.
Qed.

Lemma evolves_trans w1 w2 w3 :
  evolves T w1 w2 -> evolves T w2 w3 -> evolves T w1 w3.
Proof.
  intros [F1 N1 P1 D1 (n1 & E1 & Tr1) (m1 & G1 & H1)]
         [F2 N2 P2 D2 (n2 & E2 & Tr2) (m2 & G2 & H2)].
  split.
  - intros H. apply F2, F1, H.
  - congruence.
  - congruence.
  - intros q. eapply T_trans; [apply D1 | apply D2].
  - exists (n2 ++ n1)%list. split.
    + rewrite E2, E1, app_assoc. reflexivity.
    + intros d Hd q. apply in_app_or in Hd. destruct Hd as [Hd|Hd].
      * eapply T_trans; [apply D1 | apply Tr2; assumption].
      * apply Tr1; assumption.
  - exists (m2 ++ m1)%list. split.
    + rewrite G2, G1, app_assoc. reflexivity.
    + rewrite H2. destruct m2; [exact H1 | reflexivity].
Qed.

Lemma evolves_set_files d w :
  (forall q, T q (Dir.lookup q (w_files w)) (Dir.lookup q d)) ->
  evolves T w (set_files d w).
Proof.
  intros H. split; simpl; auto.
  - exists [d]. split; [reflexivity|].
    intros d' [<-|[]]. assumption.
  - exists [d]. split; reflexivity.
Qed.

Lemma evolves_set_faults fs w :
  (w_faults w = [] -> fs = []) -> evolves T w (set_faults fs w).
Proof.
  intros H. split; simpl; auto.
  - exists []. split; [reflexivity | intros d []].
  - exists []. split; reflexivity.
Qed.

Lemma evolves_add_log r w : evolves T w (add_log r w).
Proof.
  split; simpl; auto.
  - exists []. split; [reflexivity | intros d []].
  - exists []. split; reflexivity.
Qed.

Lemma preserves_ret {A} (a : A) : preserves T (ret a).
Proof. intros w r w' H. injection H as <- <-. apply evolves_refl. Qed.

Lemma preserves_raise {A} e : preserves T (@raise A e).
Proof. intros w r w' H. injection H as <- <-. apply evolves_refl. Qed.

Lemma preserves_lift {A} (o : outcome A) : preserves T (lift o).
Proof. intros w r w' H. injection H as <- <-. apply evolves_refl. Qed.

Lemma preserves_bind {A B} (m : io A) (k : A -> io B) :
  preserves T m -> (forall a, preserves T (k a)) -> preserves T (bind m k).
Proof.
  intros Hm Hk w r w' H. apply bind_inv in H.
  destruct H as [(a & w1 & H1 & H2) | (e & H1 & _)].
  - eapply evolves_trans; [eapply Hm | eapply Hk]; eassumption.
  - eapply Hm; eassumption.
Qed.

Lemma preserves_try_except {A} (m : io A) h :
  preserves T m -> (forall e, preserves T (h e)) -> preserves T (try_except m h).
Proof.
  intros Hm Hh w r w' H. apply try_except_inv in H.
  destruct H as [(a & H1 & _) | (e & w1 & H1 & H2)].
  - eapply Hm; eassumption.
  - eapply evolves_trans; [eapply Hm | eapply Hh]; eassumption.
Qed.

Lemma preserves_try_except_else {A B} (m : io A) h (k : A -> io B) :
  preserves T m -> (forall e, preserves T (h e)) ->
  (forall a, preserves T (k a)) -> preserves T (try_except_else m h k).
Proof.
  intros Hm Hh Hk w r w' H. apply try_except_else_inv in H.
  destruct H as [(a & w1 & H1 & H2) | (e & w1 & H1 & H2)].
  - eapply evolves_trans; [eapply Hm | eapply Hk]; eassumption.
  - eapply evolves_trans; [eapply Hm | eapply Hh]; eassumption.
Qed.

Lemma preserves_syscall : preserves T syscall.
Proof.
  intros w r w' H. unfold syscall in H.
  destruct (w_faults w) as [|[|] fs] eqn:E; injection H as <- <-.
  - apply evolves_refl.
  - apply evolves_set_faults. congruence.
  - apply evolves_set_faults. congruence.
Qed.

Lemma preserves_time : preserves T time.
Proof. intros w r w' H. injection H as <- <-. apply evolves_refl. Qed.

Lemma preserves_sys_platform : preserves T sys_platform.
Proof. intros w r w' H. injection H as <- <-. apply evolves_refl. Qed.

Lemma preserves_logger_error op key e : preserves T (logger_error op key e).
Proof. intros w r w' H. injection H as <- <-. apply evolves_add_log. Qed.

Lemma preserves_logger_debug msg n : preserves T (logger_debug msg n).
Proof. intros w r w' H. injection H as <- <-. apply evolves_add_log. Qed.

Lemma preserves_os_path_exists p : preserves T (os_path_exists p).
Proof. intros w r w' H. injection H as <- <-. apply evolves_refl. Qed.

Lemma preserves_os_listdir path : preserves T (os_listdir path).
Proof.
  unfold os_listdir. apply preserves_bind; [apply preserves_syscall|].
  intros _. destruct (String.eqb path ""); [apply preserves_raise|].
  intros w r w' H. injection H as <- <-. apply evolves_refl.
Qed.

Lemma preserves_read_file p : preserves T (read_file p).
Proof.
  unfold read_file. apply preserves_bind; [apply preserves_syscall|].
  intros _ w r w' H.
  destruct (Dir.lookup p (w_files w)); injection H as <- <-; apply evolves_refl.
Qed.

Lemma preserves_os_remove p : removable_at T p -> preserves T (os_remove p).
Proof.
  intros Hp. unfold os_remove. apply preserves_bind; [apply preserves_syscall|].
  intros _ w r w' H.
  destruct (Dir.mem p (w_files w)); injection H as <- <-.
  - apply evolves_set_files. intros q.
    destruct (String.eqb_spec p q) as [<-|Hne].
    + rewrite lookup_erase_eq. apply Hp.
    + rewrite lookup_erase_neq by assumption. apply T_refl.
  - apply evolves_refl.
Qed.

Lemma preserves_write_file p data : free_at T p -> preserves T (write_file p data).
Proof.
  intros Hp. unfold write_file.
  apply preserves_bind; [apply preserves_syscall|]. intros _.
  apply preserves_bind.
  - intros w r w' H. injection H as <- <-.
    apply evolves_set_files. intros q.
    destruct (String.eqb_spec p q) as [<-|Hne].
    + apply Hp.
    + rewrite lookup_store_neq by assumption. apply T_refl.
  - intros mode. apply preserves_bind; [apply preserves_syscall|]. intros _.
    intros w r w' H. injection H as <- <-.
    apply evolves_set_files. intros q.
    destruct (String.eqb_spec p q) as [<-|Hne].
    + apply Hp.
    + rewrite lookup_store_neq by assumption. apply T_refl.
Qed.

Lemma preserves_os_replace src dst :
  free_at T src -> free_at T dst -> preserves T (os_replace src dst).
Proof.
  intros Hs Hd. unfold os_replace.
  apply preserves_bind; [apply preserves_syscall|]. intros _.
  intros w r w' H.
  destruct (Dir.mem src (w_files w)); injection H as <- <-.
  - apply evolves_set_files. intros q.
    destruct (String.eqb_spec src dst) as [->|Hne]; [apply T_refl|].
    destruct (String.eqb_spec q src) as [->|Hqs]; [apply Hs|].
    destruct (String.eqb_spec q dst) as [->|Hqd]; [apply Hd|].
    rewrite lookup_rename_other by assumption.
    rewrite lookup_erase_neq by congruence. apply T_refl.
  - apply evolves_refl.
Qed.

Lemma preserves_os_chmod p mode : free_at T p -> preserves T (os_chmod p mode).
Proof.
  intros Hp. unfold os_chmod.
  apply preserves_bind; [apply preserves_syscall|]. intros _.
  intros w r w' H.
  destruct (Dir.lookup p (w_files w)) eqn:E; injection H as <- <-.
  - apply evolves_set_files. intros q.
    destruct (String.eqb_spec p q) as [<-|Hne].
    + apply Hp.
    + rewrite lookup_store_neq by assumption. apply T_refl.
  - apply evolves_refl.
Qed.

End Evolves.

Lemma any_change_refl : reflexive any_change.
Proof. intros q a. exact I. Qed.

Lemma any_change_trans : transitive any_change.
Proof. intros q a b c _ _. exact I. Qed.

Lemma frame_refl S : reflexive (frame S).
Proof. intros q a. right. reflexivity. Qed.

Lemma frame_trans S : transitive (frame S).
Proof.
  intros q a b c [H|H] [G|G]; try (left; assumption). right. congruence.
Qed.

Lemma shrink_refl S : reflexive (shrink S).
Proof. intros q a. right. left. reflexivity. Qed.

Lemma shrink_trans S : transitive (shrink S).
Proof.
  intros q a b c [H|[H|H]] [G|[G|G]]; try (left; assumption); subst;
    right; auto.
Qed.

Lemma evolves_weaken (T U : change) w w' :
  (forall q a b, T q a b -> U q a b) -> evolves T w w' -> evolves U w w'.
Proof.
  intros H [F N P D (n & E & Tr) Hd]. split; auto.
  exists n. split; auto.
Qed.

(** A directory that differs from the one before is in the trace. *)
Lemma evolves_changed (T : change) w w' :
  evolves T w w' -> w_files w' <> w_files w ->
  exists new, w_trace w' = (new ++ w_trace w)%list /\ In (w_files w') new
              /\ forall d, In d new ->
                   forall q, T q (Dir.lookup q (w_files w)) (Dir.lookup q d).
Proof.
  intros [F N P D (n & E & Tr) (m & G & Hd)] Hne.
  assert (m = n).
  { rewrite G in E. apply app_inv_tail in E. exact E. }
  subst m. exists n. split; [exact E|]. split; [|exact Tr].
  destruct n as [|d n]; [contradiction|]. left. symmetry. exact Hd.
Qed.

(* ===================================================================== *)
(** ** The methods, one call deep *)
(* ===================================================================== *)

Section Unfold.

Context {codec : Codec}.
Variable self : FileSystemCacheMsgspec.

Lemma get_S depth key :
  get self (S depth) key =
  try_except
    (data <- read_file (_get_filename self key) ;;
     obj <- lift (_deserialize self data) ;;
     ev <- lift (unpack2 obj) ;;
     let '(expires, value) := ev in
     stale <- expired expires ;;
     if stale then (delete self depth key false ;; ret VNone)
     else ret value)
    (fun exc =>
       if is_FileNotFoundError exc then ret VNone
       else (logger_error "get" key exc ;; ret VNone)).
Proof. reflexivity. Qed.

Lemma delete_S depth key mgmt_element :
  delete self (S depth) key mgmt_element =
  try_except
    (os_remove (_get_filename self key) ;;
     (if negb mgmt_element
      then _update_count self depth (Some (-1)) None
      else ret tt) ;;
     ret true)
    (fun exc =>
       if is_FileNotFoundError exc then ret false
       else (logger_error "delete" key exc ;; ret false)).
Proof. reflexivity. Qed.

Lemma update_count_S depth delta value :
  _update_count self (S depth) delta value =
  if _threshold self =? 0 then ret tt
  else
    new_count <-
      (match delta with
       | Some d =>
           if negb (d =? 0)
           then (c <- get self depth _fs_count_file ;;
                 lift (py_add_int (py_or_zero c) d))
           else ret (VInt (match value with Some v => v | None => 0 end))
       | None => ret (VInt (match value with Some v => v | None => 0 end))
       end) ;;
    set self depth _fs_count_file new_count None true ;;
    ret tt.
Proof. reflexivity. Qed.

Lemma set_S depth key value timeout mgmt_element :
  set self (S depth) key value timeout mgmt_element =
  (timeout <- (if mgmt_element then ret (Some 0%Q)
               else (_prune self depth ;; ret timeout)) ;;
   timeout <- _normalize_timeout self timeout ;;
   data <- lift (_serialize self (VList [VInt timeout; value])) ;;
   try_except_else
     (write_phase self (_get_filename self key)
        (_get_filename self key ++ ".__tmp") data)
     (fun exc => logger_error "set" key exc ;; ret false)
     (fun is_new_file =>
        (if negb mgmt_element && is_new_file
         then _update_count self depth (Some 1) None
         else ret tt) ;;
        ret true)).
Proof. reflexivity. Qed.

Lemma prune_S depth :
  _prune self (S depth) =
  (skip <- (if _threshold self =? 0 then ret true
            else (c <- get self depth _fs_count_file ;;
                  over <- lift (py_gt_int (py_or_zero c) (_threshold self)) ;;
                  ret (negb over))) ;;
   if skip : bool then ret tt
   else
     entries <- _list_dir self ;;
     now <- time ;;
     nremoved <- sweep self now 0 entries 0 ;;
     remaining <- _list_dir self ;;
     _update_count self depth None (Some (Z.of_nat (List.length remaining))) ;;
     logger_debug "evicted %d key(s)" nremoved).
Proof. reflexivity. Qed.

Lemma normalize_timeout_run timeout w :
  _normalize_timeout self timeout w = (Return (expiry self timeout (w_now w)), w).
Proof.
  unfold _normalize_timeout, expiry.
  destruct (negb (Qeq_bool (BaseCache_normalize_timeout self timeout) 0));
    reflexivity.
Qed.

Lemma expired_run e w :
  expired (VInt e) w = (Return (stale e (w_now w)), w).
Proof.
  unfold expired, stale, py_ne_zero. simpl.
  destruct (e =? 0); reflexivity.
Qed.

End Unfold.

Ltac pres :=
  repeat first
    [ assumption
    | match goal with
      | H : context [preserves] |- preserves _ _ => solve [apply H; auto]
      end
    | apply preserves_ret | apply preserves_raise | apply preserves_lift
    | apply preserves_syscall | apply preserves_time
    | apply preserves_sys_platform
    | apply preserves_logger_error | apply preserves_logger_debug
    | apply preserves_os_path_exists | apply preserves_os_listdir
    | apply preserves_read_file | apply preserves_os_remove
    | apply preserves_write_file | apply preserves_os_replace
    | apply preserves_os_chmod
    | match goal with
      | |- preserves _ (bind _ _) => apply preserves_bind
      | |- preserves _ (try_except _ _) => apply preserves_try_except
      | |- preserves _ (try_except_else _ _ _) => apply preserves_try_except_else
      | |- preserves _ (if ?b then _ else _) => destruct b
      | |- preserves _ (match ?x with _ => _ end) => destruct x
      | |- forall _, _ => intro
      end ].

Section Preserve.

Context {codec : Codec}.
Variable self : FileSystemCacheMsgspec.
Variable T : change.
Hypothesis T_refl : reflexive T.
Hypothesis T_trans : transitive T.

Lemma free_removable p : free_at T p -> removable_at T p.
Proof. intros H a. apply H. Qed.

Lemma preserves_normalize_timeout timeout : preserves T (_normalize_timeout self timeout).
Proof.
  intros w r w' H. rewrite normalize_timeout_run in H. injection H as <- <-.
  apply evolves_refl; assumption.
Qed.

Lemma preserves_expired v : preserves T (expired v).
Proof. unfold expired. pres. Qed.

Lemma preserves_list_dir : preserves T (_list_dir self).
Proof. unfold _list_dir. pres. Qed.

Lemma preserves_write_phase fn tmp data :
  free_at T fn -> free_at T tmp -> preserves T (write_phase self fn tmp data).
Proof.
  intros Hf Ht. pose proof (free_removable _ Hf). unfold write_phase. pres.
Qed.

Lemma preserves_sweep now entries :
  (forall p, In p entries -> removable_at T p) ->
  forall idx n, preserves T (sweep self now idx entries n).
Proof.
  induction entries as [|fname rest IH]; intros Hrem idx n; simpl.
  - pres.
  - assert (removable_at T fname) by (apply Hrem; left; reflexivity).
    apply preserves_bind; try assumption.
    + pres.
    + intros n'. apply IH. intros p Hp. apply Hrem. right. assumption.
Qed.

Lemma preserves_set_mgmt depth key value timeout :
  free_at T (_get_filename self key) ->
  free_at T (_get_filename self key ++ ".__tmp") ->
  preserves T (set self depth key value timeout true).
Proof.
  intros Hf Ht. destruct depth as [|depth]; [simpl; pres|].
  rewrite set_S.
  pose proof (fun data => preserves_write_phase _ _ data Hf Ht).
  pose proof preserves_normalize_timeout.
  simpl. pres.
Qed.

(** The operations on the counter touch the two paths of the counter
    only. *)
Hypothesis free_count : free_at T (_get_filename self _fs_count_file).
Hypothesis free_count_tmp :
  free_at T (_get_filename self _fs_count_file ++ ".__tmp").

Lemma preserves_count_ops depth :
  preserves T (get self depth _fs_count_file)
  /\ (forall m, preserves T (delete self depth _fs_count_file m))
  /\ (forall delta value, preserves T (_update_count self depth delta value)).
Proof.
  pose proof (free_removable _ free_count) as Hrem.
  pose proof preserves_expired as Hexp.
  induction depth as [|depth (IHget & IHdel & IHupd)].
  - split; [|split]; intros; simpl; pres.
  - split; [|split]; intros.
    + rewrite get_S. pres.
    + rewrite delete_S. pres.
    + rewrite update_count_S.
      pose proof (fun v t => preserves_set_mgmt depth _fs_count_file v t
                               free_count free_count_tmp).
      pres.
Qed.

Lemma preserves_update_count depth delta value :
  preserves T (_update_count self depth delta value).
Proof. apply preserves_count_ops. Qed.

Lemma preserves_delete depth key m :
  removable_at T (_get_filename self key) ->
  preserves T (delete self depth key m).
Proof.
  intros Hrem. destruct depth as [|depth]; [simpl; pres|].
  rewrite delete_S. pose proof preserves_update_count. pres.
Qed.

Lemma preserves_get depth key :
  removable_at T (_get_filename self key) ->
  preserves T (get self depth key).
Proof.
  intros Hrem. destruct depth as [|depth]; [simpl; pres|].
  rewrite get_S.
  pose proof preserves_expired. pose proof preserves_delete. pres.
Qed.

Lemma preserves_prune depth :
  (forall p, removable_at T p) -> preserves T (_prune self depth).
Proof.
  intros Hrem. destruct depth as [|depth]; [simpl; pres|].
  rewrite prune_S.
  pose proof preserves_get. pose proof preserves_list_dir.
  pose proof preserves_update_count.
  assert (forall now entries idx n, preserves T (sweep self now idx entries n)).
  { intros. apply preserves_sweep. auto. }
  pres.
Qed.

Lemma preserves_set depth key value timeout m :
  (forall p, removable_at T p) ->
  free_at T (_get_filename self key) ->
  free_at T (_get_filename self key ++ ".__tmp") ->
  preserves T (set self depth key value timeout m).
Proof.
  intros Hrem Hf Ht. destruct depth as [|depth]; [simpl; pres|].
  rewrite set_S.
  pose proof (fun data => preserves_write_phase _ _ data Hf Ht).
  pose proof preserves_normalize_timeout.
  pose proof (preserves_prune depth Hrem).
  pose proof preserves_update_count.
  pres.
Qed.

End Preserve.

(* ===================================================================== *)
(** ** Runs on a file system that does not fail *)
(* ===================================================================== *)


Lemma read_file_hit p f w :
  fault_free w -> Dir.lookup p (w_files w) = Some f ->
  read_file p w = (Return (f_data f), w).
Proof.
  intros Hff Hl. unfold read_file.
  rewrite (bind_run _ _ _ _ _ (syscall_fault_free w Hff)), Hl. reflexivity.
Qed.

Lemma read_file_miss p w :
  fault_free w -> Dir.lookup p (w_files w) = None ->
  read_file p w = (Raise FileNotFoundError, w).
Proof.
  intros Hff Hl. unfold read_file.
  rewrite (bind_run _ _ _ _ _ (syscall_fault_free w Hff)), Hl. reflexivity.
Qed.

Lemma os_remove_hit p w :
  fault_free w -> Dir.mem p (w_files w) = true ->
  os_remove p w = (Return tt, set_files (Dir.erase p (w_files w)) w).
Proof.
  intros Hff Hl. unfold os_remove.
  rewrite (bind_run _ _ _ _ _ (syscall_fault_free w Hff)), Hl. reflexivity.
Qed.

Lemma os_remove_miss p w :
  fault_free w -> Dir.mem p (w_files w) = false ->
  os_remove p w = (Raise FileNotFoundError, w).
Proof.
  intros Hff Hl. unfold os_remove.
  rewrite (bind_run _ _ _ _ _ (syscall_fault_free w Hff)), Hl. reflexivity.
Qed.

Lemma store_store p f g d : Dir.store p f (Dir.store p g d) = Dir.store p f d.
Proof.
  induction d as [|[q h] d IH]; simpl.
  - rewrite String.eqb_refl. reflexivity.
  - destruct (String.eqb p q) eqn:E; simpl; rewrite E; [reflexivity|].
    rewrite IH. reflexivity.
Qed.

Lemma mem_store_neq p q f d : p <> q -> Dir.mem q (Dir.store p f d) = Dir.mem q d.
Proof. intros H. unfold Dir.mem. rewrite lookup_store_neq by assumption. reflexivity. Qed.

Lemma tmp_neq (s : string) : s ++ ".__tmp" <> s.
Proof.
  intros H. assert (L : String.length (s ++ ".__tmp") = String.length s) by congruence.
  clear H. induction s as [|c s IH]; simpl in L; [discriminate|].
  injection L as L. auto.
Qed.

Lemma trace_cons {A : Type} (x : A) (r l1 l2 : list A) :
  r = (l1 ++ l2)%list -> x :: r = ((x :: l1) ++ l2)%list.
Proof. intros ->. reflexivity. Qed.

Ltac trace_split :=
  repeat apply trace_cons; symmetry; apply app_nil_l.

Section Runs.

Context {codec : Codec}.
Variable self : FileSystemCacheMsgspec.

Lemma list_dir_run w :
  fault_free w -> _path self <> "" ->
  _list_dir self w = (Return (listing self (w_files w)), w).
Proof.
  intros Hff Hp. unfold _list_dir, os_listdir, bind.
  rewrite (syscall_fault_free w Hff).
  apply String.eqb_neq in Hp. rewrite Hp. reflexivity.
Qed.

(** The write phase on a file system that does not fail: the record is
    under the target, and no state on the way shows anything under the
    target but the old file, nothing, or the new record. *)
Lemma write_phase_run fn tmp data w :
  fault_free w -> tmp <> fn ->
  exists w',
    write_phase self fn tmp data w
      = (Return (negb (Dir.mem fn (w_files w))), w')
    /\ w_files w' = installed fn tmp data (final_mode self w) (w_files w)
    /\ fault_free w' /\ w_now w' = w_now w /\ w_platform w' = w_platform w
    /\ w_log w' = w_log w
    /\ exists new, w_trace w' = (new ++ w_trace w)%list
       /\ (Dir.mem fn (w_files w) = true -> In (Dir.erase fn
             (Dir.store tmp (mkfile data
                match Dir.lookup tmp (w_files w) with
                | Some f => f_mode f | None => creat_mode end) (w_files w))) new)
       /\ forall d, In d new ->
            old_none_or_new (Dir.lookup fn (w_files w)) data (Dir.lookup fn d)
            /\ forall q, q <> fn -> q <> tmp ->
               Dir.lookup q d = Dir.lookup q (w_files w).
Proof.
  intros Hff Hne. destruct w as [d now plat faults log tr].
  unfold fault_free in Hff; simpl in Hff; subst faults.
  unfold write_phase, write_file, os_path_exists, os_remove, os_replace,
    sys_platform, os_chmod, bind, syscall, ret, final_mode, installed; simpl.
  set (m := match Dir.lookup tmp d with Some f => f_mode f | None => creat_mode end).
  rewrite store_store.
  set (d1 := Dir.store tmp (mkfile data m) d).
  assert (L1 : forall q, q <> tmp -> Dir.lookup q d1 = Dir.lookup q d).
  { intros q Hq. unfold d1. apply lookup_store_neq. congruence. }
  assert (L1t : Dir.lookup tmp d1 = Some (mkfile data m)).
  { unfold d1. apply lookup_store_eq. }
  assert (M1 : Dir.mem fn d1 = Dir.mem fn d).
  { unfold Dir.mem. rewrite L1 by congruence. reflexivity. }
  assert (L0 : forall q, q <> tmp ->
               Dir.lookup q (Dir.store tmp (mkfile "" m) d) = Dir.lookup q d).
  { intros q Hq. apply lookup_store_neq. congruence. }
  assert (Hneb : String.eqb tmp fn = false) by (apply String.eqb_neq; assumption).
  rewrite M1, Hneb.
  destruct (Dir.mem fn d) eqn:Hm; simpl.
  - (* the target exists: it is removed first *)
    rewrite M1. simpl.
    assert (Mt : Dir.mem tmp (Dir.erase fn d1) = true).
    { unfold Dir.mem. rewrite lookup_erase_neq by congruence. rewrite L1t. reflexivity. }
    rewrite Mt. simpl.
    assert (Lr : Dir.lookup fn (Dir.rename tmp fn (Dir.erase fn (Dir.erase fn d1)))
                 = Some (mkfile data m)).
    { rewrite lookup_rename_dst by apply lookup_erase_eq.
      rewrite !lookup_erase_neq by congruence. assumption. }
    assert (Hold : exists f, Dir.lookup fn d = Some f) by (apply mem_true; assumption).
    destruct plat; simpl; rewrite Lr; simpl;
      (eexists; split; [reflexivity|]; simpl;
       split; [reflexivity|]; split; [reflexivity|]; split; [reflexivity|];
       split; [reflexivity|]; split; [reflexivity|];
       eexists; split; [trace_split|];
       split; [intros _; simpl; tauto|];
       intros d0 Hd0; simpl in Hd0;
       destruct Hd0 as [<-|[<-|[<-|[<-|[<-|[]]]]]]; split;
       try (intros q Hq1 Hq2;
            rewrite ?lookup_store_neq, ?lookup_rename_other, ?lookup_erase_neq
              by congruence; auto);
       unfold old_none_or_new;
       rewrite ?lookup_store_eq, ?lookup_erase_eq, ?L1, ?L0 by congruence;
       eauto).
  - (* a new file *)
    assert (Mt : Dir.mem tmp d1 = true).
    { unfold Dir.mem. rewrite L1t. reflexivity. }
    rewrite Mt. simpl.
    assert (Lr : Dir.lookup fn (Dir.rename tmp fn (Dir.erase fn d1))
                 = Some (mkfile data m)).
    { rewrite lookup_rename_dst by apply lookup_erase_eq.
      rewrite !lookup_erase_neq by congruence. assumption. }
    destruct plat; simpl; rewrite Lr; simpl;
      (eexists; split; [reflexivity|]; simpl;
       split; [reflexivity|]; split; [reflexivity|]; split; [reflexivity|];
       split; [reflexivity|]; split; [reflexivity|];
       eexists; split; [trace_split|];
       split; [intros ?; discriminate|];
       intros d0 Hd0; simpl in Hd0;
       destruct Hd0 as [<-|[<-|[<-|[<-|[]]]]]; split;
       try (intros q Hq1 Hq2;
            rewrite ?lookup_store_neq, ?lookup_rename_other, ?lookup_erase_neq
              by congruence; auto);
       unfold old_none_or_new;
       rewrite ?lookup_store_eq, ?lookup_erase_eq, ?L1, ?L0 by congruence;
       eauto).
Qed.

Lemma get_live depth key f e v w :
  fault_free w ->
  Dir.lookup (_get_filename self key) (w_files w) = Some f ->
  _deserialize self (f_data f) = Return (VList [VInt e; v]) ->
  stale e (w_now w) = false ->
  get self (S depth) key w = (Return v, w).
Proof.
  intros Hff Hl Hd Hs. rewrite get_S. unfold try_except, bind.
  rewrite (read_file_hit _ _ _ Hff Hl). unfold lift. rewrite Hd. simpl.
  rewrite expired_run, Hs. reflexivity.
Qed.

Lemma get_absent depth key w :
  fault_free w ->
  Dir.lookup (_get_filename self key) (w_files w) = None ->
  get self (S depth) key w = (Return VNone, w).
Proof.
  intros Hff Hl. rewrite get_S. unfold try_except, bind.
  rewrite (read_file_miss _ _ Hff Hl). reflexivity.
Qed.

(** [delete] and [get] catch everything once they are entered. *)
Lemma delete_returns depth key m w :
  exists b, fst (delete self (S depth) key m w) = Return b.
Proof.
  rewrite delete_S. unfold try_except.
  match goal with
  | |- context [let (_, _) := ?x in _] => destruct x as [[b|e] w1]
  end; simpl; eauto.
  destruct (is_FileNotFoundError e); simpl; eauto.
Qed.

Lemma get_returns depth key w :
  exists v, fst (get self (S depth) key w) = Return v.
Proof.
  rewrite get_S. unfold try_except.
  match goal with
  | |- context [let (_, _) := ?x in _] => destruct x as [[b|e] w1]
  end; simpl; eauto.
  destruct (is_FileNotFoundError e); simpl; eauto.
Qed.

Lemma get_stale depth key f e v w :
  fault_free w ->
  Dir.lookup (_get_filename self key) (w_files w) = Some f ->
  _deserialize self (f_data f) = Return (VList [VInt e; v]) ->
  stale e (w_now w) = true ->
  get self (S (S depth)) key w
  = (Return VNone, snd (delete self (S depth) key false w)).
Proof.
  intros Hff Hl Hd Hs. rewrite get_S.
  destruct (delete_returns depth key false w) as [b Hb].
  remember (delete self (S depth) key false) as del eqn:Edel.
  unfold try_except, bind.
  rewrite (read_file_hit _ _ _ Hff Hl). unfold lift. rewrite Hd. simpl.
  rewrite expired_run, Hs.
  destruct (del w) as [r w1]. simpl in Hb. subst r.
  reflexivity.
Qed.

(** [delete] of an existing file: the file is removed, the trace shows
    the directory without it, and what follows is the counter update. *)
Lemma delete_hit depth key w :
  fault_free w ->
  Dir.mem (_get_filename self key) (w_files w) = true ->
  exists b w',
    delete self (S depth) key false w = (Return b, w')
    /\ evolves (frame (counter_path self))
         (set_files (Dir.erase (_get_filename self key) (w_files w)) w) w'.
Proof.
  intros Hff Hm. rewrite delete_S. unfold try_except, bind.
  rewrite (os_remove_hit _ _ Hff Hm). simpl.
  set (w1 := set_files _ w).
  assert (Hu : preserves (frame (counter_path self))
                 (_update_count self depth (Some (-1)) None)).
  { apply preserves_update_count.
    - apply frame_refl.
    - apply frame_trans.
    - intros a b. left. left. reflexivity.
    - intros a b. left. right. reflexivity. }
  destruct (_update_count self depth (Some (-1)) None w1) as [[[]|e] w2] eqn:E.
  - simpl. eexists _, _. split; [reflexivity|]. apply (Hu _ _ _ E).
  - destruct (is_FileNotFoundError e); simpl.
    + eexists _, _. split; [reflexivity|]. apply (Hu _ _ _ E).
    + eexists _, _. split; [reflexivity|].
      eapply (evolves_trans _ (frame_trans _)); [apply (Hu _ _ _ E)|].
      apply evolves_add_log, frame_refl.
Qed.

Lemma expiry_mgmt now : expiry self (Some 0%Q) now = 0.
Proof. reflexivity. Qed.

(** A management write on a file system that does not fail. *)
Lemma set_mgmt_run depth key value timeout data w :
  fault_free w ->
  _serialize self (VList [VInt 0; value]) = Return data ->
  exists w',
    set self (S depth) key value timeout true w = (Return true, w')
    /\ w_files w'
       = installed (_get_filename self key) (_get_filename self key ++ ".__tmp")
           data (final_mode self w) (w_files w)
    /\ fault_free w' /\ w_now w' = w_now w /\ w_platform w' = w_platform w.
Proof.
  intros Hff Hs. rewrite set_S. unfold bind at 1. unfold ret at 1.
  unfold bind at 1. rewrite normalize_timeout_run, expiry_mgmt.
  unfold bind at 1. unfold lift at 1. rewrite Hs.
  unfold try_except_else.
  destruct (write_phase_run (_get_filename self key)
              (_get_filename self key ++ ".__tmp") data w Hff (tmp_neq _))
    as (w' & Hrun & Hfiles & Hff' & Hnow & Hplat & _).
  rewrite Hrun. simpl. unfold bind, ret. simpl.
  exists w'. auto.
Qed.

Lemma update_count_value_run depth n data w :
  fault_free w -> _threshold self <> 0 ->
  _serialize self (VList [VInt 0; VInt n]) = Return data ->
  exists w',
    _update_count self (S (S depth)) None (Some n) w = (Return tt, w')
    /\ w_files w'
       = installed (_get_filename self _fs_count_file)
           (_get_filename self _fs_count_file ++ ".__tmp")
           data (final_mode self w) (w_files w)
    /\ fault_free w' /\ w_now w' = w_now w /\ w_platform w' = w_platform w.
Proof.
  intros Hff Ht Hs. rewrite update_count_S.
  apply Z.eqb_neq in Ht. rewrite Ht.
  destruct (set_mgmt_run depth _fs_count_file (VInt n) None data w Hff Hs)
    as (w' & Hrun & Hrest).
  unfold bind at 1. unfold ret at 1. unfold bind. rewrite Hrun.
  exists w'. auto.
Qed.

End Runs.

(* ===================================================================== *)
(** ** The directory listing *)
(* ===================================================================== *)

Lemma first_component_no_slash s :
  Str.has_char "/" (Str.first_component s) = false.
Proof.
  induction s as [|c s IH]; [reflexivity|]. cbn [Str.first_component].
  destruct (Ascii.eqb c "/") eqn:E; [reflexivity|].
  cbn [Str.has_char]. rewrite IH, orb_false_r.
  rewrite Ascii.eqb_sym. exact E.
Qed.

Lemma first_component_flat s :
  Str.has_char "/" s = false -> Str.first_component s = s.
Proof.
  induction s as [|c s IH]; [reflexivity|]. cbn [Str.has_char Str.first_component].
  intros H. apply orb_false_iff in H. destruct H as [Hc Hs].
  rewrite Ascii.eqb_sym, Hc, (IH Hs). reflexivity.
Qed.

Lemma first_component_app fn r :
  Str.has_char "/" fn = false -> Str.first_component (fn ++ "/" ++ r) = fn.
Proof.
  induction fn as [|c fn IH]; [reflexivity|].
  change (String c fn ++ "/" ++ r) with (String c (fn ++ "/" ++ r)).
  cbn [Str.has_char Str.first_component].
  intros H. apply orb_false_iff in H. destruct H as [Hc Hs].
  rewrite Ascii.eqb_sym, Hc, (IH Hs). reflexivity.
Qed.

Lemma first_component_split s :
  Str.has_char "/" s = true -> exists r, s = Str.first_component s ++ "/" ++ r.
Proof.
  induction s as [|c s IH]; [discriminate|]. cbn [Str.has_char Str.first_component].
  intros H. destruct (Ascii.eqb_spec c "/") as [->|Hc].
  - exists s. reflexivity.
  - rewrite Ascii.eqb_sym in H.
    destruct (Ascii.eqb_spec c "/") as [|_]; [contradiction|].
    destruct (IH H) as (r & Hr). exists r.
    change (String c s = String c (Str.first_component s ++ "/" ++ r)).
    rewrite <- Hr. reflexivity.
Qed.

(** A path is a file of the directory when it is the prefix and a name, and
    it makes a subdirectory when it goes on after the name. *)
Lemma entry_of_file pre q fn :
  Dir.entry_of pre q = Some (fn, false)
  <-> q = pre ++ fn /\ fn <> "" /\ Str.has_char "/" fn = false.
Proof.
  unfold Dir.entry_of. split.
  - destruct (Str.strip_prefix pre q) as [rest|] eqn:Hsp; [|discriminate].
    apply strip_prefix_inv in Hsp.
    destruct (String.eqb_spec (Str.first_component rest) "") as [|Hne]; [discriminate|].
    intros H. injection H as H1 H2.
    rewrite (first_component_flat _ H2) in H1, Hne. subst. auto.
  - intros (-> & Hne & Hs). rewrite strip_prefix_app, (first_component_flat _ Hs), Hs.
    apply String.eqb_neq in Hne. rewrite Hne. reflexivity.
Qed.

Lemma entry_of_dir pre q fn :
  Dir.entry_of pre q = Some (fn, true)
  <-> fn <> "" /\ Str.has_char "/" fn = false /\ exists r, q = pre ++ fn ++ "/" ++ r.
Proof.
  unfold Dir.entry_of. split.
  - destruct (Str.strip_prefix pre q) as [rest|] eqn:Hsp; [|discriminate].
    apply strip_prefix_inv in Hsp.
    destruct (String.eqb_spec (Str.first_component rest) "") as [|Hne]; [discriminate|].
    intros H. injection H as H1 H2.
    destruct (first_component_split _ H2) as (r & Hr).
    split; [congruence|]. split.
    + rewrite <- H1. apply first_component_no_slash.
    + exists r. rewrite <- H1, <- Hr. exact Hsp.
  - intros (Hne & Hs & r & ->).
    rewrite strip_prefix_app, (first_component_app _ _ Hs), has_char_app.
    apply String.eqb_neq in Hne. rewrite Hne. cbn [append Str.has_char].
    rewrite Ascii.eqb_refl, orb_true_r. reflexivity.
Qed.

Lemma mem_paths p d : Dir.mem p d = true <-> In p (paths d).
Proof.
  unfold Dir.mem, paths. induction d as [|[q g] d IH]; simpl.
  - split; [discriminate | intros []].
  - destruct (String.eqb_spec p q) as [->|Hne].
    + split; auto.
    + rewrite IH. split; [auto | intros [H|H]; [congruence | assumption]].
Qed.

Lemma not_mem_paths p d : Dir.mem p d = false <-> ~ In p (paths d).
Proof.
  rewrite <- mem_paths. destruct (Dir.mem p d); split; congruence.
Qed.

Lemma existsb_eqb_false (x : string) (l : list string) :
  existsb (String.eqb x) l = false <-> ~ In x l.
Proof.
  induction l as [|a l IH]; simpl; [tauto|].
  rewrite orb_false_iff, IH. destruct (String.eqb_spec x a) as [->|Hne].
  - split; [intros [H _]; discriminate | intros H; exfalso; apply H; auto].
  - split; [intros [_ H] [E|E]; [congruence | contradiction]
           | intros H; split; [reflexivity | intros E; apply H; auto]].
Qed.

(** The names of a scan: the files, and the subdirectories not seen
    before. *)
Lemma scan_in pre fn ps : forall seen,
  In fn (Dir.scan pre seen ps)
  <-> (exists q, In q ps /\ Dir.entry_of pre q = Some (fn, false))
      \/ (~ In fn seen /\ exists q, In q ps /\ Dir.entry_of pre q = Some (fn, true)).
Proof.
  induction ps as [|q r IH]; intros seen; cbn [Dir.scan].
  - split; [intros [] | intros [(q & [] & _) | (_ & q & [] & _)]].
  - destruct (Dir.entry_of pre q) as [[g [|]]|] eqn:E.
    + destruct (existsb (String.eqb g) seen) eqn:Hs.
      * rewrite IH. split.
        -- intros [(q' & Hq & He) | (Hn & q' & Hq & He)];
             [left | right; split; [assumption|]]; exists q'; split; auto; right; auto.
        -- intros [(q' & [<-|Hq] & He) | (Hn & q' & [<-|Hq] & He)].
           ++ congruence.
           ++ left. eauto.
           ++ exfalso. assert (g = fn) by congruence. subst g.
              apply existsb_eqb_false in Hn. congruence.
           ++ right. eauto.
      * apply existsb_eqb_false in Hs. cbn [In]. rewrite IH. split.
        -- intros [<-|[(q' & Hq & He) | (Hn & q' & Hq & He)]].
           ++ right. split; [assumption|]. exists q. split; [left; reflexivity | assumption].
           ++ left. exists q'. split; [right|]; assumption.
           ++ right. split; [intros H; apply Hn; right; assumption|].
              exists q'. split; [right|]; assumption.
        -- intros [(q' & [<-|Hq] & He) | (Hn & q' & [<-|Hq] & He)].
           ++ congruence.
           ++ right. left. eauto.
           ++ left. congruence.
           ++ destruct (String.eqb_spec g fn) as [->|Hne]; [left; reflexivity|].
              right. right. split; [intros [H|H]; contradiction|]. eauto.
    + cbn [In]. rewrite IH. split.
      * intros [<-|[(q' & Hq & He) | (Hn & q' & Hq & He)]].
        -- left. exists q. split; [left; reflexivity | assumption].
        -- left. exists q'. split; [right|]; assumption.
        -- right. split; [assumption|]. exists q'. split; [right|]; assumption.
      * intros [(q' & [<-|Hq] & He) | (Hn & q' & [<-|Hq] & He)].
        -- left. congruence.
        -- right. left. eauto.
        -- congruence.
        -- right. right. eauto.
    + rewrite IH. split.
      * intros [(q' & Hq & He) | (Hn & q' & Hq & He)];
          [left | right; split; [assumption|]]; exists q'; split; auto; right; auto.
      * intros [(q' & [<-|Hq] & He) | (Hn & q' & [<-|Hq] & He)].
        -- congruence.
        -- left. eauto.
        -- congruence.
        -- right. eauto.
Qed.

(** What [os.listdir] reports: the name of every file directly under the
    prefix, and the name of every subdirectory. *)
Lemma names_in pre fn d :
  In fn (Dir.names pre d)
  <-> fn <> "" /\ Str.has_char "/" fn = false
      /\ (Dir.mem (pre ++ fn) d = true
          \/ exists r, Dir.mem (pre ++ fn ++ "/" ++ r) d = true).
Proof.
  unfold Dir.names. fold (paths d). rewrite scan_in. split.
  - intros [(q & Hq & He) | (_ & q & Hq & He)].
    + apply entry_of_file in He. destruct He as (-> & Hne & Hs).
      apply mem_paths in Hq. auto.
    + apply entry_of_dir in He. destruct He as (Hne & Hs & r & ->).
      apply mem_paths in Hq. eauto.
  - intros (Hne & Hs & [Hm | (r & Hm)]); apply mem_paths in Hm.
    + left. exists (pre ++ fn). split; [assumption|]. apply entry_of_file. auto.
    + right. split; [intros []|]. exists (pre ++ fn ++ "/" ++ r).
      split; [assumption|]. apply entry_of_dir. eauto.
Qed.

Lemma all_impl (p q : ascii -> bool) (s : string) :
  (forall c, p c = true -> q c = true) -> Str.all p s = true -> Str.all q s = true.
Proof.
  intros H. induction s as [|c s IH]; simpl; [reflexivity|].
  intros Hs. apply andb_true_iff in Hs. destruct Hs as [Hc Hs].
  rewrite (H c Hc), (IH Hs). reflexivity.
Qed.

Lemma is_hex_cases (q : ascii -> bool) :
  forallb q ["0"; "1"; "2"; "3"; "4"; "5"; "6"; "7";
             "8"; "9"; "a"; "b"; "c"; "d"; "e"; "f"]%char = true ->
  forall c, is_hex c = true -> q c = true.
Proof.
  intros Hq c Hc. unfold is_hex in Hc. apply existsb_exists in Hc.
  destruct Hc as (x & Hin & Hx). apply Ascii.eqb_eq in Hx. subst x.
  rewrite forallb_forall in Hq. auto.
Qed.

Section Listing.

Context {codec : Codec}.
Variable self : FileSystemCacheMsgspec.
Hypothesis WF : well_formed self.

Local Abbreviation pre := (dir_prefix (_path self)).
Local Abbreviation cfn := (_get_filename self _fs_count_file).

Lemma listing_in p d :
  In p (listing self d)
  <-> exists fn, p = pre ++ fn
        /\ fn <> "" /\ Str.has_char "/" fn = false
        /\ (Dir.mem p d = true \/ exists r, Dir.mem (p ++ "/" ++ r) d = true)
        /\ Str.ends_with _fs_transaction_suffix fn = false
        /\ fn <> _hash_method self _fs_count_file.
Proof.
  unfold listing. rewrite in_map_iff. split.
  - intros (fn & <- & Hin). apply filter_In in Hin. destruct Hin as [Hin Hf].
    apply names_in in Hin. destruct Hin as (Hne & Hs & Hm).
    apply andb_true_iff in Hf. destruct Hf as [Hsuf Hc].
    rewrite (join_name self WF fn Hs).
    exists fn. split; [reflexivity|]. split; [assumption|]. split; [assumption|].
    split; [|split].
    + destruct Hm as [Hm | (r & Hm)]; [left; assumption|].
      right. exists r. rewrite append_assoc. assumption.
    + apply negb_true_iff in Hsuf. assumption.
    + apply negb_true_iff in Hc. simpl in Hc. rewrite orb_false_r in Hc.
      rewrite (filename_basename self WF) in Hc.
      apply String.eqb_neq. assumption.
  - intros (fn & -> & Hne & Hs & Hm & Hsuf & Hc).
    exists fn. split.
    + apply (join_name self WF fn Hs).
    + apply filter_In. split.
      * apply names_in. split; [assumption|]. split; [assumption|].
        destruct Hm as [Hm | (r & Hm)]; [left; assumption|].
        right. exists r. rewrite append_assoc in Hm. assumption.
      * rewrite Hsuf. simpl. rewrite orb_false_r.
        rewrite (filename_basename self WF).
        apply negb_true_iff, String.eqb_neq. assumption.
Qed.

(** The counter file is never listed. *)
Lemma listing_not_counter d : ~ In cfn (listing self d).
Proof.
  intros H. apply listing_in in H. destruct H as (fn & Hp & _ & _ & _ & _ & Hc).
  rewrite (filename_eq self WF) in Hp.
  apply append_inj_l in Hp. congruence.
Qed.

(** The file of a key whose digest differs from the counter's is listed. *)
Lemma listing_entry key d :
  _hash_method self key <> _hash_method self _fs_count_file ->
  Dir.mem (_get_filename self key) d = true ->
  In (_get_filename self key) (listing self d).
Proof.
  intros Hreg Hm. apply listing_in. exists (_hash_method self key).
  split; [apply (filename_eq self WF)|]. split; [apply WF|].
  split; [apply (digest_no_slash self WF)|]. split; [left; exact Hm|].
  split; [|exact Hreg].
  destruct (Str.ends_with _fs_transaction_suffix (_hash_method self key)) eqn:E;
    [|reflexivity].
  pose proof (ends_with_all is_hex _ _ E (wf_hex self WF key)) as H.
  discriminate.
Qed.

(** The temporary file of [set] passes the filter of the listing: its
    suffix is not the one the filter looks for. *)
Lemma listing_tmp key d :
  Dir.mem (_get_filename self key ++ ".__tmp") d = true ->
  In (_get_filename self key ++ ".__tmp") (listing self d).
Proof.
  intros Hm. apply listing_in. exists (_hash_method self key ++ ".__tmp").
  assert (Hall : forall q : ascii -> bool,
             forallb q ["0"; "1"; "2"; "3"; "4"; "5"; "6"; "7";
                        "8"; "9"; "a"; "b"; "c"; "d"; "e"; "f"]%char = true ->
             Str.all q ".__tmp" = true ->
             Str.all q (_hash_method self key ++ ".__tmp") = true).
  { intros q Hq Ht. rewrite all_app, Ht, andb_true_r.
    apply (all_impl is_hex); [apply is_hex_cases; assumption | apply WF]. }
  split; [rewrite (filename_eq self WF), append_assoc; reflexivity|].
  split; [destruct (_hash_method self key); discriminate|].
  split; [rewrite has_char_app, (digest_no_slash self WF); reflexivity|].
  split; [left; exact Hm|]. split.
  - destruct (Str.ends_with _ _) eqn:E; [|reflexivity].
    pose proof (ends_with_all (fun c => negb (Ascii.eqb c "w")) _ _ E
                  (Hall (fun c => negb (Ascii.eqb c "w")) eq_refl eq_refl)) as H.
    discriminate.
  - intros H.
    pose proof (wf_hex self WF _fs_count_file) as Hh. rewrite <- H, all_app in Hh.
    apply andb_true_iff in Hh. destruct Hh as [_ Hh]. discriminate.
Qed.

(** A listed path is a file or a subdirectory of the cache directory. *)
Lemma listed_present p d :
  In p (listing self d) ->
  Dir.mem p d = true \/ exists r, Dir.mem (p ++ "/" ++ r) d = true.
Proof.
  intros H. apply listing_in in H.
  destruct H as (fn & _ & _ & _ & Hm & _). exact Hm.
Qed.

End Listing.

(* ===================================================================== *)
(** ** The sweep *)
(* ===================================================================== *)

Section Sweep.

Context {codec : Codec}.
Variable self : FileSystemCacheMsgspec.

Lemma sweep_step now idx fname n w :
  fault_free w ->
  exists n',
    try_except
      (data <- read_file fname ;;
       obj <- lift (_deserialize self data) ;;
       ev <- lift (unpack2 obj) ;;
       remove <- lift (prune_decide (fst ev) now idx) ;;
       if remove : bool
       then (os_remove fname ;; ret (n + 1))
       else ret n)
      (fun _ => ret n) w
    = (Return n',
       match Dir.lookup fname (w_files w) with
       | Some f =>
           if evict self now idx f
           then set_files (Dir.erase fname (w_files w)) w
           else w
       | None => w
       end).
Proof.
  intros Hff. unfold try_except, bind at 1.
  destruct (Dir.lookup fname (w_files w)) as [f|] eqn:Hl.
  - rewrite (read_file_hit _ _ _ Hff Hl). unfold evict, bind, lift, ret.
    destruct (_deserialize self (f_data f)) as [obj|e]; simpl; [|eauto].
    destruct (unpack2 obj) as [ev|e]; simpl; [|eauto].
    destruct (prune_decide (fst ev) now idx) as [[|]|e]; simpl; eauto.
    rewrite os_remove_hit; [simpl; eauto | assumption |].
    apply mem_true. eauto.
  - rewrite (read_file_miss _ _ Hff Hl). unfold ret. eauto.
Qed.

Lemma sweep_run now entries : forall idx n w,
  fault_free w ->
  exists n' w',
    sweep self now idx entries n w = (Return n', w')
    /\ w_files w' = sweep_dir self now idx entries (w_files w)
    /\ fault_free w' /\ w_now w' = w_now w /\ w_platform w' = w_platform w.
Proof.
  induction entries as [|p rest IH]; intros idx n w Hff; simpl.
  - exists n, w. auto.
  - destruct (sweep_step now idx p n w Hff) as (n1 & Hstep).
    unfold bind at 1. rewrite Hstep.
    set (w1 := match Dir.lookup p (w_files w) with
               | Some f => if evict self now idx f
                           then set_files (Dir.erase p (w_files w)) w else w
               | None => w end).
    assert (H1 : fault_free w1 /\ w_now w1 = w_now w
                 /\ w_platform w1 = w_platform w
                 /\ w_files w1 = match Dir.lookup p (w_files w) with
                      | Some f => if evict self now idx f
                                  then Dir.erase p (w_files w) else w_files w
                      | None => w_files w end).
    { unfold w1. destruct (Dir.lookup p (w_files w)) as [f|]; auto.
      destruct (evict self now idx f); auto. }
    destruct H1 as (Hff1 & Hn1 & Hp1 & Hf1).
    destruct (IH (idx + 1) n1 w1 Hff1) as (n' & w' & Hrun & Hfiles & Hff' & Hn & Hp).
    exists n', w'. rewrite Hrun, Hfiles, Hf1. repeat split; auto; congruence.
Qed.





End Sweep.

(* ===================================================================== *)
(** ** The count and the eviction *)
(* ===================================================================== *)

Lemma py_or_zero_int n : py_or_zero (VInt n) = VInt n.
Proof.
  unfold py_or_zero. simpl. destruct (n =? 0) eqn:E; simpl; [|reflexivity].
  apply Z.eqb_eq in E. subst. reflexivity.
Qed.

Lemma any_free p : free_at any_change p.
Proof. intros a b. exact I. Qed.

Lemma any_removable p : removable_at any_change p.
Proof. intros a. exact I. Qed.

Lemma counter_free `{Codec} self :
  free_at (frame (counter_path self)) (_get_filename self _fs_count_file).
Proof. intros a b. left. left. reflexivity. Qed.

Lemma counter_tmp_free `{Codec} self :
  free_at (frame (counter_path self)) (_get_filename self _fs_count_file ++ ".__tmp").
Proof. intros a b. left. right. reflexivity. Qed.

Ltac step H := rewrite (bind_run _ _ _ _ _ H).

Section Prune.

Context {codec : Codec}.
Variable self : FileSystemCacheMsgspec.

Local Abbreviation cfn := (_get_filename self _fs_count_file).

(** Reading a counter that holds [[0, n]]. *)
Lemma file_count_run depth f n w :
  fault_free w ->
  Dir.lookup cfn (w_files w) = Some f ->
  _deserialize self (f_data f) = Return (VList [VInt 0; VInt n]) ->
  get self (S depth) _fs_count_file w = (Return (VInt n), w).
Proof. intros Hff Hl Hd. eapply get_live; eauto. Qed.

Lemma prune_disabled depth w :
  _threshold self = 0 -> _prune self (S depth) w = (Return tt, w).
Proof.
  intros Ht. rewrite prune_S. rewrite Ht. reflexivity.
Qed.

Lemma prune_under depth f n w :
  fault_free w ->
  Dir.lookup cfn (w_files w) = Some f ->
  _deserialize self (f_data f) = Return (VList [VInt 0; VInt n]) ->
  n <= _threshold self ->
  _prune self (S (S depth)) w = (Return tt, w).
Proof.
  intros Hff Hl Hd Hn. rewrite prune_S.
  destruct (_threshold self =? 0); [reflexivity|].
  unfold bind at 1. unfold bind at 1.
  rewrite (file_count_run depth f n w Hff Hl Hd).
  unfold bind at 1. rewrite py_or_zero_int. unfold lift, py_gt_int. simpl.
  assert ((_threshold self <? n) = false) as -> by (apply Z.ltb_ge; assumption).
  reflexivity.
Qed.


Lemma set_mgmt_raise depth key value timeout e w :
  _serialize self (VList [VInt 0; value]) = Raise e ->
  set self (S depth) key value timeout true w = (Raise e, w).
Proof.
  intros Hs. rewrite set_S. unfold bind at 1. unfold ret at 1.
  unfold bind at 1. rewrite normalize_timeout_run, expiry_mgmt.
  unfold bind at 1. unfold lift at 1. rewrite Hs. reflexivity.
Qed.

(** A management write that returns, on a file system that does not
    fail, has stored the record. *)
Lemma set_mgmt_inv depth key value timeout w r w' :
  fault_free w ->
  set self depth key value timeout true w = (Return r, w') ->
  exists data,
    _serialize self (VList [VInt 0; value]) = Return data
    /\ r = true
    /\ w_files w'
       = installed (_get_filename self key) (_get_filename self key ++ ".__tmp")
           data (final_mode self w) (w_files w)
    /\ fault_free w' /\ w_now w' = w_now w /\ w_platform w' = w_platform w.
Proof.
  intros Hff H. destruct depth as [|depth]; [discriminate|].
  destruct (_serialize self (VList [VInt 0; value])) as [data|e] eqn:Hs.
  - destruct (set_mgmt_run self depth key value timeout data w Hff Hs)
      as (w1 & Hrun & Hrest).
    rewrite Hrun in H. injection H as <- <-. exists data. auto.
  - rewrite (set_mgmt_raise depth key value timeout e w Hs) in H. discriminate.
Qed.

Lemma update_count_value_inv depth n w w' :
  fault_free w -> _threshold self <> 0 ->
  _update_count self depth None (Some n) w = (Return tt, w') ->
  exists data,
    _serialize self (VList [VInt 0; VInt n]) = Return data
    /\ w_files w' = installed cfn (cfn ++ ".__tmp") data (final_mode self w) (w_files w)
    /\ fault_free w' /\ w_now w' = w_now w /\ w_platform w' = w_platform w.
Proof.
  intros Hff Ht H. destruct depth as [|depth]; [discriminate|].
  rewrite update_count_S in H. apply Z.eqb_neq in Ht. rewrite Ht in H.
  unfold bind at 1 in H. unfold ret at 1 in H.
  apply bind_inv in H. destruct H as [(b & w1 & H1 & H2) | (e & _ & He)];
    [|discriminate].
  injection H2 as <-.
  apply (set_mgmt_inv _ _ _ _ _ _ _ Hff) in H1.
  destruct H1 as (data & Hs & _ & Hrest). exists data. auto.
Qed.

Hypothesis WF : well_formed self.

(** After an eviction check that returns, the counter file is there. *)
Lemma prune_keeps_counter depth w wp :
  fault_free w -> _threshold self <> 0 -> counter_ok self w ->
  _prune self depth w = (Return tt, wp) ->
  Dir.mem cfn (w_files wp) = true.
Proof.
  intros Hff Ht [Hz|(f & n & Hl & Hd)] H; [contradiction|].
  destruct depth as [|[|depth]]; [discriminate| |].
  - rewrite prune_S in H. apply Z.eqb_neq in Ht. rewrite Ht in H. discriminate.
  - rewrite prune_S in H.
    assert (Hskip :
      (if _threshold self =? 0 then ret true
       else (c <- get self (S depth) _fs_count_file ;;
             over <- lift (py_gt_int (py_or_zero c) (_threshold self)) ;;
             ret (negb over))) w = (Return (negb (_threshold self <? n)), w)).
    { pose proof Ht as Ht'. apply Z.eqb_neq in Ht'. rewrite Ht'.
      step (file_count_run depth f n w Hff Hl Hd).
      rewrite py_or_zero_int. reflexivity. }
    rewrite (bind_run _ _ _ _ _ Hskip) in H.
    destruct (_threshold self <? n); cbn [negb] in H.
    + rewrite (bind_run _ _ _ _ _ (list_dir_run self w Hff (wf_path self WF))) in H.
      rewrite (bind_run _ _ _ _ _ (eq_refl : time w = (Return (w_now w), w))) in H.
      destruct (sweep_run self (w_now w) (listing self (w_files w)) 0 0 w Hff)
        as (n' & ws & Hrun & Hfiles & Hffs & Hnows & Hplats).
      rewrite (bind_run _ _ _ _ _ Hrun) in H.
      rewrite (bind_run _ _ _ _ _ (list_dir_run self ws Hffs (wf_path self WF))) in H.
      apply bind_inv in H. destruct H as [([] & w3 & H1 & H2) | (e & _ & He)];
        [|discriminate].
      apply (update_count_value_inv _ _ _ _ Hffs Ht) in H1.
      destruct H1 as (data & _ & Hf3 & _).
      injection H2 as <-. simpl. rewrite Hf3.
      apply mem_true. eexists. apply lookup_installed_target.
    + injection H as <-. apply mem_true. eauto.
Qed.

(** What a successful public [set] went through. *)
Lemma set_success_inv depth key value timeout w w' :
  fault_free w ->
  set self (S depth) key value timeout false w = (Return true, w') ->
  let fn := _get_filename self key in
  exists wp data w2,
    _prune self depth w = (Return tt, wp)
    /\ fault_free wp /\ w_now wp = w_now w
    /\ _serialize self (VList [VInt (expiry self timeout (w_now w)); value])
       = Return data
    /\ write_phase self fn (fn ++ ".__tmp") data wp
       = (Return (negb (Dir.mem fn (w_files wp))), w2)
    /\ w_files w2 = installed fn (fn ++ ".__tmp") data (final_mode self wp) (w_files wp)
    /\ fault_free w2 /\ w_now w2 = w_now w
    /\ (if Dir.mem fn (w_files wp) then w' = w2
        else _update_count self depth (Some 1) None w2 = (Return tt, w')).
Proof.
  intros Hff H fn. rewrite set_S in H.
  apply bind_inv in H. destruct H as [(t & w1 & H1 & H2) | (e & _ & He)];
    [|discriminate].
  apply bind_inv in H1. destruct H1 as [([] & wp & Hp & Hr) | (e & _ & He)];
    [|discriminate].
  injection Hr as <- <-.
  assert (Hev : evolves any_change w wp).
  { apply (preserves_prune self any_change any_change_refl any_change_trans
             (any_free _) (any_free _) depth any_removable _ _ _ Hp). }
  pose proof (ev_faults _ _ _ Hev Hff) as Hffp.
  pose proof (ev_now _ _ _ Hev) as Hnowp.
  unfold bind at 1 in H2. rewrite normalize_timeout_run, Hnowp in H2.
  unfold bind at 1 in H2. unfold lift at 1 in H2.
  destruct (_serialize self _) as [data|e] eqn:Hs; [|discriminate].
  destruct (write_phase_run self fn (fn ++ ".__tmp") data wp Hffp (tmp_neq _))
    as (w2 & Hrun & Hfiles & Hff2 & Hnow2 & Hplat2 & _).
  unfold try_except_else in H2. fold fn in H2. rewrite Hrun in H2.
  exists wp, data, w2. repeat split; auto; try congruence.
  destruct (Dir.mem fn (w_files wp)); simpl in H2.
  - injection H2 as <-. reflexivity.
  - apply bind_inv in H2. destruct H2 as [([] & w3 & H3 & H4) | (e & _ & He)];
      [|discriminate].
    injection H4 as <-. assumption.
Qed.

(** A successful public [set], on a file system that does not fail and
    with a counter in order, leaves the record under the file of the
    key. *)
Lemma set_stores depth key value timeout w w' :
  fault_free w -> counter_ok self w ->
  set self depth key value timeout false w = (Return true, w') ->
  exists data mode,
    _serialize self (VList [VInt (expiry self timeout (w_now w)); value])
      = Return data
    /\ Dir.lookup (_get_filename self key) (w_files w') = Some (mkfile data mode)
    /\ fault_free w' /\ w_now w' = w_now w.
Proof.
  intros Hff Hc H. destruct depth as [|depth]; [discriminate|].
  destruct (set_success_inv depth key value timeout w w' Hff H)
    as (wp & data & w2 & Hp & Hffp & Hnowp & Hs & _ & Hf2 & Hff2 & Hnow2 & Hend).
  exists data, (final_mode self wp).
  assert (Hl2 : Dir.lookup (_get_filename self key) (w_files w2)
                = Some (mkfile data (final_mode self wp))).
  { rewrite Hf2. apply lookup_installed_target. }
  destruct (Dir.mem (_get_filename self key) (w_files wp)) eqn:Hm.
  - subst w'. auto.
  - destruct (Z.eq_dec (_threshold self) 0) as [Hz|Hnz].
    + destruct depth as [|depth]; [discriminate|].
      rewrite update_count_S, Hz in Hend. injection Hend as <-. auto.
    + assert (Hne : _get_filename self key <> cfn).
      { intros Heq. rewrite Heq in Hm.
        rewrite (prune_keeps_counter depth w wp Hff Hnz Hc Hp) in Hm.
        discriminate. }
      assert (Hev : evolves (frame (counter_path self)) w2 w').
      { apply (preserves_update_count self (frame (counter_path self))
                 (frame_refl _) (frame_trans _) (counter_free self)
                 (counter_tmp_free self) _ _ _ _ _ _ Hend). }
      split; [assumption|]. split; [|split].
      * destruct (ev_files _ _ _ Hev (_get_filename self key)) as [[Hq|Hq]|Hq].
        -- contradiction.
        -- exfalso. apply (filename_not_tmp self WF _ _ Hq).
        -- rewrite Hq. assumption.
      * apply (ev_faults _ _ _ Hev Hff2).
      * rewrite (ev_now _ _ _ Hev). assumption.
Qed.

End Prune.

(* ===================================================================== *)
(** ** The depth of the calls is bounded *)
(* ===================================================================== *)

(** The methods call each other in a cycle, but never deeper than seven
    calls: a [get] that finds a stale counter deletes it, and the count
    update that follows finds no counter to delete.  From depth seven on
    the bound given to the methods does not matter. *)

Lemma bind_ext {A B : Type} (m : io A) (k k' : A -> io B) w :
  (forall a w1, k a w1 = k' a w1) -> bind m k w = bind m k' w.
Proof.
  intros H. unfold bind. destruct (m w) as [[a|e] w1]; [apply H | reflexivity].
Qed.

Lemma bind_cong {A B : Type} (m m' : io A) (k k' : A -> io B) w :
  m w = m' w -> (forall a w1, k a w1 = k' a w1) -> bind m k w = bind m' k' w.
Proof.
  intros Hm H. unfold bind. rewrite Hm.
  destruct (m' w) as [[a|e] w1]; [apply H | reflexivity].
Qed.

Lemma bind_ext_run {A B : Type} (m : io A) (k k' : A -> io B) w :
  (forall a w1, m w = (Return a, w1) -> k a w1 = k' a w1) ->
  bind m k w = bind m k' w.
Proof.
  intros H. unfold bind.
  destruct (m w) as [[a|e] w1]; [apply H; reflexivity | reflexivity].
Qed.

Lemma try_except_else_ext {A B : Type} (m : io A) h (k k' : A -> io B) w :
  (forall a w1, k a w1 = k' a w1) ->
  try_except_else m h k w = try_except_else m h k' w.
Proof.
  intros H. unfold try_except_else.
  destruct (m w) as [[a|e] w1]; [apply H | reflexivity].
Qed.

Lemma try_except_ext {A : Type} (m m' : io A) h w :
  m w = m' w -> try_except m h w = try_except m' h w.
Proof. intros H. unfold try_except. rewrite H. reflexivity. Qed.

Lemma os_remove_gone p w w1 :
  os_remove p w = (Return tt, w1) -> Dir.lookup p (w_files w1) = None.
Proof.
  unfold os_remove, bind. destruct (syscall w) as [[[]|e] w0]; [|discriminate].
  destruct (Dir.mem p (w_files w0)); [|discriminate].
  intros H. injection H as <-. simpl. apply lookup_erase_eq.
Qed.

Section Depth.

Context {codec : Codec}.
Variable self : FileSystemCacheMsgspec.

Local Abbreviation cfn := (_get_filename self _fs_count_file).

Lemma set_mgmt_depth d key value timeout w :
  set self (S d) key value timeout true w = set self 1 key value timeout true w.
Proof. rewrite !set_S. reflexivity. Qed.

Lemma get_depth_cong d d' key :
  (forall w, delete self d key false w = delete self d' key false w) ->
  forall w, get self (S d) key w = get self (S d') key w.
Proof.
  intros H w. rewrite !get_S. apply try_except_ext.
  apply bind_ext; intros data w1. apply bind_ext; intros obj w2.
  apply bind_ext; intros [expires value] w3.
  apply bind_ext; intros st w4. destruct st; [|reflexivity].
  apply bind_cong; [apply H | reflexivity].
Qed.

Lemma delete_depth_cong d d' key m :
  (forall delta value w,
      _update_count self d delta value w = _update_count self d' delta value w) ->
  forall w, delete self (S d) key m w = delete self (S d') key m w.
Proof.
  intros H w. rewrite !delete_S. apply try_except_ext.
  apply bind_ext; intros [] w1. destruct m; [reflexivity|].
  cbn [negb]. apply bind_cong; [apply H | reflexivity].
Qed.

Lemma update_count_depth_cong d d' :
  (forall w, get self d _fs_count_file w = get self d' _fs_count_file w) ->
  (forall value timeout w,
      set self d _fs_count_file value timeout true w
      = set self d' _fs_count_file value timeout true w) ->
  forall delta value w,
    _update_count self (S d) delta value w = _update_count self (S d') delta value w.
Proof.
  intros Hg Hs delta value w. rewrite !update_count_S.
  destruct (_threshold self =? 0); [reflexivity|].
  assert (Hk : forall c w1,
    (set self d _fs_count_file c None true ;; ret tt) w1
    = (set self d' _fs_count_file c None true ;; ret tt) w1).
  { intros c w1. apply bind_cong; [apply Hs | reflexivity]. }
  apply bind_cong; [|exact Hk].
  destruct delta as [dl|]; [|reflexivity].
  destruct (negb (dl =? 0)); [|reflexivity].
  apply bind_cong; [apply Hg | reflexivity].
Qed.

Lemma prune_depth_cong d d' :
  (forall w, get self d _fs_count_file w = get self d' _fs_count_file w) ->
  (forall delta value w,
      _update_count self d delta value w = _update_count self d' delta value w) ->
  forall w, _prune self (S d) w = _prune self (S d') w.
Proof.
  intros Hg Hu w. rewrite !prune_S.
  assert (Hskip : forall w0,
    (if _threshold self =? 0 then ret true
     else (c <- get self d _fs_count_file ;;
           over <- lift (py_gt_int (py_or_zero c) (_threshold self)) ;;
           ret (negb over))) w0
    = (if _threshold self =? 0 then ret true
       else (c <- get self d' _fs_count_file ;;
             over <- lift (py_gt_int (py_or_zero c) (_threshold self)) ;;
             ret (negb over))) w0).
  { intros w0. destruct (_threshold self =? 0); [reflexivity|].
    apply bind_cong; [apply Hg | reflexivity]. }
  apply bind_cong; [apply Hskip|]. intros [|] w1; [reflexivity|].
  apply bind_ext; intros entries w2. apply bind_ext; intros now w3.
  apply bind_ext; intros nrem w4. apply bind_ext; intros remaining w5.
  apply bind_cong; [apply Hu | reflexivity].
Qed.

Lemma set_depth_cong d d' key value timeout m :
  (forall w, _prune self d w = _prune self d' w) ->
  (forall delta value w,
      _update_count self d delta value w = _update_count self d' delta value w) ->
  forall w,
    set self (S d) key value timeout m w = set self (S d') key value timeout m w.
Proof.
  intros Hp Hu w. rewrite !set_S.
  assert (Hfirst : forall w0,
    (if m then ret (Some 0%Q) else (_prune self d ;; ret timeout)) w0
    = (if m then ret (Some 0%Q) else (_prune self d' ;; ret timeout)) w0).
  { intros w0. destruct m; [reflexivity|].
    apply bind_cong; [apply Hp | reflexivity]. }
  apply bind_cong; [apply Hfirst|]. intros t w1.
  apply bind_ext; intros t' w2. apply bind_ext; intros data w3.
  apply try_except_else_ext. intros is_new w4.
  destruct (negb m && is_new); [|reflexivity].
  apply bind_cong; [apply Hu | reflexivity].
Qed.

(** with no counter file, reading the counter calls nothing *)
Lemma get_count_absent_depth d w :
  Dir.lookup cfn (w_files w) = None ->
  get self (S d) _fs_count_file w = get self 1 _fs_count_file w.
Proof.
  intros Hl. rewrite !get_S. apply try_except_ext.
  unfold bind at 1 5. unfold read_file, bind, syscall.
  destruct (w_faults w) as [|[|] fs]; simpl; rewrite ?Hl; reflexivity.
Qed.

Lemma update_count_absent_depth d delta value w :
  Dir.lookup cfn (w_files w) = None ->
  _update_count self (S (S d)) delta value w
  = _update_count self 2 delta value w.
Proof.
  intros Hl. rewrite !update_count_S.
  destruct (_threshold self =? 0); [reflexivity|].
  assert (Hk : forall c w1,
    (set self (S d) _fs_count_file c None true ;; ret tt) w1
    = (set self 1 _fs_count_file c None true ;; ret tt) w1).
  { intros c w1. apply bind_cong; [apply set_mgmt_depth | reflexivity]. }
  apply bind_cong; [|exact Hk].
  destruct delta as [dl|]; [|reflexivity].
  destruct (negb (dl =? 0)); [|reflexivity].
  apply bind_cong; [apply (get_count_absent_depth d w Hl) | reflexivity].
Qed.

Lemma delete_count_depth d m w :
  delete self (S (S (S d))) _fs_count_file m w
  = delete self 3 _fs_count_file m w.
Proof.
  rewrite !delete_S. apply try_except_ext.
  apply bind_ext_run. intros [] w1 E.
  apply os_remove_gone in E.
  destruct m; [reflexivity|]. cbn [negb].
  apply bind_cong; [apply (update_count_absent_depth d _ _ w1 E) | reflexivity].
Qed.

Lemma get_count_depth d w :
  get self (S (S (S (S d)))) _fs_count_file w = get self 4 _fs_count_file w.
Proof. apply get_depth_cong. intros w0. apply delete_count_depth. Qed.

Lemma update_count_depth d delta value w :
  _update_count self (S (S (S (S (S d))))) delta value w
  = _update_count self 5 delta value w.
Proof.
  apply update_count_depth_cong.
  - intros w0. apply get_count_depth.
  - intros v t w0. rewrite set_mgmt_depth.
    symmetry. apply set_mgmt_depth.
Qed.

Lemma delete_depth d key m w :
  delete self (S (S (S (S (S (S d)))))) key m w = delete self 6 key m w.
Proof.
  apply delete_depth_cong. intros delta value w0. apply update_count_depth.
Qed.

Lemma get_depth d key w :
  get self (S (S (S (S (S (S (S d))))))) key w = get self 7 key w.
Proof. apply get_depth_cong. intros w0. apply delete_depth. Qed.

Lemma prune_depth d w :
  _prune self (S (S (S (S (S (S d)))))) w = _prune self 6 w.
Proof.
  apply prune_depth_cong.
  - intros w0. rewrite (get_count_depth (S d)).
    symmetry. apply (get_count_depth 1).
  - intros delta value w0. apply update_count_depth.
Qed.

Lemma set_depth d key value timeout m w :
  set self (S (S (S (S (S (S (S d))))))) key value timeout m w
  = set self 7 key value timeout m w.
Proof.
  apply set_depth_cong.
  - intros w0. apply prune_depth.
  - intros delta v w0. rewrite (update_count_depth (S d)).
    symmetry. apply (update_count_depth 1).
Qed.

(** From depth seven on, every method gives the result of depth seven. *)
Theorem depth_seven_suffices d :
  (7 <= d)%nat ->
  (forall key w, get self d key w = get self 7 key w)
  /\ (forall key m w, delete self d key m w = delete self 7 key m w)
  /\ (forall delta value w,
        _update_count self d delta value w = _update_count self 7 delta value w)
  /\ (forall key value timeout m w,
        set self d key value timeout m w = set self 7 key value timeout m w)
  /\ (forall w, _prune self d w = _prune self 7 w).
Proof.
  intros Hd.
  destruct d as [|[|[|[|[|[|[|d]]]]]]]; try lia.
  repeat apply conj; intros.
  - apply get_depth.
  - rewrite (delete_depth (S d)). symmetry. apply (delete_depth 1).
  - rewrite (update_count_depth (S (S d))). symmetry. apply (update_count_depth 2).
  - apply set_depth.
  - rewrite (prune_depth (S d)). symmetry. apply (prune_depth 1).
Qed.

(** [__init__] establishes the state of the counter file the round-trip
    theorems start from. *)
Lemma init_counter_ok depth w w' :
  fault_free w -> _path self <> "" ->
  (forall n data, _serialize self (VList [VInt 0; VInt n]) = Return data ->
                  _deserialize self data = Return (VList [VInt 0; VInt n])) ->
  init self depth w = (Return tt, w') ->
  counter_ok self w' /\ fault_free w'.
Proof.
  intros Hff Hp Hrt H. unfold init, os_makedirs in H.
  unfold bind at 1 in H. rewrite (syscall_fault_free w Hff) in H.
  destruct (_threshold self =? 0) eqn:Ht; cbn [negb] in H.
  - injection H as <-. split; [left; apply Z.eqb_eq, Ht | exact Hff].
  - unfold bind at 1 in H. rewrite (list_dir_run self w Hff Hp) in H.
    apply Z.eqb_neq in Ht.
    destruct (update_count_value_inv self depth _ w w' Hff Ht H)
      as (data & Hs & Hf & Hff' & _).
    split; [|exact Hff']. right.
    exists (mkfile data (final_mode self w)), (Z.of_nat (List.length (listing self (w_files w)))).
    split; [rewrite Hf; apply lookup_installed_target | apply (Hrt _ _ Hs)].
Qed.

End Depth.

(* ===================================================================== *)
(** ** The codec law *)
(* ===================================================================== *)

Section CodecLaw.

Context {codec : Codec}.
Variable self : FileSystemCacheMsgspec.

(** What [_serialize] wrote for an object the codec reads back,
    [_deserialize] reads: the two compress and decompress under the same
    flag, in opposite order. *)
Lemma deserialize_serialized obj data :
  reads_back self obj ->
  _serialize self obj = Return data ->
  _deserialize self data = Return obj.
Proof.
  unfold reads_back, _serialize, _deserialize. intros Hrb Hs.
  destruct (msgpack_encode obj) as [packed|e] eqn:He; [|discriminate].
  simpl in Hs. destruct (Hrb packed eq_refl) as [Hd Hz].
  destruct (compress self).
  - rewrite (Hz eq_refl data Hs). simpl. exact Hd.
  - injection Hs as <-. simpl. exact Hd.
Qed.

End CodecLaw.

(* ===================================================================== *)
(** ** The write phase, whatever the file system does *)
(* ===================================================================== *)

Lemma target_change_refl fn tmp data : reflexive (target_change fn tmp data).
Proof. intros q a. right. right. reflexivity. Qed.

Lemma target_change_trans fn tmp data : transitive (target_change fn tmp data).
Proof.
  intros q a b c [H|[(Hq & H)|H]] [G|[(Gq & G)|G]];
    try (left; assumption); subst; try (right; left; split; [reflexivity|]);
    try (right; right; reflexivity); try assumption.
  destruct G as [->|[->|(mode & ->)]]; [assumption | right; left; reflexivity |].
  right. right. eauto.
Qed.

Lemma syscall_same w r w0 : syscall w = (r, w0) -> same_files w w0.
Proof.
  unfold syscall. destruct (w_faults w) as [|[|] fs]; intros H; injection H as <- <-;
    repeat split.
Qed.

Lemma write_file_stored p data w w1 :
  write_file p data w = (Return tt, w1) ->
  exists mode, Dir.lookup p (w_files w1) = Some (mkfile data mode).
Proof.
  unfold write_file, bind, syscall. destruct w as [d now plat faults log tr]; simpl.
  destruct faults as [|[|] [|[|] fs]]; simpl; intros H; try discriminate;
    injection H as <-; simpl; eexists; apply lookup_store_eq.
Qed.

Lemma frame_l (S : string -> Prop) p : S p -> free_at (frame S) p.
Proof. intros H a b. left. exact H. Qed.

(** The rename puts the file of the source under the target. *)
Lemma os_replace_record tmp fn g w r w' :
  tmp <> fn ->
  Dir.lookup tmp (w_files w) = Some g ->
  os_replace tmp fn w = (r, w') ->
  evolves (target_change fn tmp (f_data g)) w w'
  /\ (r = Return tt -> Dir.lookup fn (w_files w') = Some g).
Proof.
  intros Hne Hl H. unfold os_replace in H. apply bind_inv in H.
  pose proof (target_change_refl fn tmp (f_data g)) as Hr.
  pose proof (target_change_trans fn tmp (f_data g)) as Ht.
  destruct H as [([] & w0 & H0 & H1) | (e & H0 & ->)].
  - pose proof (preserves_syscall _ Hr _ _ _ H0) as Ev0.
    destruct (syscall_same _ _ _ H0) as (Hf0 & _).
    assert (Hm : Dir.mem tmp (w_files w0) = true).
    { rewrite Hf0. apply mem_true. eauto. }
    rewrite Hm in H1. apply String.eqb_neq in Hne as Hb. rewrite Hb in H1.
    injection H1 as <- <-.
    assert (Hfn : Dir.lookup fn (Dir.rename tmp fn (Dir.erase fn (w_files w0))) = Some g).
    { rewrite lookup_rename_dst by apply lookup_erase_eq.
      rewrite lookup_erase_neq by congruence. rewrite Hf0. exact Hl. }
    split; [|intros _; exact Hfn].
    apply (evolves_trans _ Ht _ _ _ Ev0).
    apply evolves_set_files. intros q.
    destruct (String.eqb_spec q tmp) as [->|Hqt]; [left; reflexivity|].
    destruct (String.eqb_spec q fn) as [->|Hqf].
    + right. left. split; [reflexivity|]. right. right. exists (f_mode g).
      rewrite Hfn. destruct g; reflexivity.
    + right. right. rewrite lookup_rename_other by assumption.
      apply lookup_erase_neq. congruence.
  - split; [|discriminate]. apply (preserves_syscall _ Hr _ _ _ H0).
Qed.

(** The change of mode keeps the record. *)
Lemma os_chmod_record tmp fn data m mode w r w' :
  Dir.lookup fn (w_files w) = Some (mkfile data m) ->
  os_chmod fn mode w = (r, w') ->
  evolves (target_change fn tmp data) w w'
  /\ (r = Return tt -> Dir.lookup fn (w_files w') = Some (mkfile data mode)).
Proof.
  intros Hl H. unfold os_chmod in H. apply bind_inv in H.
  pose proof (target_change_refl fn tmp data) as Hr.
  pose proof (target_change_trans fn tmp data) as Ht.
  destruct H as [([] & w0 & H0 & H1) | (e & H0 & ->)].
  - pose proof (preserves_syscall _ Hr _ _ _ H0) as Ev0.
    destruct (syscall_same _ _ _ H0) as (Hf0 & _).
    rewrite Hf0, Hl in H1. injection H1 as <- <-. simpl.
    split; [|intros _; apply lookup_store_eq].
    apply (evolves_trans _ Ht _ _ _ Ev0).
    apply evolves_set_files. intros q.
    destruct (String.eqb_spec fn q) as [<-|Hqf].
    + right. left. split; [reflexivity|]. right. right. exists mode.
      apply lookup_store_eq.
    + right. right. rewrite Hf0. apply lookup_store_neq. assumption.
  - split; [|discriminate]. apply (preserves_syscall _ Hr _ _ _ H0).
Qed.

Section WritePhase.

Context {codec : Codec}.
Variable self : FileSystemCacheMsgspec.

(** Whatever the file system does, the write phase shows under the target
    the old file, nothing or the complete record, touches no other path
    but the temporary one, and when it returns the record is under the
    target. *)
Lemma write_phase_evolves fn tmp data w r w' :
  tmp <> fn ->
  write_phase self fn tmp data w = (r, w') ->
  evolves (target_change fn tmp data) w w'
  /\ (forall b, r = Return b ->
        b = negb (Dir.mem fn (w_files w))
        /\ Dir.lookup fn (w_files w') = Some (mkfile data (final_mode self w))).
Proof.
  intros Hne H.
  pose proof (target_change_refl fn tmp data) as Hr.
  pose proof (target_change_trans fn tmp data) as Ht.
  assert (Hfree : free_at (target_change fn tmp data) tmp)
    by (intros a b; left; reflexivity).
  assert (Hrem : removable_at (target_change fn tmp data) fn).
  { intros a. right. left. split; [reflexivity|]. right. left. reflexivity. }
  unfold write_phase in H. apply bind_inv in H.
  destruct H as [([] & w1 & H1 & H2) | (e & H1 & ->)];
    [|split; [|discriminate];
      apply (preserves_write_file _ Hr Ht _ _ Hfree _ _ _ H1)].
  pose proof (preserves_write_file _ Hr Ht _ _ Hfree _ _ _ H1) as Ev1.
  destruct (write_file_stored _ _ _ _ H1) as (m1 & Hl1).
  assert (Hfn1 : Dir.lookup fn (w_files w1) = Dir.lookup fn (w_files w)).
  { pose proof (preserves_write_file (frame (eq tmp)) (frame_refl _) (frame_trans _)
                  tmp data (frame_l _ _ eq_refl) _ _ _ H1) as Evf.
    destruct (ev_files _ _ _ Evf fn) as [Hq|Hq]; [congruence | exact Hq]. }
  assert (Hm1 : Dir.mem fn (w_files w1) = Dir.mem fn (w_files w)).
  { unfold Dir.mem. rewrite Hfn1. reflexivity. }
  unfold bind at 1 in H2. unfold os_path_exists at 1 in H2.
  rewrite negb_involutive in H2. apply bind_inv in H2.
  (* the removal of an existing target *)
  assert (Hstep : forall rr w2,
    (if Dir.mem fn (w_files w1) then os_remove fn else ret tt) w1 = (rr, w2) ->
    evolves (target_change fn tmp data) w1 w2
    /\ Dir.lookup tmp (w_files w2) = Some (mkfile data m1)).
  { intros rr w2 Hrm. destruct (Dir.mem fn (w_files w1)).
    - split; [apply (preserves_os_remove _ Hr Ht _ Hrem _ _ _ Hrm)|].
      pose proof (preserves_os_remove (frame (eq fn)) (frame_refl _) (frame_trans _)
                    fn (fun a => or_introl eq_refl) _ _ _ Hrm) as Evf.
      destruct (ev_files _ _ _ Evf tmp) as [Hq|Hq]; [congruence|].
      rewrite Hq. exact Hl1.
    - injection Hrm as <- <-. split; [apply evolves_refl, Hr | exact Hl1]. }
  destruct H2 as [([] & w2 & H2 & H3) | (e & H2 & ->)];
    [|split; [|discriminate];
      apply (evolves_trans _ Ht _ _ _ Ev1), (Hstep _ _ H2)].
  destruct (Hstep _ _ H2) as (Ev2 & Hl2).
  (* the rename *)
  apply bind_inv in H3.
  destruct H3 as [([] & w3 & H3 & H4) | (e & H3 & ->)].
  2:{ split; [|discriminate].
      apply (evolves_trans _ Ht _ _ _ Ev1), (evolves_trans _ Ht _ _ _ Ev2).
      apply (os_replace_record tmp fn _ _ _ _ Hne Hl2 H3). }
  destruct (os_replace_record tmp fn _ _ _ _ Hne Hl2 H3) as (Ev3 & Hl3).
  specialize (Hl3 eq_refl). simpl in Ev3.
  (* the mode *)
  unfold bind at 1 in H4. unfold sys_platform at 1 in H4.
  assert (Hplat : w_platform w3 = w_platform w).
  { rewrite (ev_platform _ _ _ Ev3), (ev_platform _ _ _ Ev2).
    apply (ev_platform _ _ _ Ev1). }
  rewrite Hplat in H4. apply bind_inv in H4.
  assert (Hmode : forall rr w4,
    match w_platform w with
    | Posix => os_chmod fn (_mode self)
    | Win32 => os_chmod fn S_IWRITE
    end w3 = (rr, w4) ->
    evolves (target_change fn tmp data) w3 w4
    /\ (rr = Return tt ->
        Dir.lookup fn (w_files w4) = Some (mkfile data (final_mode self w)))).
  { intros rr w4 Hch. unfold final_mode.
    destruct (w_platform w); apply (os_chmod_record tmp fn data m1 _ _ _ _ Hl3 Hch). }
  destruct H4 as [([] & w4 & H4 & H5) | (e & H4 & ->)].
  - destruct (Hmode _ _ H4) as (Ev4 & Hl4). injection H5 as <- <-.
    split.
    + apply (evolves_trans _ Ht _ _ _ Ev1), (evolves_trans _ Ht _ _ _ Ev2),
        (evolves_trans _ Ht _ _ _ Ev3), Ev4.
    + intros b Hb. injection Hb as <-. rewrite Hm1. split; [reflexivity|].
      apply Hl4. reflexivity.
  - split; [|discriminate].
    apply (evolves_trans _ Ht _ _ _ Ev1), (evolves_trans _ Ht _ _ _ Ev2),
      (evolves_trans _ Ht _ _ _ Ev3), (Hmode _ _ H4).
Qed.

(** So the write phase of a record respects every change relation that
    lets the temporary file go free and the target be removed or hold the
    record. *)
Lemma preserves_write_phase_record (T : change) fn tmp data :
  tmp <> fn -> reflexive T -> free_at T tmp -> removable_at T fn ->
  (forall a mode, T fn a (Some (mkfile data mode))) ->
  preserves T (write_phase self fn tmp data).
Proof.
  intros Hne Hr Hfree Hrem Hnew w r w' H.
  destruct (write_phase_evolves fn tmp data w r w' Hne H) as [Hev _].
  apply (evolves_weaken (target_change fn tmp data) T); [|exact Hev].
  intros q a b [->|[(-> & [->|[->|(mode & ->)]])| ->]]; auto.
Qed.

End WritePhase.

(* ===================================================================== *)
(** ** What the operations change, given what the count update changes *)
(* ===================================================================== *)

Section PreserveGiven.

Context {codec : Codec}.
Variable self : FileSystemCacheMsgspec.
Variable T : change.
Hypothesis T_refl : reflexive T.
Hypothesis T_trans : transitive T.
Hypothesis count_update :
  forall depth delta value, preserves T (_update_count self depth delta value).

Lemma preserves_delete_given depth key m :
  removable_at T (_get_filename self key) ->
  preserves T (delete self depth key m).
Proof.
  intros Hrem. destruct depth as [|depth]; [simpl; pres|].
  rewrite delete_S. pres.
Qed.

Lemma preserves_get_given depth key :
  removable_at T (_get_filename self key) ->
  preserves T (get self depth key).
Proof.
  intros Hrem. destruct depth as [|depth]; [simpl; pres|].
  rewrite get_S.
  pose proof (preserves_expired T T_refl T_trans).
  pose proof preserves_delete_given. pres.
Qed.

Lemma preserves_has_given depth key :
  removable_at T (_get_filename self key) ->
  preserves T (has self depth key).
Proof.
  intros Hrem. unfold has.
  pose proof (preserves_expired T T_refl T_trans).
  pose proof preserves_delete_given. pres.
Qed.

Hypothesis all_removable : forall p, removable_at T p.

Lemma preserves_prune_given depth : preserves T (_prune self depth).
Proof.
  destruct depth as [|depth]; [simpl; pres|].
  rewrite prune_S.
  pose proof preserves_get_given.
  pose proof (preserves_list_dir self T T_refl T_trans).
  assert (forall now entries idx n, preserves T (sweep self now idx entries n)).
  { intros. apply preserves_sweep; auto. }
  pres.
Qed.

Lemma preserves_set_given depth key value timeout :
  free_at T (_get_filename self key) ->
  free_at T (_get_filename self key ++ ".__tmp") ->
  preserves T (set self depth key value timeout false).
Proof.
  intros Hf Ht. destruct depth as [|depth]; [simpl; pres|].
  rewrite set_S.
  pose proof (fun data => preserves_write_phase self T T_refl T_trans _ _ data Hf Ht).
  pose proof (preserves_normalize_timeout self T T_refl).
  pose proof (preserves_prune_given depth).
  pres.
Qed.

Lemma preserves_add_given depth key value timeout :
  free_at T (_get_filename self key) ->
  free_at T (_get_filename self key ++ ".__tmp") ->
  preserves T (add self depth key value timeout).
Proof.
  intros Hf Ht. unfold add. pose proof preserves_set_given. pres.
Qed.

Lemma preserves_clear_loop_given depth entries :
  preserves T (clear_loop self depth entries).
Proof.
  pose proof (preserves_list_dir self T T_refl T_trans).
  induction entries as [|p rest IH]; cbn [clear_loop]; pres.
  apply all_removable.
Qed.

Lemma preserves_clear_given depth : preserves T (clear self depth).
Proof.
  unfold clear.
  pose proof (preserves_list_dir self T T_refl T_trans).
  pose proof preserves_clear_loop_given. pres.
Qed.

Lemma preserves_init_given depth : preserves T (init self depth).
Proof.
  unfold init, os_makedirs.
  pose proof (preserves_list_dir self T T_refl T_trans). pres.
Qed.

End PreserveGiven.

(* ===================================================================== *)
(** ** What the cache does to its counter file *)
(* ===================================================================== *)

Section CounterChange.

Context {codec : Codec}.
Variable self : FileSystemCacheMsgspec.

Local Abbreviation cfn := (_get_filename self _fs_count_file).

Lemma counter_change_refl : reflexive (counter_change self).
Proof. intros q a. right. left. reflexivity. Qed.

Lemma counter_change_trans : transitive (counter_change self).
Proof.
  intros q a b c [H|H] G; [left; assumption|].
  destruct G as [G|[->|[->|G]]]; [left; assumption | right; exact H | |].
  - right. right. left. reflexivity.
  - right. right. right. exact G.
Qed.

Lemma counter_change_removable p : removable_at (counter_change self) p.
Proof. intros a. right. right. left. reflexivity. Qed.

Lemma counter_change_free p : p <> cfn -> free_at (counter_change self) p.
Proof. intros H a b. left. exact H. Qed.

(** A management write of a count leaves a count with expiry 0, or the
    file as it was, or no file. *)
Lemma preserves_count_write depth n timeout :
  preserves (counter_change self)
    (set self depth _fs_count_file (VInt n) timeout true).
Proof.
  pose proof counter_change_refl as Hr. pose proof counter_change_trans as Ht.
  destruct depth as [|depth]; [simpl; pres|].
  rewrite set_S. intros w r w' H.
  unfold bind at 1 in H. unfold ret at 1 in H.
  unfold bind at 1 in H. rewrite normalize_timeout_run, expiry_mgmt in H.
  unfold bind at 1 in H. unfold lift at 1 in H.
  destruct (_serialize self (VList [VInt 0; VInt n])) as [data|e] eqn:Hs.
  - revert H. apply preserves_try_except_else; try assumption.
    + apply preserves_write_phase_record.
      * apply tmp_neq.
      * exact Hr.
      * apply counter_change_free, tmp_neq.
      * apply counter_change_removable.
      * intros a mode. right. right. right. exists n, data, mode. auto.
    + intros exc. pres.
    + intros b. cbn [negb andb]. pres.
  - injection H as <- <-. apply evolves_refl, Hr.
Qed.

(** the new count is an integer *)
Lemma new_count_int depth delta value w c w1 :
  match delta with
  | Some d =>
      if negb (d =? 0)
      then (c <- get self depth _fs_count_file ;;
            lift (py_add_int (py_or_zero c) d))
      else ret (VInt (match value with Some v => v | None => 0 end))
  | None => ret (VInt (match value with Some v => v | None => 0 end))
  end w = (Return c, w1) ->
  exists z, c = VInt z.
Proof.
  destruct delta as [d|]; [destruct (negb (d =? 0))|]; intros H;
    try (injection H as <- <-; eauto).
  apply bind_inv in H. destruct H as [(c0 & w0 & _ & H) | (e & _ & He)];
    [|discriminate].
  unfold lift, py_add_int in H. destruct (py_num (py_or_zero c0));
    [|discriminate]. injection H as <- <-. eauto.
Qed.

Lemma preserves_count_ops_counter depth :
  preserves (counter_change self) (get self depth _fs_count_file)
  /\ (forall m, preserves (counter_change self) (delete self depth _fs_count_file m))
  /\ (forall delta value,
        preserves (counter_change self) (_update_count self depth delta value)).
Proof.
  pose proof counter_change_refl as Hr. pose proof counter_change_trans as Ht.
  pose proof (counter_change_removable cfn) as Hrem.
  pose proof (preserves_expired _ Hr Ht) as Hexp.
  induction depth as [|depth (IHget & IHdel & IHupd)].
  - split; [|split]; intros; simpl; pres.
  - split; [|split]; intros.
    + rewrite get_S. pres.
    + rewrite delete_S. pres.
    + rewrite update_count_S. destruct (_threshold self =? 0); [pres|].
      intros w r w' H. apply bind_inv in H.
      assert (Hm : forall r1 w1,
        match delta with
        | Some d =>
            if negb (d =? 0)
            then (c <- get self depth _fs_count_file ;;
                  lift (py_add_int (py_or_zero c) d))
            else ret (VInt (match value with Some v => v | None => 0 end))
        | None => ret (VInt (match value with Some v => v | None => 0 end))
        end w = (r1, w1) -> evolves (counter_change self) w w1).
      { intros r1 w1.
        match goal with
        | |- ?m w = _ -> _ =>
            assert (Hp : preserves (counter_change self) m)
              by (destruct delta as [d|]; [destruct (negb (d =? 0))|]; pres)
        end.
        apply Hp. }
      destruct H as [(c & w1 & H1 & H2) | (e & H1 & ->)].
      * destruct (new_count_int _ _ _ _ _ _ H1) as (z & ->).
        apply (evolves_trans _ Ht _ w1); [apply (Hm _ _ H1)|].
        assert (Hp : preserves (counter_change self)
                       (set self depth _fs_count_file (VInt z) None true ;; ret tt)).
        { pose proof (preserves_count_write depth z None). pres. }
        apply (Hp _ _ _ H2).
      * apply (Hm _ _ H1).
Qed.

Lemma preserves_update_count_counter depth delta value :
  preserves (counter_change self) (_update_count self depth delta value).
Proof. apply preserves_count_ops_counter. Qed.

End CounterChange.

(* ===================================================================== *)
(** ** Reading and keeping the count, whatever the file system does *)
(* ===================================================================== *)

Lemma same_files_refl w : same_files w w.
Proof. repeat split. Qed.

Lemma same_files_trans w1 w2 w3 :
  same_files w1 w2 -> same_files w2 w3 -> same_files w1 w3.
Proof.
  intros (A1 & A2 & A3 & A4) (B1 & B2 & B3 & B4). repeat split; congruence.
Qed.

Lemma same_files_add_log r w : same_files w (add_log r w).
Proof. repeat split. Qed.

Lemma read_file_any p w r w1 :
  read_file p w = (r, w1) ->
  same_files w w1
  /\ (r = Raise OSError
      \/ r = match Dir.lookup p (w_files w) with
             | Some f => Return (f_data f)
             | None => Raise FileNotFoundError
             end).
Proof.
  unfold read_file. intros H. apply bind_inv in H.
  destruct H as [([] & w0 & H0 & H1) | (e & H0 & ->)].
  - destruct (syscall_same _ _ _ H0) as (Hf & Hrest).
    rewrite Hf in H1.
    destruct (Dir.lookup p (w_files w)); injection H1 as <- <-;
      (split; [repeat split; apply Hrest || exact Hf | right; reflexivity]).
  - split; [apply (syscall_same _ _ _ H0)|]. left.
    unfold syscall in H0. destruct (w_faults w) as [|[|] fs]; congruence.
Qed.

Section Quiet.

Context {codec : Codec}.
Variable self : FileSystemCacheMsgspec.

Local Abbreviation cfn := (_get_filename self _fs_count_file).

(** Reading a counter that holds [[0, n]]: the count, or nothing when
    the file system refuses; the directory stays as it is. *)
Lemma get_count_any depth f n w :
  Dir.lookup cfn (w_files w) = Some f ->
  _deserialize self (f_data f) = Return (VList [VInt 0; VInt n]) ->
  exists v w1,
    get self (S depth) _fs_count_file w = (Return v, w1)
    /\ same_files w w1 /\ (v = VInt n \/ v = VNone).
Proof.
  intros Hl Hd. rewrite get_S.
  remember (delete self depth _fs_count_file false) as del eqn:Edel.
  unfold try_except, bind at 1.
  destruct (read_file cfn w) as [r w1] eqn:E.
  destruct (read_file_any _ _ _ _ E) as (Hsame & [->| ->]).
  - cbn [is_FileNotFoundError]. unfold bind, logger_error, ret.
    eexists _, _. split; [reflexivity|]. split; [|right; reflexivity].
    apply (same_files_trans _ _ _ Hsame), same_files_add_log.
  - rewrite Hl. unfold bind, lift. rewrite Hd. cbn [unpack2].
    rewrite expired_run. cbn [stale Z.eqb negb andb]. unfold ret.
    eexists _, _. split; [reflexivity|]. split; [exact Hsame | left; reflexivity].
Qed.

Lemma get_count_none depth w :
  Dir.lookup cfn (w_files w) = None ->
  exists w1,
    get self (S depth) _fs_count_file w = (Return VNone, w1) /\ same_files w w1.
Proof.
  intros Hl. rewrite get_S.
  remember (delete self depth _fs_count_file false) as del eqn:Edel.
  unfold try_except, bind at 1.
  destruct (read_file cfn w) as [r w1] eqn:E.
  destruct (read_file_any _ _ _ _ E) as (Hsame & [->| ->]).
  - cbn [is_FileNotFoundError]. unfold bind, logger_error, ret.
    eexists. split; [reflexivity|].
    apply (same_files_trans _ _ _ Hsame), same_files_add_log.
  - rewrite Hl. cbn [is_FileNotFoundError]. unfold ret.
    eexists. split; [reflexivity | exact Hsame].
Qed.

(** What the cache reads as its count when no eviction is due: a number
    that is not above the threshold and whose successor can be stored. *)
Lemma get_count_quiet depth w :
  _threshold self <> 0 -> counter_quiet self (w_files w) ->
  exists n w1,
    get self (S depth) _fs_count_file w = (Return n, w1)
    /\ same_files w w1
    /\ exists z, py_or_zero n = VInt z /\ z <= _threshold self
         /\ exists data, _serialize self (VList [VInt 0; VInt (z + 1)]) = Return data.
Proof.
  intros Hnz [Hz|(Hpos & Hone & Hc)]; [contradiction|].
  assert (Hzero : exists z, py_or_zero VNone = VInt z /\ z <= _threshold self
            /\ exists data, _serialize self (VList [VInt 0; VInt (z + 1)]) = Return data).
  { exists 0. split; [reflexivity|]. split; [lia | exact Hone]. }
  destruct Hc as [Hl | (f & n & Hl & Hd & Hle & Hs)].
  - destruct (get_count_none depth w Hl) as (w1 & Hg & Hsame). eauto.
  - destruct (get_count_any depth f n w Hl Hd) as (v & w1 & Hg & Hsame & [->| ->]).
    + exists (VInt n), w1. split; [exact Hg|]. split; [exact Hsame|].
      exists n. rewrite py_or_zero_int. auto.
    + eauto.
Qed.

(** Then the eviction check passes and leaves the directory alone. *)
Lemma prune_quiet depth w :
  counter_quiet self (w_files w) ->
  exists wp, _prune self (S (S depth)) w = (Return tt, wp) /\ same_files w wp.
Proof.
  intros Hq. destruct (Z.eq_dec (_threshold self) 0) as [Hz|Hnz].
  - exists w. split; [apply prune_disabled; exact Hz | apply same_files_refl].
  - destruct (get_count_quiet depth w Hnz Hq)
      as (n & w1 & Hg & Hsame & z & Hz & Hle & _).
    rewrite prune_S. apply Z.eqb_neq in Hnz. rewrite Hnz.
    unfold bind at 1. unfold bind at 1. rewrite Hg.
    unfold bind at 1. rewrite Hz. unfold lift, py_gt_int. cbn [py_num].
    assert ((_threshold self <? z) = false) as -> by (apply Z.ltb_ge; exact Hle).
    cbn [negb ret]. exists w1. split; [reflexivity | exact Hsame].
Qed.

(** A management write returns once its record is encoded. *)
Lemma set_mgmt_returns depth key value timeout data w :
  _serialize self (VList [VInt 0; value]) = Return data ->
  exists b w', set self (S depth) key value timeout true w = (Return b, w').
Proof.
  intros Hs. rewrite set_S. unfold bind at 1. unfold ret at 1.
  unfold bind at 1. rewrite normalize_timeout_run, expiry_mgmt.
  unfold bind at 1. unfold lift at 1. rewrite Hs.
  unfold try_except_else.
  destruct (write_phase self _ _ data w) as [[b|e] w1].
  - cbn [negb andb]. unfold bind, ret. eauto.
  - unfold bind, logger_error, ret. eauto.
Qed.

(** And the count of a new entry is kept without an error. *)
Lemma update_count_quiet depth w :
  counter_quiet self (w_files w) ->
  exists w', _update_count self (S (S depth)) (Some 1) None w = (Return tt, w').
Proof.
  intros Hq. rewrite update_count_S.
  destruct (Z.eq_dec (_threshold self) 0) as [Hz|Hnz].
  - rewrite Hz. eexists. reflexivity.
  - destruct (get_count_quiet depth w Hnz Hq)
      as (n & w1 & Hg & Hsame & z & Hz & Hle & data & Hs).
    apply Z.eqb_neq in Hnz. rewrite Hnz. cbn [Z.eqb negb].
    unfold bind at 1. unfold bind at 1. rewrite Hg.
    rewrite Hz. unfold lift, py_add_int. cbn [py_num].
    destruct (set_mgmt_returns depth _fs_count_file (VInt (z + 1)) None data w1 Hs)
      as (b & w' & Hset).
    unfold bind. rewrite Hset. unfold ret. eauto.
Qed.

End Quiet.

(* ===================================================================== *)
(** ** What a [set] that returns [True] has stored *)
(* ===================================================================== *)

Section Stores.

Context {codec : Codec}.
Variable self : FileSystemCacheMsgspec.
Hypothesis WF : well_formed self.

Local Abbreviation cfn := (_get_filename self _fs_count_file).

Lemma regular_not_counter_path key :
  regular self key -> ~ counter_path self (_get_filename self key).
Proof.
  intros Hreg [Hq|Hq].
  - apply Hreg. apply (filename_inj self WF). exact Hq.
  - apply (filename_not_tmp self WF _ _ Hq).
Qed.

Lemma regular_not_counter key : regular self key -> _get_filename self key <> cfn.
Proof. intros Hreg Hq. apply Hreg. apply (filename_inj self WF). exact Hq. Qed.

(** Whatever the file system did on the way, a public [set] that returned
    [True] has left the record under the file of the key, for a key that
    is not the reserved one or a cache that does not count. *)
Lemma set_stores_any depth key value timeout w w' :
  regular self key \/ _threshold self = 0 ->
  set self depth key value timeout false w = (Return true, w') ->
  exists data mode,
    _serialize self (VList [VInt (expiry self timeout (w_now w)); value])
      = Return data
    /\ Dir.lookup (_get_filename self key) (w_files w') = Some (mkfile data mode)
    /\ w_now w' = w_now w.
Proof.
  intros Hcase H. destruct depth as [|depth]; [discriminate|].
  rewrite set_S in H.
  apply bind_inv in H. destruct H as [(t & w1 & H1 & H2) | (e & _ & He)];
    [|discriminate].
  apply bind_inv in H1. destruct H1 as [([] & wp & Hp & Hr) | (e & _ & He)];
    [|discriminate].
  injection Hr as <- <-.
  assert (Hevp : evolves any_change w wp).
  { apply (preserves_prune self any_change any_change_refl any_change_trans
             (any_free _) (any_free _) depth any_removable _ _ _ Hp). }
  pose proof (ev_now _ _ _ Hevp) as Hnowp.
  unfold bind at 1 in H2. rewrite normalize_timeout_run, Hnowp in H2.
  unfold bind at 1 in H2. unfold lift at 1 in H2.
  destruct (_serialize self _) as [data|e] eqn:Hs; [|discriminate].
  apply try_except_else_inv in H2.
  destruct H2 as [(b & w2 & Hw & Hk) | (e & w2 & Hw & Hh)];
    [|unfold bind, logger_error, ret in Hh; discriminate].
  destruct (write_phase_evolves self _ _ _ _ _ _ (tmp_neq _) Hw) as (Evw & Hret).
  destruct (Hret b eq_refl) as (_ & Hl2).
  apply bind_inv in Hk. destruct Hk as [([] & w3 & Hu & Hrt) | (e & _ & He)];
    [|discriminate].
  injection Hrt as <-.
  exists data, (final_mode self wp). split; [reflexivity|].
  cbn [negb andb] in Hu.
  assert (Hev3 : evolves (frame (counter_path self)) w2 w3
                 /\ (_threshold self = 0 -> w3 = w2)).
  { destruct b.
    - split.
      + apply (preserves_update_count self (frame (counter_path self))
                 (frame_refl _) (frame_trans _) (counter_free self)
                 (counter_tmp_free self) _ _ _ _ _ _ Hu).
      + intros Hz. destruct depth as [|depth]; [discriminate|].
        rewrite update_count_S, Hz in Hu. injection Hu as <-. reflexivity.
    - injection Hu as <-. split; [apply evolves_refl, frame_refl | reflexivity]. }
  destruct Hev3 as (Ev3 & Hz3). split.
  - destruct Hcase as [Hreg|Hz].
    + destruct (ev_files _ _ _ Ev3 (_get_filename self key)) as [Hq|Hq].
      * exfalso. exact (regular_not_counter_path key Hreg Hq).
      * rewrite Hq. exact Hl2.
    + rewrite (Hz3 Hz). exact Hl2.
  - rewrite (ev_now _ _ _ Ev3), (ev_now _ _ _ Evw). exact Hnowp.
Qed.

Lemma set_stored_record depth key value timeout w w' :
  regular self key \/ _threshold self = 0 \/ (fault_free w /\ counter_ok self w) ->
  set self depth key value timeout false w = (Return true, w') ->
  exists data mode,
    _serialize self (VList [VInt (expiry self timeout (w_now w)); value])
      = Return data
    /\ Dir.lookup (_get_filename self key) (w_files w') = Some (mkfile data mode).
Proof.
  intros Hcase Hset. destruct Hcase as [Hreg|[Hz|(Hff & Hc)]].
  - destruct (set_stores_any depth key value timeout w w'
                (or_introl Hreg) Hset) as (data & mode & Hs & Hl & _). eauto.
  - destruct (set_stores_any depth key value timeout w w'
                (or_intror Hz) Hset) as (data & mode & Hs & Hl & _). eauto.
  - destruct (set_stores self WF depth key value timeout w w' Hff Hc Hset)
      as (data & mode & Hs & Hl & _). eauto.
Qed.

(** An operation that respects [counter_change] keeps the counter file
    sound. *)
Lemma keeps_counter_of_preserves {A : Type} (m : io A) :
  preserves (counter_change self) m -> keeps_counter self m.
Proof.
  intros Hp w r w' Hs H.
  destruct (ev_files _ _ _ (Hp _ _ _ H) cfn) as [Hq|[Hq|[Hq|Hq]]].
  - contradiction (Hq eq_refl).
  - unfold counter_sound. rewrite Hq. exact Hs.
  - left. exact Hq.
  - right. exact Hq.
Qed.

Lemma preserves_get_counter depth key :
  preserves (counter_change self) (get self depth key).
Proof.
  apply (preserves_get_given self _ (counter_change_refl self)
           (counter_change_trans self) (preserves_update_count_counter self)).
  apply counter_change_removable.
Qed.

Lemma preserves_has_counter depth key :
  preserves (counter_change self) (has self depth key).
Proof.
  apply (preserves_has_given self _ (counter_change_refl self)
           (counter_change_trans self) (preserves_update_count_counter self)).
  apply counter_change_removable.
Qed.

Lemma preserves_delete_counter depth key m :
  preserves (counter_change self) (delete self depth key m).
Proof.
  apply (preserves_delete_given self _ (counter_change_refl self)
           (counter_change_trans self) (preserves_update_count_counter self)).
  apply counter_change_removable.
Qed.

Lemma preserves_set_counter depth key value timeout :
  regular self key ->
  preserves (counter_change self) (set self depth key value timeout false).
Proof.
  intros Hreg.
  apply (preserves_set_given self _ (counter_change_refl self)
           (counter_change_trans self) (preserves_update_count_counter self)
           (counter_change_removable self)).
  - apply counter_change_free, regular_not_counter, Hreg.
  - apply counter_change_free. intros Hq.
    symmetry in Hq. apply (filename_not_tmp self WF _ _ Hq).
Qed.

Lemma preserves_add_counter depth key value timeout :
  regular self key ->
  preserves (counter_change self) (add self depth key value timeout).
Proof.
  intros Hreg.
  apply (preserves_add_given self _ (counter_change_refl self)
           (counter_change_trans self) (preserves_update_count_counter self)
           (counter_change_removable self)).
  - apply counter_change_free, regular_not_counter, Hreg.
  - apply counter_change_free. intros Hq.
    symmetry in Hq. apply (filename_not_tmp self WF _ _ Hq).
Qed.

Lemma preserves_clear_counter depth :
  preserves (counter_change self) (clear self depth).
Proof.
  apply (preserves_clear_given self _ (counter_change_refl self)
           (counter_change_trans self) (preserves_update_count_counter self)
           (counter_change_removable self)).
Qed.

Lemma preserves_init_counter depth :
  preserves (counter_change self) (init self depth).
Proof.
  apply (preserves_init_given self _ (counter_change_refl self)
           (counter_change_trans self) (preserves_update_count_counter self)).
Qed.

End Stores.

(* ===================================================================== *)
(** ** The sample objects are in order *)
(* ===================================================================== *)

(** [hashlib.md5] on the test suite of RFC 1321, and the file name of the
    counter *)
Example md5_empty : MD5.hexdigest "" = "d41d8cd98f00b204e9800998ecf8427e".
Proof. vm_compute. reflexivity. Qed.

Example md5_abc : MD5.hexdigest "abc" = "900150983cd24fb0d6963f7d28e17f72".
Proof. vm_compute. reflexivity. Qed.

Example md5_digits :
  MD5.hexdigest
    "12345678901234567890123456789012345678901234567890123456789012345678901234567890"
  = "57edf4a22be3c955ac49da2e2107b67a".
Proof. vm_compute. reflexivity. Qed.

Example counter_filename :
  _get_filename cache0 _fs_count_file
  = "/tmp/cache/2029240f6d1128be89ddc32729463129".
Proof. vm_compute. reflexivity. Qed.

Lemma hexdigit_is_hex n : is_hex (MD5.hexdigit n) = true.
Proof.
  unfold MD5.hexdigit.
  assert (H : (Z.to_nat (n mod 16) < 16)%nat).
  { pose proof (Z.mod_pos_bound n 16). lia. }
  remember (Z.to_nat (n mod 16)) as k eqn:E. clear E.
  do 16 (destruct k as [|k]; [reflexivity|]). lia.
Qed.

Lemma md5_hex key : Str.all is_hex (MD5.hexdigest key) = true.
Proof.
  unfold MD5.hexdigest. destruct (MD5.digest key) as [[[a b] c] d].
  unfold MD5.hex_word, MD5.hex_byte. simpl.
  rewrite !hexdigit_is_hex. reflexivity.
Qed.

Lemma md5_nonempty key : MD5.hexdigest key <> "".
Proof.
  unfold MD5.hexdigest. destruct (MD5.digest key) as [[[a b] c] d].
  discriminate.
Qed.

Lemma cache0_wf : well_formed cache0.
Proof. split; [discriminate | apply md5_hex | apply md5_nonempty]. Qed.

Lemma cache_unbounded_wf : well_formed cache_unbounded.
Proof. split; [discriminate | apply md5_hex | apply md5_nonempty]. Qed.

Lemma cache_small_wf : well_formed cache_small.
Proof. split; [discriminate | apply md5_hex | apply md5_nonempty]. Qed.

(* ===================================================================== *)
(** ** Expiry *)
(* ===================================================================== *)

Lemma stale_true e now :
  e <> 0 -> (inject_Z e < now)%Q -> stale e now = true.
Proof.
  intros He Hlt. unfold stale, Qltb.
  apply Z.eqb_neq in He. rewrite He. simpl.
  destruct (Qle_bool now (inject_Z e)) eqn:E; [|reflexivity].
  apply Qle_bool_iff in E. exfalso. apply (Qlt_not_le _ _ Hlt E).
Qed.

Lemma stale_false e now :
  ~ (e <> 0 /\ (inject_Z e < now)%Q) -> stale e now = false.
Proof.
  intros H. unfold stale, Qltb.
  destruct (Z.eqb_spec e 0) as [|He]; [reflexivity|]. simpl.
  destruct (Qle_bool now (inject_Z e)) eqn:E; [reflexivity|].
  exfalso. apply H. split; [assumption|].
  apply Qnot_le_lt. intros Hle. apply Qle_bool_iff in Hle. congruence.
Qed.

Lemma stale_zero now : stale 0 now = false.
Proof. reflexivity. Qed.

Lemma not_yet_not_stale e now :
  e = 0 \/ (now <= inject_Z e)%Q -> ~ (e <> 0 /\ (inject_Z e < now)%Q).
Proof.
  intros [He|Hle] [Hn Hlt]; [contradiction|].
  apply (Qlt_not_le _ _ Hlt Hle).
Qed.

Section Claims.

Context {codec : Codec}.
Variable self : FileSystemCacheMsgspec.
Hypothesis WF : well_formed self.

Local Abbreviation cfn := (_get_filename self _fs_count_file).

(** A successful [set] and then [get], whatever the key: the core shared
    by the round trip, the never-expiring entry and [add]. *)
Lemma set_then_get depth depth' key value timeout w w' now' :
  fault_free w -> counter_ok self w ->
  set self depth key value timeout false w = (Return true, w') ->
  serializable self (VList [VInt (expiry self timeout (w_now w)); value]) ->
  stale (expiry self timeout (w_now w)) now' = false ->
  get self (S depth') key (set_now now' w') = (Return value, set_now now' w').
Proof.
  intros Hff Hc Hset (data0 & Hs0 & Hd0) Hst.
  destruct (set_stores self WF depth key value timeout w w' Hff Hc Hset)
    as (data & mode & Hs & Hl & Hff' & Hnow').
  assert (data0 = data) by congruence. subst data0.
  eapply get_live.
  - exact Hff'.
  - exact Hl.
  - exact Hd0.
  - exact Hst.
Qed.

(** A successful [set] of a record the codec reads back, and then [get]:
    the value, whatever happened on the way of the [set]. *)
Lemma set_then_get_any depth depth' key value timeout w w' now' :
  fault_free w' ->
  regular self key \/ _threshold self = 0 \/ (fault_free w /\ counter_ok self w) ->
  set self depth key value timeout false w = (Return true, w') ->
  reads_back self (VList [VInt (expiry self timeout (w_now w)); value]) ->
  stale (expiry self timeout (w_now w)) now' = false ->
  get self (S depth') key (set_now now' w') = (Return value, set_now now' w').
Proof.
  intros Hff' Hcase Hset Hrb Hst.
  destruct (set_stored_record self WF depth key value timeout w w' Hcase Hset)
    as (data & mode & Hs & Hl).
  eapply get_live.
  - exact Hff'.
  - exact Hl.
  - apply (deserialize_serialized self _ _ Hrb Hs).
  - exact Hst.
Qed.

(** Claim C4, as amended.  Round trip: after a [set(k, v)] that returned
    [True], whatever the file system did on its way, [get(k)] on a file
    system that does not fail, at any time that is not past the stored
    expiry, returns [v] and changes nothing.  This holds for every value
    whose record the codec reads back as it was written, and for every
    key that is not the reserved one; for the reserved key it holds when
    the cache does not count, or when the counter file held a count as
    the [set] started. *)
Theorem set_get_roundtrip depth depth' key value timeout w w' now' :
  fault_free w' ->
  regular self key \/ _threshold self = 0 \/ (fault_free w /\ counter_ok self w) ->
  set self depth key value timeout false w = (Return true, w') ->
  reads_back self (VList [VInt (expiry self timeout (w_now w)); value]) ->
  (expiry self timeout (w_now w) = 0
   \/ (now' <= inject_Z (expiry self timeout (w_now w)))%Q) ->
  get self (S depth') key (set_now now' w') = (Return value, set_now now' w').
Proof.
  intros Hff' Hcase Hset Hrb Hexp.
  eapply set_then_get_any; eauto.
  apply stale_false, not_yet_not_stale, Hexp.
Qed.

(** Claim C7, as amended.  [add] writes only when the file of the key
    does not exist: after an [add(k, v1)] that returned [True], a second
    [add(k, v2)] returns [False] and changes nothing, and [get(k)] (not
    past the expiry of the first entry) still returns [v1], for every
    value whose record the codec reads back as it was written and every
    key that is not the reserved one, or any key when the cache does not
    count. *)
Theorem add_keeps_first depth depth2 depth3 key v1 v2 t1 t2 w w1 now2 now3 :
  fault_free w1 ->
  regular self key \/ _threshold self = 0 ->
  add self depth key v1 t1 w = (Return true, w1) ->
  reads_back self (VList [VInt (expiry self t1 (w_now w)); v1]) ->
  (expiry self t1 (w_now w) = 0
   \/ (now3 <= inject_Z (expiry self t1 (w_now w)))%Q) ->
  Dir.mem (_get_filename self key) (w_files w) = false
  /\ add self depth2 key v2 t2 (set_now now2 w1) = (Return false, set_now now2 w1)
  /\ get self (S depth3) key (set_now now3 (set_now now2 w1))
     = (Return v1, set_now now3 (set_now now2 w1)).
Proof.
  intros Hff1 Hcase Hadd Hrb Hexp.
  unfold add in Hadd. unfold bind, os_path_exists in Hadd.
  destruct (Dir.mem (_get_filename self key) (w_files w)) eqn:Hm;
    simpl in Hadd; [discriminate|].
  split; [reflexivity|].
  destruct (set_stores_any self WF depth key v1 t1 w w1 Hcase Hadd)
    as (data & mode & Hs & Hl & Hnow').
  split.
  - unfold add, bind, os_path_exists. simpl.
    unfold Dir.mem. rewrite Hl. reflexivity.
  - apply (set_then_get_any depth depth3 key v1 t1 w w1 now3 Hff1).
    + destruct Hcase as [H|H]; auto.
    + exact Hadd.
    + exact Hrb.
    + apply stale_false, not_yet_not_stale, Hexp.
Qed.

(** Claim C6.  Expiry semantics of [get], for a key whose file decodes to
    [(e, v)]: when [e] is not 0 and lies before the clock, [get] returns
    no value and removes the file (the removal shows in the trace; the
    file stays away unless it is the counter file, which the count update
    that follows writes anew); otherwise [get] returns [v] and changes
    nothing.  An expiry of 0 is returned at every time; [timeout=0] is
    stored as expiry 0 whatever the clock and the default timeout, and an
    entry so stored is returned at every later time. *)
Theorem get_expiry_semantics depth key f e v w :
  fault_free w ->
  Dir.lookup (_get_filename self key) (w_files w) = Some f ->
  _deserialize self (f_data f) = Return (VList [VInt e; v]) ->
  ((e <> 0 /\ (inject_Z e < w_now w)%Q) ->
     exists w',
       get self (S (S depth)) key w = (Return VNone, w')
       /\ In (Dir.erase (_get_filename self key) (w_files w)) (w_trace w')
       /\ (_get_filename self key <> cfn ->
           Dir.lookup (_get_filename self key) (w_files w') = None))
  /\ (~ (e <> 0 /\ (inject_Z e < w_now w)%Q) ->
      get self (S depth) key w = (Return v, w))
  /\ (e = 0 -> forall now',
      get self (S depth) key (set_now now' w) = (Return v, set_now now' w))
  /\ (forall now', expiry self (Some 0%Q) now' = 0)
  /\ (forall d value w0 w1 now',
        fault_free w0 -> counter_ok self w0 ->
        set self d key value (Some 0%Q) false w0 = (Return true, w1) ->
        serializable self (VList [VInt 0; value]) ->
        get self (S depth) key (set_now now' w1) = (Return value, set_now now' w1)).
Proof.
  intros Hff Hl Hd. repeat apply conj.
  - intros [He Hlt].
    pose proof (stale_true e (w_now w) He Hlt) as Hst.
    rewrite (get_stale self depth key f e v w Hff Hl Hd Hst).
    assert (Hm : Dir.mem (_get_filename self key) (w_files w) = true).
    { apply mem_true. eauto. }
    destruct (delete_hit self depth key w Hff Hm) as (b & w' & Hdel & Hev).
    rewrite Hdel. simpl. exists w'. split; [reflexivity|].
    destruct (ev_trace _ _ _ Hev) as (new & Htr & _).
    split.
    + rewrite Htr. apply in_or_app. right. left. reflexivity.
    + intros Hne.
      destruct (ev_files _ _ _ Hev (_get_filename self key)) as [[Hq|Hq]|Hq].
      * contradiction.
      * exfalso. apply (filename_not_tmp self WF _ _ Hq).
      * rewrite Hq. simpl. apply lookup_erase_eq.
  - intros Hn. eapply get_live; eauto. apply stale_false, Hn.
  - intros -> now'. eapply get_live; eauto.
  - intros now'. reflexivity.
  - intros d value w0 w1 now' Hff0 Hc0 Hset Hser.
    eapply set_then_get; eauto.
Qed.

(** Claim C10, as amended.  A write with the management flag, which is
    how the cache writes its counter, stores expiry 0 whatever timeout is
    passed and whatever the default timeout of the cache.  No operation
    of the cache puts anything else into the counter file, whatever the
    file system does, as long as the reserved key is not the key of a
    public [set] or [add]: a counter file that is absent or holds a
    count with expiry 0 is so afterwards.  Such a count is read at every
    time: the read returns it, or nothing when the file system refuses,
    and never removes the file. *)
Theorem counter_never_expires depth :
  (forall key value timeout w r w',
      set self depth key value timeout true w = (Return r, w') ->
      exists data,
        _serialize self (VList [VInt 0; value]) = Return data
        /\ (r = true ->
            exists mode,
              Dir.lookup (_get_filename self key) (w_files w')
              = Some (mkfile data mode)))
  /\ (forall delta value, keeps_counter self (_update_count self depth delta value))
  /\ keeps_counter self (init self depth)
  /\ keeps_counter self (clear self depth)
  /\ (forall key,
        keeps_counter self (get self depth key)
        /\ keeps_counter self (has self depth key)
        /\ forall m, keeps_counter self (delete self depth key m))
  /\ (forall key value timeout,
        regular self key ->
        keeps_counter self (set self depth key value timeout false)
        /\ keeps_counter self (add self depth key value timeout))
  /\ (forall n data mode w now',
        Dir.lookup cfn (w_files w) = Some (mkfile data mode) ->
        _serialize self (VList [VInt 0; VInt n]) = Return data ->
        reads_back self (VList [VInt 0; VInt n]) ->
        (exists v w1,
            get self (S depth) _fs_count_file (set_now now' w) = (Return v, w1)
            /\ same_files (set_now now' w) w1
            /\ (v = VInt n \/ v = VNone))
        /\ (fault_free w ->
            get self (S depth) _fs_count_file (set_now now' w)
            = (Return (VInt n), set_now now' w))).
Proof.
  split; [|split; [|split; [|split; [|split; [|split]]]]].
  - intros key value timeout w r w' H.
    destruct depth as [|depth']; [discriminate|].
    rewrite set_S in H. unfold bind at 1 in H. unfold ret at 1 in H.
    unfold bind at 1 in H. rewrite normalize_timeout_run, expiry_mgmt in H.
    unfold bind at 1 in H. unfold lift at 1 in H.
    destruct (_serialize self (VList [VInt 0; value])) as [data|e] eqn:Hs;
      [|discriminate].
    exists data. split; [reflexivity|]. intros ->.
    apply try_except_else_inv in H.
    destruct H as [(b & w2 & Hw & Hk) | (e & w2 & Hw & Hh)];
      [|unfold bind, logger_error, ret in Hh; discriminate].
    destruct (write_phase_evolves self _ _ _ _ _ _ (tmp_neq _) Hw) as (_ & Hret).
    destruct (Hret b eq_refl) as (_ & Hl2).
    cbn [negb andb] in Hk. unfold bind, ret in Hk. injection Hk as <-.
    eauto.
  - intros delta value. apply keeps_counter_of_preserves.
    apply preserves_update_count_counter.
  - apply keeps_counter_of_preserves, preserves_init_counter.
  - apply keeps_counter_of_preserves, preserves_clear_counter.
  - intros key. split; [|split; [|intros m]]; apply keeps_counter_of_preserves.
    + apply preserves_get_counter.
    + apply preserves_has_counter.
    + apply preserves_delete_counter.
  - intros key value timeout Hreg. split; apply keeps_counter_of_preserves.
    + apply (preserves_set_counter self WF); exact Hreg.
    + apply (preserves_add_counter self WF); exact Hreg.
  - intros n data mode w now' Hl Hs Hrb.
    pose proof (deserialize_serialized self _ _ Hrb Hs) as Hd.
    split.
    + apply (get_count_any self depth (mkfile data mode) n (set_now now' w) Hl Hd).
    + intros Hff.
      apply (get_live self depth _fs_count_file (mkfile data mode) 0 (VInt n)
               (set_now now' w) Hff Hl Hd). reflexivity.
Qed.

End Claims.

Lemma world1_fault_free : fault_free world1.
Proof. vm_compute. reflexivity. Qed.

Lemma world1_counter_ok : counter_ok cache0 world1.
Proof.
  right. eexists _, _.
  split; [vm_compute; reflexivity | vm_compute; reflexivity].
Qed.

Lemma world2_fault_free : fault_free world2.
Proof. vm_compute. reflexivity. Qed.

Lemma regular_k : regular cache0 "k".
Proof. vm_compute. discriminate. Qed.

(** The reference codec reads back a record that computes to itself. *)
Lemma reads_back_computed (self : FileSystemCacheMsgspec) (obj : pyval) :
  compress self = false ->
  obind (Msgpack.encode obj) Msgpack.decode = Return obj ->
  reads_back self obj.
Proof.
  intros Hc H packed He. cbn [msgpack_encode RefCodec] in He.
  rewrite He in H. split; [exact H|]. rewrite Hc. discriminate.
Qed.

(** Claim C4 as stated fails, in two ways.  A tuple is a value the codec
    takes, and [get] returns a list.  And the reserved key names the file
    of the counter: in a directory without counter file (the write of the
    constructor was refused) the [set] of 7 under it counts its own file as
    a new entry, and [get] returns the count 8. *)
Lemma roundtrip_returns_another_value :
  result (set cache0 depth0 "k" (VTuple [VInt 1; VInt 2]) None false) world1
  = Return true
  /\ result (get cache0 depth0 "k") world_tuple = Return (VList [VInt 1; VInt 2])
  /\ w_files world_uncounted = []
  /\ result (set cache0 depth0 "__wz_cache_count" (VInt 7) None false) world_uncounted
     = Return true
  /\ result (get cache0 depth0 "__wz_cache_count") world_reserved_counted
     = Return (VInt 8).
Proof. repeat split; vm_compute; reflexivity. Qed.

(** The round trip on the default cache: ["v"] stored under ["k"] is read
    back a hundred seconds later. *)
Lemma set_get_roundtrip_witness :
  get cache0 1 "k" (set_now 1700000100 world2)
  = (Return (VStr "v"), set_now 1700000100 world2).
Proof.
  apply (set_get_roundtrip cache0 cache0_wf depth0 0 "k" (VStr "v") None
           world1 world2 1700000100).
  - vm_compute. reflexivity.
  - left. exact regular_k.
  - vm_compute. reflexivity.
  - apply reads_back_computed; vm_compute; reflexivity.
  - right. vm_compute. discriminate.
Defined.

(** Claim C7 as stated fails in the same two ways: after
    [add("__wz_cache_count", 7)] in a directory without counter file the
    second [add] is refused, and [get] returns the count 8; after
    [add("k", (1, 2))], [get] returns the list [[1, 2]]. *)
Lemma add_then_get_returns_another_value :
  result (add cache0 depth0 "__wz_cache_count" (VInt 7) None) world_uncounted
  = Return true
  /\ result (add cache0 depth0 "__wz_cache_count" (VInt 9) None) world_reserved_added
     = Return false
  /\ result (get cache0 depth0 "__wz_cache_count") world_reserved_added
     = Return (VInt 8)
  /\ result (add cache0 depth0 "k" (VTuple [VInt 1; VInt 2]) None) world1
     = Return true
  /\ result (get cache0 depth0 "k") world_tuple_added
     = Return (VList [VInt 1; VInt 2]).
Proof. repeat split; vm_compute; reflexivity. Qed.

(** Two [add]s of the key ["k"] on the default cache: the second one is
    refused and the first value is read back. *)
Lemma add_keeps_first_witness :
  Dir.mem (_get_filename cache0 "k") (w_files world1) = false
  /\ add cache0 depth0 "k" (VStr "second") None (set_now 1700000010 world_added)
     = (Return false, set_now 1700000010 world_added)
  /\ get cache0 1 "k" (set_now 1700000020 (set_now 1700000010 world_added))
     = (Return (VStr "first"), set_now 1700000020 (set_now 1700000010 world_added)).
Proof.
  apply (add_keeps_first cache0 cache0_wf depth0 depth0 0 "k" (VStr "first")
           (VStr "second") None None world1 world_added 1700000010 1700000020).
  - vm_compute. reflexivity.
  - left. exact regular_k.
  - vm_compute. reflexivity.
  - apply reads_back_computed; vm_compute; reflexivity.
  - right. vm_compute. discriminate.
Defined.

(** The three cases on the default cache: an entry read after its expiry,
    one read before it, and one stored with [timeout=0] read years
    later. *)
Lemma get_expiry_semantics_witness :
  (exists w',
      get cache0 2 "k" world_later = (Return VNone, w')
      /\ In (Dir.erase (_get_filename cache0 "k") (w_files world_later)) (w_trace w')
      /\ (_get_filename cache0 "k" <> _get_filename cache0 _fs_count_file ->
          Dir.lookup (_get_filename cache0 "k") (w_files w') = None))
  /\ get cache0 1 "k" world2 = (Return (VStr "v"), world2)
  /\ get cache0 1 "k" (set_now 2000000000 world_forever)
     = (Return (VStr "v"), set_now 2000000000 world_forever).
Proof.
  assert (Hl : Dir.lookup (_get_filename cache0 "k") (w_files world2) = Some file_k)
    by (vm_compute; reflexivity).
  assert (Hd : _deserialize cache0 (f_data file_k)
               = Return (VList [VInt 1700000300; VStr "v"]))
    by (vm_compute; reflexivity).
  assert (Hff2 : fault_free world2) by (vm_compute; reflexivity).
  assert (Hffl : fault_free world_later) by (vm_compute; reflexivity).
  assert (Hll : Dir.lookup (_get_filename cache0 "k") (w_files world_later)
                = Some file_k) by (vm_compute; reflexivity).
  split; [|split].
  - destruct (get_expiry_semantics cache0 cache0_wf 0 "k" file_k 1700000300
                (VStr "v") world_later Hffl Hll Hd) as (H & _).
    apply H. split; [discriminate | vm_compute; reflexivity].
  - destruct (get_expiry_semantics cache0 cache0_wf 0 "k" file_k 1700000300
                (VStr "v") world2 Hff2 Hl Hd) as (_ & H & _).
    apply H. intros [_ G]. vm_compute in G. discriminate.
  - destruct (get_expiry_semantics cache0 cache0_wf 0 "k" file_k 1700000300
                (VStr "v") world2 Hff2 Hl Hd) as (_ & _ & _ & _ & H).
    apply (H depth0 (VStr "v") world1 world_forever 2000000000%Q).
    + exact world1_fault_free.
    + exact world1_counter_ok.
    + vm_compute. reflexivity.
    + eexists. split; [vm_compute; reflexivity | vm_compute; reflexivity].
Defined.

(** Claim C10 as stated fails: a public [set("__wz_cache_count", 5)]
    writes the counter file with the expiry of an ordinary entry; a
    thousand seconds later the read of the count finds it expired, removes
    it, and the count is lost: the read returns 0 and leaves [[0, -1]]. *)
Lemma public_write_lets_counter_expire :
  result (set cache0 depth0 "__wz_cache_count" (VInt 5) None false) world1
  = Return true
  /\ stored cache0 _fs_count_file (w_files world_public_count)
     = Return (VList [VInt 1700000300; VInt 5])
  /\ result (_file_count cache0 depth0) (set_now 1700001000 world_public_count)
     = Return (VInt 0)
  /\ In (Dir.erase (_get_filename cache0 _fs_count_file) (w_files world_public_count))
        (w_trace world_count_expired)
  /\ stored cache0 _fs_count_file (w_files world_count_expired)
     = Return (VList [VInt 0; VInt (-1)]).
Proof.
  split; [vm_compute; reflexivity|]. split; [vm_compute; reflexivity|].
  split; [vm_compute; reflexivity|]. split; [|vm_compute; reflexivity].
  vm_compute. do 4 right. left. reflexivity.
Qed.

(** On the default cache: [set("k", "v")] keeps the counter file sound,
    and the count it leaves is read years later. *)
Lemma counter_never_expires_witness :
  counter_sound cache0 (w_files world2)
  /\ get cache0 (S depth0) _fs_count_file (set_now 2000000000 world2)
     = (Return (VInt 1), set_now 2000000000 world2).
Proof.
  destruct (counter_never_expires cache0 cache0_wf depth0)
    as (_ & _ & _ & _ & _ & Hset & Hread).
  split.
  - destruct (Hset "k" (VStr "v") None regular_k) as (H & _).
    apply (H world1 (Return true) world2).
    + right. exists 0, (record_of cache0 (VList [VInt 0; VInt 0])), 384.
      split; vm_compute; reflexivity.
    + vm_compute. reflexivity.
  - destruct (Hread 1 (record_of cache0 (VList [VInt 0; VInt 1])) 384 world2
                2000000000%Q) as (_ & H).
    + vm_compute. reflexivity.
    + vm_compute. reflexivity.
    + apply reads_back_computed; vm_compute; reflexivity.
    + apply H. exact world2_fault_free.
Defined.

Section Claims2.

Context {codec : Codec}.
Variable self : FileSystemCacheMsgspec.

Local Abbreviation cfn := (_get_filename self _fs_count_file).

(** What [get] returns is read off the file of the key. *)
Lemma get_reads_own_file depth key w :
  fault_free w ->
  fst (get self (S depth) key w)
  = Return (read_value self (w_now w)
              (Dir.lookup (_get_filename self key) (w_files w))).
Proof.
  intros Hff. rewrite get_S.
  remember (delete self depth key false) as del eqn:Edel.
  unfold try_except, bind at 1.
  destruct (Dir.lookup (_get_filename self key) (w_files w)) as [f|] eqn:Hl.
  - rewrite (read_file_hit _ _ _ Hff Hl). unfold read_value, bind, lift.
    destruct (_deserialize self (f_data f)) as [obj|e]; simpl;
      [|destruct (is_FileNotFoundError e); reflexivity].
    destruct (unpack2 obj) as [[expires value]|e]; simpl;
      [|destruct (is_FileNotFoundError e); reflexivity].
    unfold expired. destruct (py_ne_zero expires); simpl.
    + destruct (py_lt expires (w_now w)) as [[|]|e]; simpl.
      * destruct (del w) as [[b|e] w1]; simpl; [reflexivity|].
        destruct (is_FileNotFoundError e); reflexivity.
      * reflexivity.
      * destruct (is_FileNotFoundError e); reflexivity.
    + reflexivity.
  - rewrite (read_file_miss _ _ Hff Hl). reflexivity.
Qed.

(** Claim C9, as amended.  The counter is an ordinary entry stored under
    the reserved key.  What [get] returns depends on the file of the key
    it is given and on the clock only, so a key whose file is not the
    counter file never shows the counter: changing the counter file
    changes no result.  The reserved string itself, passed by a caller,
    does reach the counter: [get] returns the stored count.  [delete]
    changes no path but the file of its key and those of the counter,
    which the count update writes; [set] changes no path but the file of
    its key, its temporary file, those of the counter, and the entries
    the eviction removes. *)
Theorem counter_reached_by_reserved_key_only depth :
  (forall key w w2,
      fault_free w -> fault_free w2 -> w_now w2 = w_now w ->
      _get_filename self key <> cfn ->
      (forall q, q <> cfn -> Dir.lookup q (w_files w2) = Dir.lookup q (w_files w)) ->
      fst (get self (S depth) key w2) = fst (get self (S depth) key w))
  /\ (forall f n w,
      fault_free w ->
      Dir.lookup cfn (w_files w) = Some f ->
      _deserialize self (f_data f) = Return (VList [VInt 0; VInt n]) ->
      get self (S depth) "__wz_cache_count" w = (Return (VInt n), w))
  /\ (forall key m w r w' q,
      delete self depth key m w = (r, w') ->
      q <> _get_filename self key -> ~ counter_path self q ->
      Dir.lookup q (w_files w') = Dir.lookup q (w_files w))
  /\ (forall key value timeout m w r w' q,
      set self depth key value timeout m w = (r, w') ->
      q <> _get_filename self key -> q <> _get_filename self key ++ ".__tmp" ->
      ~ counter_path self q ->
      Dir.lookup q (w_files w') = Dir.lookup q (w_files w)
      \/ Dir.lookup q (w_files w') = None).
Proof.
  split; [|split; [|split]].
  - intros key w w2 Hff Hff2 Hnow Hne Hsame.
    rewrite !get_reads_own_file by assumption.
    rewrite Hnow, (Hsame _ Hne). reflexivity.
  - intros f n w Hff Hl Hd. eapply get_live; eauto.
  - intros key m w r w' q Hdel Hq Hncp.
    set (S := fun q => q = _get_filename self key \/ counter_path self q).
    assert (Hev : evolves (frame S) w w').
    { apply (preserves_delete self (frame S) (frame_refl _) (frame_trans _))
        with (depth := depth) (key := key) (m := m) (r := r); try exact Hdel.
      - intros a b. left. right. left. reflexivity.
      - intros a b. left. right. right. reflexivity.
      - intros a. left. left. reflexivity. }
    destruct (ev_files _ _ _ Hev q) as [[Hs|Hs]|Hs];
      [contradiction | contradiction | exact Hs].
  - intros key value timeout m w r w' q Hset Hq Hqt Hncp.
    set (S := fun q => q = _get_filename self key
                       \/ q = _get_filename self key ++ ".__tmp"
                       \/ counter_path self q).
    assert (Hev : evolves (shrink S) w w').
    { apply (preserves_set self (shrink S) (shrink_refl _) (shrink_trans _))
        with (depth := depth) (key := key) (value := value) (timeout := timeout)
             (m := m) (r := r); try exact Hset.
      - intros a b. left. right. right. left. reflexivity.
      - intros a b. left. right. right. right. reflexivity.
      - intros p a. right. right. reflexivity.
      - intros a b. left. left. reflexivity.
      - intros a b. left. right. left. reflexivity. }
    destruct (ev_files _ _ _ Hev q) as [[Hs|[Hs|Hs]]|Hs];
      [contradiction | contradiction | contradiction | exact Hs].
Qed.

Hypothesis WF : well_formed self.

Lemma counter_quiet_same d d' :
  Dir.lookup cfn d' = Dir.lookup cfn d ->
  counter_quiet self d -> counter_quiet self d'.
Proof.
  intros E [Hz|(Hpos & Hone & Hc)]; [left; exact Hz|].
  right. split; [exact Hpos|]. split; [exact Hone|]. rewrite E. exact Hc.
Qed.

(** What stands outside the [try] of [set]: the eviction check, the
    serialization, and the count of a new entry.  An error that [set]
    raises is the error of one of the three. *)
Lemma set_raise_origin depth key value timeout (mgmt : bool) w e w' :
  set self (S depth) key value timeout mgmt w = (Raise e, w') ->
  (mgmt = false /\ _prune self depth w = (Raise e, w'))
  \/ _serialize self
       (VList [VInt (expiry self (if mgmt then Some 0%Q else timeout) (w_now w));
               value]) = Raise e
  \/ (mgmt = false
      /\ exists w2, _update_count self depth (Some 1) None w2 = (Raise e, w')).
Proof.
  intros H. rewrite set_S in H. apply bind_inv in H.
  destruct H as [(t & wp & H1 & H2) | (e1 & H1 & He)].
  - assert (Ht : t = (if mgmt then Some 0%Q else timeout) /\ w_now wp = w_now w).
    { destruct mgmt; [injection H1 as <- <-; auto|].
      apply bind_inv in H1. destruct H1 as [([] & w1 & Hp & Hr) | (e1 & _ & He)];
        [|discriminate].
      injection Hr as <- <-. split; [reflexivity|].
      apply (ev_now any_change).
      apply (preserves_prune self any_change any_change_refl any_change_trans
               (any_free _) (any_free _) depth any_removable _ _ _ Hp). }
    destruct Ht as (-> & Hnow).
    unfold bind at 1 in H2. rewrite normalize_timeout_run, Hnow in H2.
    unfold bind at 1 in H2. unfold lift at 1 in H2.
    destruct (_serialize self _) as [data|e1] eqn:Hs.
    + apply try_except_else_inv in H2.
      destruct H2 as [(b & w2 & Hw & Hk) | (e1 & w2 & Hw & Hh)];
        [|unfold bind, logger_error, ret in Hh; discriminate].
      apply bind_inv in Hk. destruct Hk as [([] & w3 & _ & Hr) | (e1 & Hu & He)];
        [discriminate|].
      injection He as <-. right. right.
      destruct mgmt; [discriminate|]. destruct b; [|discriminate].
      split; [reflexivity|]. eauto.
    + injection H2 as <- <-. right. left. reflexivity.
  - injection He as <-. left. destruct mgmt; [discriminate|].
    split; [reflexivity|].
    apply bind_inv in H1. destruct H1 as [([] & w1 & Hp & Hr) | (e2 & Hp & He)];
      [discriminate|].
    injection He as <-. exact Hp.
Qed.

(** Claim C1, as amended.  [set] catches every error of its write phase,
    whatever the file system does: an error while the temporary file is
    written, the target removed or replaced or its mode set is logged and
    reported as [False], and when the write phase goes through the answer
    is [True].  What [set] can raise, in every state and under every
    schedule of failures, is only what stands outside the [try]: the
    error of the eviction check of a public [set], of the serialization,
    or of the count of a new entry.  So [set] returns a boolean under
    every schedule of failures when the value serializes and, for a
    public [set] on a cache that counts, the key is not the reserved one
    and no eviction is due ([counter_quiet]).  [wp] is the world in which
    the write phase starts: the one the eviction check leaves, which
    differs from [w] in the fault schedule and the log only. *)
Theorem set_catches_write_errors depth key value timeout (mgmt : bool) w :
  (forall e w',
      set self (S (S (S depth))) key value timeout mgmt w = (Raise e, w') ->
      (mgmt = false /\ _prune self (S (S depth)) w = (Raise e, w'))
      \/ _serialize self
           (VList [VInt (expiry self (if mgmt then Some 0%Q else timeout) (w_now w));
                   value]) = Raise e
      \/ (mgmt = false
          /\ exists w2,
               _update_count self (S (S depth)) (Some 1) None w2 = (Raise e, w')))
  /\ forall data,
  _serialize self
    (VList [VInt (expiry self (if mgmt then Some 0%Q else timeout) (w_now w));
            value]) = Return data ->
  mgmt = true \/ _threshold self = 0
  \/ (regular self key /\ counter_quiet self (w_files w)) ->
  let wp := if mgmt then w else after (_prune self (S (S depth))) w in
  same_files w wp
  /\ (forall e w1,
        write_phase self (_get_filename self key)
          (_get_filename self key ++ ".__tmp") data wp = (Raise e, w1) ->
        set self (S (S (S depth))) key value timeout mgmt w
        = (Return false, add_log (LogError "set" key e) w1))
  /\ (forall b w1,
        write_phase self (_get_filename self key)
          (_get_filename self key ++ ".__tmp") data wp = (Return b, w1) ->
        exists w',
          set self (S (S (S depth))) key value timeout mgmt w = (Return true, w'))
  /\ exists b w',
       set self (S (S (S depth))) key value timeout mgmt w = (Return b, w').
Proof.
  split; [intros e w'; apply set_raise_origin|].
  intros data Hs Hcase wp.
  (* what stands before the [try] *)
  assert (Hfirst :
    (if mgmt then ret (Some 0%Q) else (_prune self (S (S depth)) ;; ret timeout)) w
    = (Return (if mgmt then Some 0%Q else timeout), wp)
    /\ same_files w wp).
  { subst wp. destruct mgmt; [split; [reflexivity | apply same_files_refl]|].
    assert (Hq : counter_quiet self (w_files w)).
    { destruct Hcase as [|[Hz|(_ & Hq)]]; [discriminate | left; exact Hz | exact Hq]. }
    destruct (prune_quiet self depth w Hq) as (wp & Hp & Hsame).
    unfold after, bind. rewrite Hp. split; [reflexivity | exact Hsame]. }
  destruct Hfirst as (Hfirst & Hsame).
  assert (Hnow : w_now wp = w_now w) by apply Hsame.
  (* the count after the write *)
  assert (Helse : forall b w1,
    write_phase self (_get_filename self key)
      (_get_filename self key ++ ".__tmp") data wp = (Return b, w1) ->
    exists w',
      (if negb mgmt && b then _update_count self (S (S depth)) (Some 1) None
       else ret tt) w1 = (Return tt, w')).
  { intros b w1 Hw. destruct mgmt; [eexists; reflexivity|].
    destruct b; [|eexists; reflexivity]. cbn [negb andb].
    apply update_count_quiet.
    destruct Hcase as [|[Hz|(Hreg & Hq)]]; [discriminate | left; exact Hz |].
    destruct (write_phase_evolves self _ _ _ _ _ _ (tmp_neq _) Hw) as (Ev & _).
    apply (counter_quiet_same (w_files wp)).
    - destruct (ev_files _ _ _ Ev cfn) as [Hq1|[(Hq1 & _)|Hq1]].
      + exfalso. apply (filename_not_tmp self WF _ _ Hq1).
      + exfalso. symmetry in Hq1.
        apply (regular_not_counter self WF key Hreg Hq1).
      + exact Hq1.
    - apply (counter_quiet_same (w_files w)); [|exact Hq].
      destruct Hsame as (-> & _). reflexivity. }
  assert (Hrun : forall r w1,
    write_phase self (_get_filename self key)
      (_get_filename self key ++ ".__tmp") data wp = (r, w1) ->
    set self (S (S (S depth))) key value timeout mgmt w
    = match r with
      | Return b =>
          ((if negb mgmt && b then _update_count self (S (S depth)) (Some 1) None
            else ret tt) ;; ret true) w1
      | Raise e => (Return false, add_log (LogError "set" key e) w1)
      end).
  { intros r w1 Hw. rewrite set_S. step Hfirst.
    step (normalize_timeout_run self (if mgmt then Some 0%Q else timeout) wp).
    rewrite Hnow. unfold bind at 1, lift at 1. rewrite Hs.
    unfold try_except_else. rewrite Hw. destruct r; reflexivity. }
  split; [exact Hsame|]. split; [|split].
  - intros e w1 Hw. apply (Hrun _ _ Hw).
  - intros b w1 Hw. rewrite (Hrun _ _ Hw).
    destruct (Helse b w1 Hw) as (w' & Hu). step Hu. eexists. reflexivity.
  - destruct (write_phase self (_get_filename self key)
                (_get_filename self key ++ ".__tmp") data wp) as [[b|e] w1] eqn:Hw.
    + rewrite (Hrun _ _ eq_refl).
      destruct (Helse b w1 eq_refl) as (w' & Hu). step Hu. eexists _, _. reflexivity.
    + rewrite (Hrun _ _ eq_refl). eexists _, _. reflexivity.
Qed.

(** Claim C3, as amended.  [set] writes the record to the temporary file
    [filename + ".__tmp"], removes an existing target on every platform
    and then renames the temporary file onto it.  Every state of the
    directory on the way shows under the target the old file, nothing, or
    the complete new record; the final state shows the new record.  When
    the target exists as the write starts, there is a state in between
    with no target, whatever the threshold: the removal, or before it the
    eviction, has taken the old file away. *)
Theorem set_target_states depth key value timeout w w' :
  fault_free w ->
  _get_filename self key <> cfn ->
  set self depth key value timeout false w = (Return true, w') ->
  exists data new,
    _serialize self (VList [VInt (expiry self timeout (w_now w)); value])
      = Return data
    /\ w_trace w' = (new ++ w_trace w)%list
    /\ (forall d, In d new ->
          old_none_or_new (Dir.lookup (_get_filename self key) (w_files w)) data
            (Dir.lookup (_get_filename self key) d))
    /\ (exists mode,
          Dir.lookup (_get_filename self key) (w_files w') = Some (mkfile data mode))
    /\ (Dir.mem (_get_filename self key) (w_files w) = true ->
        exists d, In d new /\ Dir.lookup (_get_filename self key) d = None).
Proof.
  intros Hff Hne Hset. destruct depth as [|depth]; [discriminate|].
  destruct (set_success_inv self depth key value timeout w w' Hff Hset)
    as (wp & data & w2 & Hp & Hffp & Hnowp & Hs & Hw & Hf2 & Hff2 & Hnow2 & Hend).
  set (fn := _get_filename self key) in *.
  assert (Hncp : ~ counter_path self fn).
  { intros [Hq|Hq]; [contradiction|]. apply (filename_not_tmp self WF _ _ Hq). }
  (* the eviction *)
  assert (Hevp : evolves (shrink (counter_path self)) w wp).
  { apply (preserves_prune self (shrink (counter_path self))
             (shrink_refl _) (shrink_trans _)) with (depth := depth)
             (r := Return tt); try assumption.
    - intros a b. left. left. reflexivity.
    - intros a b. left. right. reflexivity.
    - intros p a. right. right. reflexivity. }
  destruct (ev_trace _ _ _ Hevp) as (newp & Htrp & Hnewp).
  assert (Holdp : Dir.lookup fn (w_files wp) = Dir.lookup fn (w_files w)
                  \/ Dir.lookup fn (w_files wp) = None).
  { destruct (ev_files _ _ _ Hevp fn) as [Hq|Hq]; [contradiction | assumption]. }
  (* the write *)
  destruct (write_phase_run self fn (fn ++ ".__tmp") data wp Hffp (tmp_neq _))
    as (w2' & Hrun & _ & _ & _ & _ & _ & neww & Htrw & Habs & Hneww).
  rewrite Hrun in Hw. injection Hw as <-.
  assert (Hl2 : Dir.lookup fn (w_files w2')
                = Some (mkfile data (final_mode self wp))).
  { rewrite Hf2. apply lookup_installed_target. }
  (* the count *)
  assert (Hevc : evolves (frame (counter_path self)) w2' w').
  { destruct (Dir.mem fn (w_files wp)).
    - subst w'. apply evolves_refl, frame_refl.
    - apply (preserves_update_count self (frame (counter_path self))
               (frame_refl _) (frame_trans _) (counter_free self)
               (counter_tmp_free self) _ _ _ _ _ _ Hend). }
  destruct (ev_trace _ _ _ Hevc) as (newc & Htrc & Hnewc).
  exists data, (newc ++ neww ++ newp)%list.
  split; [assumption|]. split.
  { rewrite Htrc, Htrw, Htrp, !app_assoc. reflexivity. }
  split; [|split].
  - intros d Hd. apply in_app_or in Hd. destruct Hd as [Hd|Hd].
    + destruct (Hnewc d Hd fn) as [Hq|Hq]; [contradiction|].
      right. right. rewrite Hq, Hl2. eauto.
    + apply in_app_or in Hd. destruct Hd as [Hd|Hd].
      * destruct (Hneww d Hd) as [[Hq|[Hq|Hq]] _].
        -- rewrite Hq. destruct Holdp as [->| ->]; [left | right; left]; reflexivity.
        -- right. left. assumption.
        -- right. right. assumption.
      * destruct (Hnewp d Hd fn) as [Hq|Hq]; [contradiction|].
        destruct Hq as [->| ->]; [left | right; left]; reflexivity.
  - exists (final_mode self wp).
    destruct (ev_files _ _ _ Hevc fn) as [Hq|Hq]; [contradiction|].
    rewrite Hq. assumption.
  - intros Hm. destruct Holdp as [Hsame|Hgone].
    + (* the target is still there when the write starts: the removal *)
      assert (Hmp : Dir.mem fn (w_files wp) = true).
      { unfold Dir.mem in *. rewrite Hsame. exact Hm. }
      eexists. split.
      * apply in_or_app. right. apply in_or_app. left. apply Habs. exact Hmp.
      * apply lookup_erase_eq.
    + (* the eviction has removed it *)
      assert (Hne' : w_files wp <> w_files w).
      { intros E. rewrite E in Hgone. unfold Dir.mem in Hm.
        rewrite Hgone in Hm. discriminate. }
      destruct (evolves_changed _ _ _ Hevp Hne') as (newp' & Htrp' & Hin & _).
      assert (newp' = newp).
      { rewrite Htrp in Htrp'. apply app_inv_tail in Htrp'. congruence. }
      subst newp'. exists (w_files wp). split; [|exact Hgone].
      apply in_or_app. right. apply in_or_app. right. exact Hin.
Qed.

End Claims2.

Lemma files_set_now t w : w_files (set_now t w) = w_files w.
Proof. reflexivity. Qed.

Lemma now_set_now t w : w_now (set_now t w) = t.
Proof. reflexivity. Qed.

(** Claim C9 as stated fails: the reserved string, passed to the public
    [get], returns the counter: here the count 1 after one [set]. *)
Lemma reserved_key_reads_counter :
  result (get cache0 depth0 "__wz_cache_count") world2 = Return (VInt 1).
Proof. vm_compute. reflexivity. Qed.

(** On the default cache: the entry of ["k"] is read the same whatever
    the counter holds, and the reserved string reads the count. *)
Lemma counter_reached_by_reserved_key_only_witness :
  fst (get cache0 1 "k" world3) = fst (get cache0 1 "k" (set_now (w_now world3) world3))
  /\ get cache0 1 "__wz_cache_count" world2 = (Return (VInt 1), world2).
Proof.
  destruct (counter_reached_by_reserved_key_only cache0 0) as (H1 & H2 & _). split.
  - apply H1.
    + vm_compute. reflexivity.
    + vm_compute. reflexivity.
    + vm_compute. reflexivity.
    + vm_compute. discriminate.
    + intros q _. vm_compute. reflexivity.
  - eapply H2.
    + vm_compute. reflexivity.
    + vm_compute. reflexivity.
    + vm_compute. reflexivity.
Defined.

(** Claim C1 as stated fails: a value the encoder does not know makes
    [set] raise [TypeError]; the serialization runs before the [try]. *)
Lemma set_raises_on_unserializable :
  result (set cache0 depth0 "k" (VObject "Session") None false) world1
  = Raise TypeError.
Proof. vm_compute. reflexivity. Qed.

(** A [set] whose temporary file cannot be opened returns [False] and
    logs the error; a [set] on the default cache during which the read of
    the counter is refused goes on and returns [True]. *)
Lemma set_catches_write_errors_witness :
  set cache_unbounded 3 "k" (VStr "v") None false world_open_fails
  = (Return false, add_log (LogError "set" "k" OSError) (with_faults [] world0))
  /\ exists w',
       set cache0 3 "k" (VStr "v") None false (with_faults [true] world1)
       = (Return true, w').
Proof.
  split.
  - destruct (set_catches_write_errors cache_unbounded cache_unbounded_wf 0 "k"
                (VStr "v") None false world_open_fails) as (_ & H0).
    destruct (H0 (record_of cache_unbounded (VList [VInt 1700000300; VStr "v"])))
      as (_ & H & _).
    + vm_compute. reflexivity.
    + right. left. reflexivity.
    + apply H. vm_compute. reflexivity.
  - destruct (set_catches_write_errors cache0 cache0_wf 0 "k"
                (VStr "v") None false (with_faults [true] world1)) as (_ & H0).
    destruct (H0 (record_of cache0 (VList [VInt 1700000300; VStr "v"])))
      as (_ & _ & H & _).
    + vm_compute. reflexivity.
    + right. right. split; [vm_compute; discriminate|].
      right. split; [reflexivity|]. split; [eexists; vm_compute; reflexivity|].
      right. exists (mkfile (record_of cache0 (VList [VInt 0; VInt 0])) 384), 0.
      split; [vm_compute; reflexivity|]. split; [vm_compute; reflexivity|].
      split; [vm_compute; discriminate|]. eexists. vm_compute. reflexivity.
    + apply (H true (after (write_phase cache0 (_get_filename cache0 "k")
                              (_get_filename cache0 "k" ++ ".__tmp")
                              (record_of cache0 (VList [VInt 1700000300; VStr "v"])))
                       (after (_prune cache0 2) (with_faults [true] world1)))).
      vm_compute. reflexivity.
Defined.

(** Two more ways for [set] to raise, both outside the [try]: the listing
    of the directory fails while an eviction is due, and the count cannot
    be added to because a caller has stored a string under the reserved
    key. *)
Example set_raises_outside_the_try :
  result (set cache_small depth0 "d" (VInt 4) None false)
    (with_faults [false; true] world_full) = Raise OSError
  /\ result (set cache_unbounded depth0 "__wz_cache_count" (VStr "x") None false)
       world0 = Return true
  /\ result (set cache0 depth0 "k" (VStr "v") None false)
       (after (set cache_unbounded depth0 "__wz_cache_count" (VStr "x") None false)
          world0) = Raise TypeError.
Proof. repeat split; vm_compute; reflexivity. Qed.

(** Claim C2: the temporary file of [set] is listed.  When the rename
    fails, [set] returns [False] and leaves [<digest of k>.__tmp] behind;
    [_list_dir] reports it as an entry, and so does the listing of the
    directory as it is between the write and the rename of a [set] that
    succeeds. *)
Theorem temp_file_is_listed :
  result (set cache0 depth0 "k" (VStr "v") None false) world_rename_fails
  = Return false
  /\ result (_list_dir cache0) world_leftover
     = Return [_get_filename cache0 "k" ++ ".__tmp"]
  /\ In (_get_filename cache0 "k" ++ ".__tmp")
        (listing cache0 (nth 7 (w_trace world2) [])).
Proof.
  split; [vm_compute; reflexivity|].
  split; [vm_compute; reflexivity|].
  vm_compute. left. reflexivity.
Qed.

(** Claim C3 as stated fails: while [set] overwrites the entry of ["k"],
    the directory passes through a state without the target file; a [get]
    at that moment returns no value, neither the old nor the new one. *)
Lemma overwrite_passes_through_absent_target :
  w_trace world3 = (firstn 5 (w_trace world3) ++ w_trace world2)%list
  /\ Dir.lookup (_get_filename cache0 "k") (w_files world2) <> None
  /\ Dir.lookup (_get_filename cache0 "k") (nth 2 (w_trace world3) []) = None
  /\ result (get cache0 depth0 "k") (set_files (nth 2 (w_trace world3) []) world2)
     = Return VNone.
Proof.
  split; [vm_compute; reflexivity|].
  split; [vm_compute; discriminate|].
  split; vm_compute; reflexivity.
Qed.

(** The overwrite of ["k"] on the default cache, state by state. *)
Lemma set_target_states_witness :
  exists data new,
    _serialize cache0 (VList [VInt (expiry cache0 None (w_now world2)); VStr "new"])
      = Return data
    /\ w_trace world3 = (new ++ w_trace world2)%list
    /\ (forall d, In d new ->
          old_none_or_new (Dir.lookup (_get_filename cache0 "k") (w_files world2)) data
            (Dir.lookup (_get_filename cache0 "k") d))
    /\ (exists mode,
          Dir.lookup (_get_filename cache0 "k") (w_files world3)
          = Some (mkfile data mode))
    /\ exists d, In d new /\ Dir.lookup (_get_filename cache0 "k") d = None.
Proof.
  assert (Hm : Dir.mem (_get_filename cache0 "k") (w_files world2) = true)
    by (vm_compute; reflexivity).
  destruct (set_target_states cache0 cache0_wf depth0 "k" (VStr "new") None
              world2 world3) as (data & new & H1 & H2 & H3 & H4 & H5).
  - vm_compute. reflexivity.
  - vm_compute. discriminate.
  - vm_compute. reflexivity.
  - exists data, new. repeat split; auto.
Defined.

(* ===================================================================== *)
(** ** [clear] *)
(* ===================================================================== *)

Lemma lookup_erase_none p q d :
  Dir.lookup q d = None -> Dir.lookup q (Dir.erase p d) = None.
Proof.
  intros H. destruct (String.eqb_spec p q) as [<-|Hne].
  - apply lookup_erase_eq.
  - rewrite lookup_erase_neq by assumption. assumption.
Qed.





Lemma os_remove_refused p fs w :
  w_faults w = true :: fs -> os_remove p w = (Raise OSError, set_faults fs w).
Proof. intros Hf. unfold os_remove, bind, syscall. rewrite Hf. reflexivity. Qed.

Section Clear.

Context {codec : Codec}.
Variable self : FileSystemCacheMsgspec.






End Clear.

Section Claims3.

Context {codec : Codec}.
Variable self : FileSystemCacheMsgspec.
Hypothesis WF : well_formed self.

Local Abbreviation cfn := (_get_filename self _fs_count_file).





End Claims3.

Ltac distinct_paths :=
  repeat (constructor;
          [ let K := fresh in
            simpl; intros K;
            repeat (destruct K as [K|K]; [discriminate|]); exact K | ]);
  constructor.




(* ===================================================================== *)
(** ** The paths of a directory *)
(* ===================================================================== *)

Lemma paths_store p f d :
  paths (Dir.store p f d) = if Dir.mem p d then paths d else (paths d ++ [p])%list.
Proof.
  unfold Dir.mem, paths. induction d as [|[q g] d IH]; simpl; [reflexivity|].
  destruct (String.eqb_spec p q) as [->|Hne]; simpl; [reflexivity|].
  rewrite IH. destruct (Dir.lookup p d); reflexivity.
Qed.

Lemma paths_erase p d :
  paths (Dir.erase p d) = filter (fun q => negb (String.eqb p q)) (paths d).
Proof.
  unfold paths. induction d as [|[q g] d IH]; simpl; [reflexivity|].
  destruct (String.eqb p q); simpl; [assumption | f_equal; assumption].
Qed.

Lemma paths_rename src dst d :
  paths (Dir.rename src dst d)
  = map (fun q => if String.eqb src q then dst else q) (paths d).
Proof.
  unfold paths. induction d as [|[q g] d IH]; simpl; [reflexivity|].
  destruct (String.eqb src q); simpl; f_equal; assumption.
Qed.

Lemma filter_all {A : Type} (f : A -> bool) (l : list A) :
  (forall x, In x l -> f x = true) -> filter f l = l.
Proof.
  induction l as [|a l IH]; simpl; intros H; [reflexivity|].
  rewrite (H a) by auto. f_equal. apply IH. auto.
Qed.

Lemma map_fixed {A : Type} (f : A -> A) (l : list A) :
  (forall x, In x l -> f x = x) -> map f l = l.
Proof.
  induction l as [|a l IH]; simpl; intros H; [reflexivity|].
  rewrite (H a) by auto. f_equal. apply IH. auto.
Qed.

Lemma filter_filter {A : Type} (f : A -> bool) (l : list A) :
  filter f (filter f l) = filter f l.
Proof.
  apply filter_all. intros x Hx. apply filter_In in Hx. apply Hx.
Qed.

(** What [set] leaves in the place of a directory without its temporary
    file: the old paths without the target, then the target. *)
Lemma paths_installed fn tmp data mode d :
  tmp <> fn -> Dir.mem tmp d = false ->
  paths (installed fn tmp data mode d)
  = (filter (fun q => negb (String.eqb fn q)) (paths d) ++ [fn])%list.
Proof.
  intros Hne Htmp. unfold installed.
  apply String.eqb_neq in Hne as Hb. rewrite Hb.
  match goal with
  | |- context [Dir.store tmp ?f d] => set (f0 := f)
  end.
  assert (Hd1 : paths (Dir.store tmp f0 d) = (paths d ++ [tmp])%list).
  { rewrite paths_store, Htmp. reflexivity. }
  assert (Hout : forall x, In x (filter (fun q => negb (String.eqb fn q)) (paths d)) ->
                           (if String.eqb tmp x then fn else x) = x).
  { intros x Hx. apply filter_In in Hx. destruct Hx as [Hx _].
    destruct (String.eqb_spec tmp x) as [->|]; [|reflexivity].
    apply not_mem_paths in Htmp. contradiction. }
  assert (Hlast : filter (fun q => negb (String.eqb fn q)) [tmp] = [tmp]).
  { simpl. rewrite String.eqb_sym, Hb. reflexivity. }
  set (d2 := if Dir.mem fn (Dir.store tmp f0 d)
             then Dir.erase fn (Dir.store tmp f0 d) else Dir.store tmp f0 d).
  assert (Hd3 : paths (Dir.rename tmp fn (Dir.erase fn d2))
                = (filter (fun q => negb (String.eqb fn q)) (paths d) ++ [fn])%list).
  { rewrite paths_rename, paths_erase.
    assert (Hd2 : filter (fun q => negb (String.eqb fn q)) (paths d2)
                  = (filter (fun q => negb (String.eqb fn q)) (paths d) ++ [tmp])%list).
    { subst d2. destruct (Dir.mem fn (Dir.store tmp f0 d)).
      - rewrite paths_erase, filter_filter, Hd1, filter_app, Hlast. reflexivity.
      - rewrite Hd1, filter_app, Hlast. reflexivity. }
    rewrite Hd2, map_app, (map_fixed _ _ Hout). simpl.
    rewrite String.eqb_refl. reflexivity. }
  rewrite paths_store.
  assert (Hm : Dir.mem fn (Dir.rename tmp fn (Dir.erase fn d2)) = true).
  { apply mem_paths. rewrite Hd3. apply in_or_app. right. left. reflexivity. }
  rewrite Hm. exact Hd3.
Qed.

Lemma NoDup_snoc {A : Type} (l : list A) (x : A) :
  NoDup l -> ~ In x l -> NoDup (l ++ [x]).
Proof.
  induction 1 as [|a l Ha Hl IH]; simpl; intros Hx.
  - constructor; [intros [] | constructor].
  - constructor.
    + intros H. apply in_app_or in H. destruct H as [H|[H|[]]]; [auto|].
      apply Hx. left. symmetry. assumption.
    + apply IH. intros H. apply Hx. right. assumption.
Qed.

Lemma NoDup_erase p d : NoDup (paths d) -> NoDup (paths (Dir.erase p d)).
Proof. intros H. rewrite paths_erase. apply NoDup_filter. assumption. Qed.

Lemma NoDup_installed fn tmp data mode d :
  tmp <> fn -> Dir.mem tmp d = false ->
  NoDup (paths d) -> NoDup (paths (installed fn tmp data mode d)).
Proof.
  intros Hne Htmp Hd. rewrite paths_installed by assumption.
  apply NoDup_snoc; [apply NoDup_filter; assumption|].
  intros H. apply filter_In in H. destruct H as [_ H].
  rewrite String.eqb_refl in H. discriminate.
Qed.

(** A file met last is named last. *)
Lemma scan_snoc_file pre fn q : forall ps seen,
  Dir.entry_of pre q = Some (fn, false) ->
  Dir.scan pre seen (ps ++ [q]) = (Dir.scan pre seen ps ++ [fn])%list.
Proof.
  induction ps as [|a ps IH]; intros seen Hq; cbn [app Dir.scan].
  - rewrite Hq. reflexivity.
  - destruct (Dir.entry_of pre a) as [[g [|]]|].
    + destruct (existsb (String.eqb g) seen); [|cbn [app]; f_equal]; apply IH, Hq.
    + cbn [app]. f_equal. apply IH, Hq.
    + apply IH, Hq.
Qed.

(** Removing a file whose name the filter [f] drops changes nothing that
    passes the filter. *)
Lemma scan_drop_hidden pre (f : string -> bool) x h : forall ps seen,
  Dir.entry_of pre x = Some (h, false) -> f h = false ->
  filter f (Dir.scan pre seen (filter (fun q => negb (String.eqb x q)) ps))
  = filter f (Dir.scan pre seen ps).
Proof.
  induction ps as [|a ps IH]; intros seen Hx Hf; [reflexivity|].
  cbn [filter]. destruct (String.eqb_spec x a) as [<-|Hne]; cbn [negb Dir.scan].
  - rewrite Hx. cbn [filter]. rewrite Hf. apply IH; assumption.
  - destruct (Dir.entry_of pre a) as [[g [|]]|].
    + destruct (existsb (String.eqb g) seen); [apply IH; assumption|].
      cbn [filter]. rewrite (IH _ Hx Hf). reflexivity.
    + cbn [filter]. rewrite (IH _ Hx Hf). reflexivity.
    + apply IH; assumption.
Qed.

(** Removing the one occurrence of a file whose name passes the filter
    lowers the count by one. *)
Lemma scan_drop_length pre (f : string -> bool) x fn : forall ps seen,
  NoDup ps -> In x ps ->
  Dir.entry_of pre x = Some (fn, false) -> f fn = true ->
  List.length (filter f (Dir.scan pre seen ps))
  = S (List.length
         (filter f (Dir.scan pre seen (filter (fun q => negb (String.eqb x q)) ps)))).
Proof.
  induction ps as [|a ps IH]; intros seen Hnd Hin Hx Hf; [contradiction|].
  inversion Hnd as [|? ? Ha Hnd']; subst.
  cbn [filter]. destruct (String.eqb_spec x a) as [<-|Hne]; cbn [negb Dir.scan].
  - rewrite Hx. cbn [filter]. rewrite Hf. cbn [List.length]. f_equal.
    rewrite (filter_all (fun q => negb (String.eqb x q)) ps); [reflexivity|].
    intros y Hy. apply negb_true_iff, String.eqb_neq. intros ->. contradiction.
  - destruct Hin as [Hin|Hin]; [congruence|].
    destruct (Dir.entry_of pre a) as [[g [|]]|].
    + destruct (existsb (String.eqb g) seen); [apply IH; assumption|].
      cbn [filter]. destruct (f g); cbn [List.length];
        rewrite (IH (g :: seen) Hnd' Hin Hx Hf); reflexivity.
    + cbn [filter]. destruct (f g); cbn [List.length];
        rewrite (IH seen Hnd' Hin Hx Hf); reflexivity.
    + apply IH; assumption.
Qed.

(** Where no name is that of a file and of a subdirectory at once, every
    name is reported once. *)
Lemma scan_NoDup pre : forall ps seen,
  NoDup ps ->
  (forall q q' fn, In q ps -> In q' ps ->
     Dir.entry_of pre q = Some (fn, false) ->
     Dir.entry_of pre q' = Some (fn, true) -> False) ->
  NoDup (Dir.scan pre seen ps).
Proof.
  induction ps as [|a ps IH]; intros seen Hnd Hclash; [constructor|].
  inversion Hnd as [|? ? Ha Hnd']; subst.
  assert (Hclash' : forall q q' fn, In q ps -> In q' ps ->
            Dir.entry_of pre q = Some (fn, false) ->
            Dir.entry_of pre q' = Some (fn, true) -> False).
  { intros q q' fn Hq Hq'. apply Hclash; right; assumption. }
  cbn [Dir.scan]. destruct (Dir.entry_of pre a) as [[g [|]]|] eqn:E.
  - destruct (existsb (String.eqb g) seen); [apply IH; assumption|].
    constructor; [|apply IH; assumption].
    intros Hin. apply scan_in in Hin.
    destruct Hin as [(q & Hq & He) | (Hn & _)].
    + apply (Hclash q a g); [right; exact Hq | left; reflexivity | exact He | exact E].
    + apply Hn. left. reflexivity.
  - constructor; [|apply IH; assumption].
    intros Hin. apply scan_in in Hin.
    destruct Hin as [(q & Hq & He) | (_ & q & Hq & He)].
    + apply entry_of_file in He. apply entry_of_file in E.
      destruct He as (-> & _). destruct E as (-> & _). contradiction.
    + apply (Hclash a q g); [left; reflexivity | right; exact Hq | exact E | exact He].
  - apply IH; assumption.
Qed.

Lemma filter_absent (x : string) (l : list string) :
  ~ In x l -> filter (fun q => negb (String.eqb x q)) l = l.
Proof.
  intros H. apply filter_all. intros y Hy.
  apply negb_true_iff, String.eqb_neq. intros ->. contradiction.
Qed.

(* ===================================================================== *)
(** ** The listing as a filter on the paths *)
(* ===================================================================== *)

Section ListingPaths.

Context {codec : Codec}.
Variable self : FileSystemCacheMsgspec.
Hypothesis WF : well_formed self.

Local Abbreviation cfn := (_get_filename self _fs_count_file).

Local Abbreviation pre := (dir_prefix (_path self)).
Local Abbreviation keep :=
  (fun fn : string =>
     negb (Str.ends_with _fs_transaction_suffix fn)
     && negb (existsb (String.eqb fn)
                [Str.last_component (_get_filename self _fs_count_file)])).

(** the file of a key is a file of the cache directory *)
Lemma entry_of_filename key :
  Dir.entry_of pre (_get_filename self key) = Some (_hash_method self key, false).
Proof.
  apply entry_of_file. split; [apply (filename_eq self WF)|].
  split; [apply WF | apply (digest_no_slash self WF)].
Qed.

Lemma keep_counter : keep (_hash_method self _fs_count_file) = false.
Proof.
  cbn beta. rewrite (filename_basename self WF). cbn [existsb].
  rewrite String.eqb_refl. cbn [orb negb]. apply andb_false_r.
Qed.

Lemma keep_entry key :
  regular self key -> keep (_hash_method self key) = true.
Proof.
  intros Hreg. cbn beta. rewrite (filename_basename self WF). cbn [existsb].
  apply String.eqb_neq in Hreg. rewrite Hreg. cbn [orb negb].
  rewrite andb_true_r. apply negb_true_iff.
  destruct (Str.ends_with _fs_transaction_suffix (_hash_method self key)) eqn:E;
    [|reflexivity].
  pose proof (ends_with_all is_hex _ _ E (wf_hex self WF key)) as H.
  discriminate.
Qed.

(** In a directory where no path is a file and a subdirectory at once,
    the listing names every entry once. *)
Lemma NoDup_listing d :
  NoDup (paths d) ->
  (forall p r, Dir.mem p d = true -> Dir.mem (p ++ "/" ++ r) d = true -> False) ->
  NoDup (listing self d).
Proof.
  intros Hnd Hclash. unfold listing.
  apply NoDup_map_NoDup_ForallPairs.
  - intros x y Hx Hy. apply filter_In in Hx. apply filter_In in Hy.
    destruct Hx as [Hx _]. destruct Hy as [Hy _].
    apply names_in in Hx. apply names_in in Hy.
    destruct Hx as (_ & Hsx & _). destruct Hy as (_ & Hsy & _).
    rewrite (join_name self WF x Hsx), (join_name self WF y Hsy).
    apply append_inj_l.
  - apply NoDup_filter. unfold Dir.names. fold (paths d).
    apply scan_NoDup; [exact Hnd|].
    intros q q' fn Hq Hq' He He'.
    apply entry_of_file in He. destruct He as (-> & _ & _).
    apply entry_of_dir in He'. destruct He' as (_ & _ & r & ->).
    apply mem_paths in Hq. apply mem_paths in Hq'.
    apply (Hclash (pre ++ fn) r Hq). rewrite append_assoc. exact Hq'.
Qed.

(** Writing the counter does not change the listing. *)
Lemma listing_installed_counter data mode d :
  Dir.mem (cfn ++ ".__tmp") d = false ->
  listing self (installed cfn (cfn ++ ".__tmp") data mode d) = listing self d.
Proof.
  intros Htmp. unfold listing, Dir.names.
  fold (paths (installed cfn (cfn ++ ".__tmp") data mode d)). fold (paths d).
  rewrite paths_installed; [|apply tmp_neq|assumption].
  rewrite (scan_snoc_file _ _ _ _ _ (entry_of_filename _fs_count_file)).
  rewrite filter_app. cbn [filter]. rewrite keep_counter, app_nil_r.
  rewrite (scan_drop_hidden _ keep _ _ _ _ (entry_of_filename _fs_count_file)
             keep_counter).
  reflexivity.
Qed.

(** Writing an entry adds one to the listing when the entry is new, and
    keeps its length otherwise. *)
Lemma listing_installed_entry key data mode d :
  _hash_method self key <> _hash_method self _fs_count_file ->
  NoDup (paths d) ->
  Dir.mem (_get_filename self key ++ ".__tmp") d = false ->
  List.length (listing self
    (installed (_get_filename self key) (_get_filename self key ++ ".__tmp")
       data mode d))
  = if Dir.mem (_get_filename self key) d
    then List.length (listing self d)
    else S (List.length (listing self d)).
Proof.
  intros Hreg Hnd Htmp. unfold listing, Dir.names.
  fold (paths (installed (_get_filename self key)
                 (_get_filename self key ++ ".__tmp") data mode d)).
  fold (paths d).
  rewrite paths_installed; [|apply tmp_neq|assumption].
  rewrite (scan_snoc_file _ _ _ _ _ (entry_of_filename key)).
  rewrite !length_map, filter_app, length_app. cbn [filter].
  rewrite (keep_entry key Hreg). cbn [List.length].
  destruct (Dir.mem (_get_filename self key) d) eqn:Hm.
  - apply mem_paths in Hm.
    rewrite (scan_drop_length _ keep _ _ (paths d) [] Hnd Hm
               (entry_of_filename key) (keep_entry key Hreg)).
    lia.
  - apply not_mem_paths in Hm. rewrite (filter_absent _ _ Hm). lia.
Qed.

(** Removing an entry takes one from the listing. *)
Lemma listing_erase_entry key d :
  _hash_method self key <> _hash_method self _fs_count_file ->
  NoDup (paths d) ->
  Dir.mem (_get_filename self key) d = true ->
  List.length (listing self d)
  = S (List.length (listing self (Dir.erase (_get_filename self key) d))).
Proof.
  intros Hreg Hnd Hm. unfold listing, Dir.names.
  fold (paths (Dir.erase (_get_filename self key) d)). fold (paths d).
  rewrite paths_erase, !length_map.
  apply mem_paths in Hm.
  apply (scan_drop_length _ keep _ _ (paths d) [] Hnd Hm
           (entry_of_filename key) (keep_entry key Hreg)).
Qed.

Lemma tidy_erase p d : tidy self d -> tidy self (Dir.erase p d).
Proof. intros H key. apply lookup_erase_none, H. Qed.

Lemma tidy_installed key data mode d :
  tidy self d ->
  tidy self (installed (_get_filename self key) (_get_filename self key ++ ".__tmp")
               data mode d).
Proof.
  intros H k.
  destruct (String.eqb_spec (_get_filename self k ++ ".__tmp")
                            (_get_filename self key ++ ".__tmp")) as [->|Hne].
  - apply lookup_installed_tmp, tmp_neq.
  - rewrite lookup_installed_other; [apply H | | exact Hne].
    intros E. symmetry in E. apply (filename_not_tmp self WF _ _ E).
Qed.

(** A directory in which no path ends in [.__tmp] is tidy. *)
Lemma no_tmp_tidy d :
  forallb (fun q => negb (Str.ends_with ".__tmp" q)) (paths d) = true ->
  tidy self d.
Proof.
  intros H key.
  destruct (Dir.lookup (_get_filename self key ++ ".__tmp") d) eqn:E; [|reflexivity].
  assert (Hm : Dir.mem (_get_filename self key ++ ".__tmp") d = true)
    by (unfold Dir.mem; rewrite E; reflexivity).
  apply mem_paths in Hm. rewrite forallb_forall in H. apply H in Hm.
  rewrite ends_with_app in Hm. discriminate.
Qed.

Lemma sweep_dir_NoDup now entries : forall idx d,
  NoDup (paths d) -> NoDup (paths (sweep_dir self now idx entries d)).
Proof.
  induction entries as [|p rest IH]; intros idx d Hd; simpl; [assumption|].
  apply IH. destruct (Dir.lookup p d) as [f|]; [|assumption].
  destruct (evict self now idx f); [apply NoDup_erase|]; assumption.
Qed.

Lemma sweep_dir_none now entries : forall idx d q,
  Dir.lookup q d = None -> Dir.lookup q (sweep_dir self now idx entries d) = None.
Proof.
  induction entries as [|p rest IH]; intros idx d q Hq; simpl; [assumption|].
  apply IH. destruct (Dir.lookup p d) as [f|]; [|assumption].
  destruct (evict self now idx f); [apply lookup_erase_none|]; assumption.
Qed.

End ListingPaths.

(* ===================================================================== *)
(** ** The reference codec reads back the integers it writes *)
(* ===================================================================== *)

Lemma code_chr n : code (chr n) = n mod 256.
Proof.
  unfold code, chr. rewrite N_ascii_embedding.
  - apply Z2N.id. apply Z.mod_pos_bound. lia.
  - assert (0 <= n mod 256 < 256) by (apply Z.mod_pos_bound; lia). lia.
Qed.

Lemma code_chr_small n : 0 <= n < 256 -> code (chr n) = n.
Proof. intros H. rewrite code_chr. apply Z.mod_small. assumption. Qed.

Lemma of_big_endian_app a : forall acc b,
  of_big_endian acc (a ++ b) = of_big_endian (of_big_endian acc a) b.
Proof. induction a as [|c a IH]; intros acc b; simpl; [reflexivity | apply IH]. Qed.

Lemma of_big_endian_big_endian k : forall n acc,
  of_big_endian acc (big_endian k n) = acc * 256 ^ Z.of_nat k + n mod 256 ^ Z.of_nat k.
Proof.
  induction k as [|k IH]; intros n acc.
  - simpl. rewrite Z.mod_1_r. lia.
  - cbn [big_endian]. rewrite of_big_endian_app, IH. unfold byte.
    cbn [of_big_endian]. rewrite code_chr.
    rewrite Nat2Z.inj_succ, Z.pow_succ_r by lia.
    rewrite (Z.rem_mul_r n 256 (256 ^ Z.of_nat k)) by lia. lia.
Qed.

Lemma length_append (a b : string) :
  String.length (a ++ b) = (String.length a + String.length b)%nat.
Proof. induction a as [|c a IH]; simpl; [reflexivity | rewrite IH; reflexivity]. Qed.

Lemma length_big_endian k : forall n, String.length (big_endian k n) = k.
Proof.
  induction k as [|k IH]; intros n; [reflexivity|].
  cbn [big_endian]. rewrite length_append, IH. simpl. lia.
Qed.

Lemma split_at_app a : forall r, split_at (String.length a) (a ++ r) = Some (a, r).
Proof.
  induction a as [|c a IH]; intros r; simpl; [destruct r; reflexivity|].
  rewrite IH. reflexivity.
Qed.

Lemma field_big_endian k n r :
  Msgpack.field k (big_endian k n ++ r) = Return (n mod 256 ^ Z.of_nat k, r).
Proof.
  unfold Msgpack.field.
  rewrite <- (length_big_endian k n) at 1. rewrite split_at_app.
  rewrite of_big_endian_big_endian. reflexivity.
Qed.

Ltac decide_tests :=
  repeat match goal with
  | |- context [if ?a <? ?b then _ else _] =>
      first [rewrite (proj2 (Z.ltb_lt a b)) by lia
            |rewrite (proj2 (Z.ltb_ge a b)) by lia]
  | |- context [if ?a =? ?b then _ else _] =>
      first [rewrite (proj2 (Z.eqb_eq a b)) by lia
            |rewrite (proj2 (Z.eqb_neq a b)) by lia]
  | |- context [if ?a <=? ?b then _ else _] =>
      first [rewrite (proj2 (Z.leb_le a b)) by lia
            |rewrite (proj2 (Z.leb_gt a b)) by lia]
  end.

Lemma signed_mod k n :
  (0 < k)%nat -> - 2 ^ (8 * Z.of_nat k - 1) <= n < 0 ->
  Msgpack.signed k (n mod 256 ^ Z.of_nat k) = n.
Proof.
  intros Hk Hn. unfold Msgpack.signed.
  assert (E : 256 ^ Z.of_nat k = 2 ^ (8 * Z.of_nat k)).
  { change 256 with (2 ^ 8). rewrite <- Z.pow_mul_r by lia. reflexivity. }
  assert (E2 : 2 ^ (8 * Z.of_nat k) = 2 * 2 ^ (8 * Z.of_nat k - 1)).
  { rewrite <- Z.pow_succ_r by lia. f_equal. lia. }
  assert (Hm : n mod 256 ^ Z.of_nat k = n + 2 ^ (8 * Z.of_nat k)).
  { rewrite E. symmetry. apply Z.mod_unique with (q := -1); lia. }
  rewrite Hm.
  rewrite (proj2 (Z.ltb_ge _ _)) by lia. lia.
Qed.

#[local] Opaque big_endian.

Lemma parse_int n s :
  Msgpack.enc_int n = Return s ->
  forall fuel r, Msgpack.parse (S fuel) (s ++ r) = Return (VInt n, r).
Proof.
  unfold Msgpack.enc_int. intros H fuel r.
  repeat match type of H with
  | (if ?c then _ else _) = _ => destruct c eqn:?
  end; try discriminate; injection H as <-;
  unfold byte; cbn [append]; cbn [Msgpack.parse];
  rewrite code_chr_small by lia; decide_tests;
  rewrite ?field_big_endian; cbn [obind fst snd].
  - reflexivity.
  - f_equal. f_equal. f_equal. apply Z.mod_small. lia.
  - f_equal. f_equal. f_equal. apply Z.mod_small. lia.
  - f_equal. f_equal. f_equal. apply Z.mod_small. lia.
  - f_equal. f_equal. f_equal. apply Z.mod_small. lia.
  - f_equal. f_equal. f_equal. lia.
  - rewrite signed_mod; [reflexivity | lia | lia].
  - rewrite signed_mod; [reflexivity | lia | lia].
  - rewrite signed_mod; [reflexivity | lia | lia].
  - rewrite signed_mod; [reflexivity | lia | lia].
Qed.

#[local] Transparent big_endian.

Lemma parse_pair F r v1 r1 v2 r2 :
  Msgpack.parse F r = Return (v1, r1) ->
  Msgpack.parse F r1 = Return (v2, r2) ->
  2 <= strlen r ->
  Msgpack.parse (S F) (String (chr 146) r) = Return (VList [v1; v2], r2).
Proof.
  intros H1 H2 Hlen. cbn [Msgpack.parse]. change (code (chr 146)) with 146.
  decide_tests. change (Z.to_nat (146 - 144)) with 2%nat.
  cbn -[Msgpack.parse]. rewrite H1. cbn -[Msgpack.parse]. rewrite H2. reflexivity.
Qed.

Lemma enc_int_nonempty n s : Msgpack.enc_int n = Return s -> s <> "".
Proof.
  unfold Msgpack.enc_int. intros H.
  repeat match type of H with
  | (if ?c then _ else _) = _ => destruct c
  end; try discriminate; injection H as <-; discriminate.
Qed.

(** Without compression, the reference codec reads back every counter
    record it writes. *)
Lemma ref_count_roundtrip (self : FileSystemCacheMsgspec) :
  compress self = false -> count_roundtrip self.
Proof.
  intros Hc n data H. unfold _serialize, _deserialize in *. rewrite Hc in *.
  cbn [msgpack_encode msgpack_decode RefCodec] in *.
  cbn [Msgpack.encode] in H.
  destruct (Msgpack.enc_int n) as [s|e] eqn:En; [|discriminate].
  assert (Hh : Msgpack.array_header (Z.of_nat (List.length [VInt 0; VInt n]))
               = Return (byte 146)) by reflexivity.
  assert (H0 : Msgpack.enc_int 0 = Return (byte 0)) by reflexivity.
  rewrite Hh, H0 in H. cbn [obind] in H. injection H as <-.
  cbn [obind]. unfold Msgpack.decode.
  pose proof (enc_int_nonempty n s En) as Hs.
  pose proof (parse_int n s En) as Hp.
  unfold byte. cbn [append String.length].
  rewrite append_nil_r.
  rewrite (parse_pair _ (String (chr 0) s) (VInt 0) s (VInt n) "").
  - reflexivity.
  - cbn [Msgpack.parse]. reflexivity.
  - rewrite <- (append_nil_r s) at 2. apply Hp.
  - unfold strlen. cbn [String.length]. destruct s; [congruence|].
    cbn [String.length]. lia.
Qed.

(** So the reference packer reads back every count it can write. *)
Lemma ref_reads_back_count (self : FileSystemCacheMsgspec) n :
  compress self = false -> reads_back self (VList [VInt 0; VInt n]).
Proof.
  intros Hc packed He. split; [|rewrite Hc; discriminate].
  pose proof (ref_count_roundtrip self Hc n packed) as H.
  unfold _serialize, _deserialize in H. rewrite Hc, He in H.
  apply H. reflexivity.
Qed.

(* ===================================================================== *)
(** ** Further properties: reading, testing and deleting an entry *)
(* ===================================================================== *)

Section Lookups.

Context {codec : Codec}.
Variable self : FileSystemCacheMsgspec.

Local Abbreviation cfn := (_get_filename self _fs_count_file).

Lemma has_returns depth key w :
  exists b w', has self depth key w = (Return b, w').
Proof.
  unfold has, try_except.
  match goal with
  | |- context [let (_, _) := ?x in _] => destruct x as [[b|e] w1]
  end; [eauto|].
  destruct (is_FileNotFoundError e); unfold ret, bind, logger_error; eauto.
Qed.

(** [get], [has] and [delete] never raise: whatever the directory holds
    and whatever the file system refuses, each of them returns. *)
Theorem get_has_delete_never_raise depth key w :
  (exists v w', get self (S depth) key w = (Return v, w'))
  /\ (exists b w', has self depth key w = (Return b, w'))
  /\ (forall m, exists b w', delete self (S depth) key m w = (Return b, w')).
Proof.
  split; [|split].
  - destruct (get_returns self depth key w) as [v Hv].
    destruct (get self (S depth) key w) as [r w']. simpl in Hv. subst r. eauto.
  - apply has_returns.
  - intros m. destruct (delete_returns self depth key m w) as [b Hb].
    destruct (delete self (S depth) key m w) as [r w']. simpl in Hb. subst r. eauto.
Qed.

(** When the file system refuses the first call, [get] reports a miss,
    [has] and [delete] report [False]; each logs the error and leaves
    every file as it is. *)
Theorem io_error_is_a_logged_miss depth key m fs w :
  w_faults w = true :: fs ->
  get self (S depth) key w
  = (Return VNone, add_log (LogError "get" key OSError) (set_faults fs w))
  /\ has self depth key w
     = (Return false, add_log (LogError "has" key OSError) (set_faults fs w))
  /\ delete self (S depth) key m w
     = (Return false, add_log (LogError "delete" key OSError) (set_faults fs w)).
Proof.
  intros Hf. split; [|split].
  - rewrite get_S. unfold try_except, bind at 1, read_file, bind at 1, syscall.
    rewrite Hf. reflexivity.
  - unfold has, try_except, bind at 1, read_file, bind at 1, syscall.
    rewrite Hf. reflexivity.
  - rewrite delete_S. unfold try_except, bind at 1, os_remove, bind at 1, syscall.
    rewrite Hf. reflexivity.
Qed.

Lemma has_live depth key f e v w :
  fault_free w ->
  Dir.lookup (_get_filename self key) (w_files w) = Some f ->
  _deserialize self (f_data f) = Return (VList [VInt e; v]) ->
  stale e (w_now w) = false ->
  has self depth key w = (Return true, w).
Proof.
  intros Hff Hl Hd Hs. unfold has, try_except, bind.
  rewrite (read_file_hit _ _ _ Hff Hl). unfold lift. rewrite Hd. simpl.
  rewrite expired_run, Hs. reflexivity.
Qed.

Lemma has_stale depth key f e v w :
  fault_free w ->
  Dir.lookup (_get_filename self key) (w_files w) = Some f ->
  _deserialize self (f_data f) = Return (VList [VInt e; v]) ->
  stale e (w_now w) = true ->
  has self (S depth) key w
  = (Return false, snd (delete self (S depth) key false w)).
Proof.
  intros Hff Hl Hd Hs.
  destruct (delete_returns self depth key false w) as [b Hb].
  remember (delete self (S depth) key false) as del eqn:Edel.
  unfold has, try_except, bind. rewrite <- Edel.
  rewrite (read_file_hit _ _ _ Hff Hl). unfold lift. rewrite Hd. simpl.
  rewrite expired_run, Hs.
  destruct (del w) as [r w1]. simpl in Hb. subst r.
  reflexivity.
Qed.

Lemma has_absent depth key w :
  fault_free w ->
  Dir.lookup (_get_filename self key) (w_files w) = None ->
  has self depth key w = (Return false, w).
Proof.
  intros Hff Hl. unfold has, try_except, bind at 1.
  rewrite (read_file_miss _ _ Hff Hl). reflexivity.
Qed.

(** [has] answers as [get] does, with the same effect on the directory:
    no file, no entry; a live entry is there, and [get] returns its
    value, which may be [None]; a stale entry is deleted by either. *)
Theorem has_agrees_with_get depth key w :
  fault_free w ->
  (Dir.lookup (_get_filename self key) (w_files w) = None ->
   has self depth key w = (Return false, w)
   /\ get self (S depth) key w = (Return VNone, w))
  /\ (forall f e v,
        Dir.lookup (_get_filename self key) (w_files w) = Some f ->
        _deserialize self (f_data f) = Return (VList [VInt e; v]) ->
        (stale e (w_now w) = false ->
         has self depth key w = (Return true, w)
         /\ get self (S depth) key w = (Return v, w))
        /\ (stale e (w_now w) = true ->
            exists w',
              has self (S depth) key w = (Return false, w')
              /\ get self (S (S depth)) key w = (Return VNone, w'))).
Proof.
  intros Hff. split.
  - intros Hl. split; [apply has_absent | apply get_absent]; assumption.
  - intros f e v Hl Hd. split; intros Hs.
    + split; [eapply has_live | eapply get_live]; eauto.
    + exists (snd (delete self (S depth) key false w)). split.
      * eapply has_stale; eauto.
      * eapply get_stale; eauto.
Qed.

(** A file that does not hold a record (it does not decode, or what it
    decodes to is not a pair) reads as a miss: [get] returns [None] and
    [has] returns [False], the error is logged, and the file stays. *)
Theorem corrupt_entry_is_a_logged_miss depth key f e w :
  fault_free w ->
  Dir.lookup (_get_filename self key) (w_files w) = Some f ->
  obind (_deserialize self (f_data f)) unpack2 = Raise e ->
  is_FileNotFoundError e = false ->
  get self (S depth) key w = (Return VNone, add_log (LogError "get" key e) w)
  /\ has self depth key w = (Return false, add_log (LogError "has" key e) w).
Proof.
  intros Hff Hl Hd He. split.
  - rewrite get_S.
    remember (delete self depth key false) as del eqn:Edel.
    unfold try_except, bind at 1. rewrite (read_file_hit _ _ _ Hff Hl).
    unfold bind, lift.
    destruct (_deserialize self (f_data f)) as [obj|e1]; simpl in Hd.
    + rewrite Hd, He. reflexivity.
    + injection Hd as ->. rewrite He. reflexivity.
  - unfold has.
    remember (delete self depth key false) as del eqn:Edel.
    unfold try_except, bind at 1. rewrite (read_file_hit _ _ _ Hff Hl).
    unfold bind, lift.
    destruct (_deserialize self (f_data f)) as [obj|e1]; simpl in Hd.
    + rewrite Hd, He. reflexivity.
    + injection Hd as ->. rewrite He. reflexivity.
Qed.

(** [add] looks at the existence of the file only: while the file of the
    key exists it writes nothing and returns [False], also when the entry
    in the file has expired and [get] no longer returns it. *)
Theorem add_refused_while_file_exists depth key value timeout f w :
  Dir.lookup (_get_filename self key) (w_files w) = Some f ->
  add self depth key value timeout w = (Return false, w)
  /\ (forall e v,
        fault_free w ->
        _deserialize self (f_data f) = Return (VList [VInt e; v]) ->
        stale e (w_now w) = true ->
        fst (get self (S (S depth)) key w) = Return VNone).
Proof.
  intros Hl. split.
  - unfold add, bind, os_path_exists, Dir.mem. rewrite Hl. reflexivity.
  - intros e v Hff Hd Hs. rewrite (get_stale self depth key f e v w Hff Hl Hd Hs).
    reflexivity.
Qed.

End Lookups.

(* ===================================================================== *)
(** ** Further properties: the counter under [set] and [delete] *)
(* ===================================================================== *)

Lemma syscall_ok fs w :
  w_faults w = false :: fs -> syscall w = (Return tt, set_faults fs w).
Proof. unfold syscall. intros ->. reflexivity. Qed.

Lemma syscall_refused fs w :
  w_faults w = true :: fs -> syscall w = (Raise OSError, set_faults fs w).
Proof. unfold syscall. intros ->. reflexivity. Qed.

Section Counting.

Context {codec : Codec}.
Variable self : FileSystemCacheMsgspec.
Hypothesis WF : well_formed self.

Local Abbreviation cfn := (_get_filename self _fs_count_file).

Lemma counts_get depth n w :
  fault_free w -> counts self (w_files w) n ->
  get self (S depth) _fs_count_file w = (Return (VInt n), w).
Proof.
  intros Hff (f & Hl & Hd). eapply get_live; eauto.
Qed.

Lemma regular_filename key :
  _hash_method self key <> _hash_method self _fs_count_file ->
  _get_filename self key <> cfn.
Proof. intros Hreg E. apply Hreg. apply (filename_inj self WF). exact E. Qed.

(** A count update by [delta] that returns has written the old count
    plus [delta]. *)
Lemma update_count_delta_inv depth delta n w w' :
  fault_free w -> _threshold self <> 0 -> delta <> 0 ->
  counts self (w_files w) n ->
  _update_count self depth (Some delta) None w = (Return tt, w') ->
  exists data,
    _serialize self (VList [VInt 0; VInt (n + delta)]) = Return data
    /\ w_files w' = installed cfn (cfn ++ ".__tmp") data (final_mode self w) (w_files w)
    /\ fault_free w' /\ w_now w' = w_now w /\ w_platform w' = w_platform w.
Proof.
  intros Hff Ht Hdl Hc H. destruct depth as [|depth]; [discriminate|].
  rewrite update_count_S in H.
  apply Z.eqb_neq in Ht. rewrite Ht in H.
  apply Z.eqb_neq in Hdl. rewrite Hdl in H. cbn [negb] in H.
  destruct depth as [|depth]; [discriminate|].
  unfold bind at 1 in H. unfold bind at 1 in H.
  rewrite (counts_get depth n w Hff Hc) in H.
  rewrite py_or_zero_int in H. unfold lift, py_add_int in H. cbn [py_num] in H.
  apply bind_inv in H. destruct H as [(b & w1 & H1 & H2) | (e & _ & He)];
    [|discriminate].
  injection H2 as <-.
  apply (set_mgmt_inv _ _ _ _ _ _ _ _ Hff) in H1.
  destruct H1 as (data & Hs & _ & Hrest). exists data. auto.
Qed.

Lemma update_count_delta_run depth delta n data w :
  fault_free w -> _threshold self <> 0 -> delta <> 0 ->
  counts self (w_files w) n ->
  _serialize self (VList [VInt 0; VInt (n + delta)]) = Return data ->
  exists w',
    _update_count self (S (S depth)) (Some delta) None w = (Return tt, w')
    /\ w_files w' = installed cfn (cfn ++ ".__tmp") data (final_mode self w) (w_files w)
    /\ fault_free w' /\ w_now w' = w_now w /\ w_platform w' = w_platform w.
Proof.
  intros Hff Ht Hdl Hc Hs. rewrite update_count_S.
  apply Z.eqb_neq in Ht. rewrite Ht.
  apply Z.eqb_neq in Hdl. rewrite Hdl. cbn [negb].
  unfold bind at 1. unfold bind at 1.
  rewrite (counts_get depth n w Hff Hc).
  rewrite py_or_zero_int. unfold lift, py_add_int. cbn [py_num].
  destruct (set_mgmt_run self depth _fs_count_file _ None data w Hff Hs)
    as (w' & Hrun & Hrest).
  rewrite (bind_run _ _ _ _ _ Hrun). exists w'. split; [reflexivity | exact Hrest].
Qed.

(** the counter file after a write of the counter *)
Lemma counts_installed data mode d n :
  count_roundtrip self ->
  _serialize self (VList [VInt 0; VInt n]) = Return data ->
  counts self (installed cfn (cfn ++ ".__tmp") data mode d) n.
Proof.
  intros Hrt Hs. exists (mkfile data mode). split.
  - apply lookup_installed_target.
  - apply (Hrt _ _ Hs).
Qed.

Lemma counts_other d d' n :
  Dir.lookup cfn d' = Dir.lookup cfn d -> counts self d n -> counts self d' n.
Proof. intros E (f & Hl & Hd). exists f. split; [congruence | assumption]. Qed.

(** [delete]: a missing file gives [False] and changes nothing; an
    existing file is removed, and unless the call is a management one the
    counter goes down by one; no other file changes. *)
Theorem delete_removes_and_counts_down depth key w :
  fault_free w ->
  (Dir.lookup (_get_filename self key) (w_files w) = None ->
   forall m, delete self (S depth) key m w = (Return false, w))
  /\ (forall f,
        Dir.lookup (_get_filename self key) (w_files w) = Some f ->
        delete self (S depth) key true w
        = (Return true,
           set_files (Dir.erase (_get_filename self key) (w_files w)) w))
  /\ (forall f n data,
        Dir.lookup (_get_filename self key) (w_files w) = Some f ->
        _threshold self <> 0 ->
        _hash_method self key <> _hash_method self _fs_count_file ->
        counts self (w_files w) n ->
        _serialize self (VList [VInt 0; VInt (n - 1)]) = Return data ->
        exists w',
          delete self (S (S (S depth))) key false w = (Return true, w')
          /\ Dir.lookup (_get_filename self key) (w_files w') = None
          /\ (exists mode, Dir.lookup cfn (w_files w') = Some (mkfile data mode))
          /\ (forall q, q <> _get_filename self key -> ~ counter_path self q ->
                Dir.lookup q (w_files w') = Dir.lookup q (w_files w))).
Proof.
  intros Hff. split; [|split].
  - intros Hl m. rewrite delete_S. unfold try_except, bind at 1.
    rewrite (os_remove_miss _ _ Hff); [reflexivity|].
    apply mem_false. exact Hl.
  - intros f Hl. rewrite delete_S. unfold try_except, bind at 1.
    rewrite (os_remove_hit _ _ Hff); [reflexivity|].
    apply mem_true. eauto.
  - intros f n data Hl Ht Hreg Hc Hs.
    pose proof (regular_filename key Hreg) as Hne.
    rewrite delete_S. unfold try_except, bind at 1.
    rewrite (os_remove_hit _ _ Hff) by (apply mem_true; eauto).
    set (w1 := set_files _ w). cbn [negb].
    assert (Hff1 : fault_free w1) by exact Hff.
    assert (Hc1 : counts self (w_files w1) n).
    { apply (counts_other (w_files w)); [|exact Hc].
      apply lookup_erase_neq. exact Hne. }
    destruct (update_count_delta_run depth (-1) n data w1 Hff1 Ht
                ltac:(discriminate) Hc1 Hs) as (w' & Hrun & Hf & _).
    rewrite (bind_run _ _ _ _ _ Hrun). exists w'. split; [reflexivity|].
    split; [|split].
    + rewrite Hf, lookup_installed_other.
      * apply lookup_erase_eq.
      * exact Hne.
      * apply (filename_not_tmp self WF).
    + exists (final_mode self w1). rewrite Hf. apply lookup_installed_target.
    + intros q Hq Hncp. rewrite Hf, lookup_installed_other.
      * apply lookup_erase_neq. congruence.
      * intros E. apply Hncp. left. exact E.
      * intros E. apply Hncp. right. exact E.
Qed.

Lemma get_of_absent depth key w :
  Dir.lookup (_get_filename self key) (w_files w) = None ->
  fst (get self (S depth) key w) = Return VNone.
Proof.
  intros Hl. rewrite get_S. unfold try_except, bind at 1, read_file, bind at 1, syscall.
  destruct (w_faults w) as [|[|] fs]; cbn [set_faults w_files]; rewrite ?Hl;
    reflexivity.
Qed.

Lemma has_of_absent depth key w :
  Dir.lookup (_get_filename self key) (w_files w) = None ->
  fst (has self depth key w) = Return false.
Proof.
  intros Hl. unfold has, try_except, bind at 1, read_file, bind at 1, syscall.
  destruct (w_faults w) as [|[|] fs]; cbn [set_faults w_files]; rewrite ?Hl;
    reflexivity.
Qed.

Lemma delete_of_absent depth key m w :
  Dir.lookup (_get_filename self key) (w_files w) = None ->
  fst (delete self (S depth) key m w) = Return false.
Proof.
  intros Hl. apply mem_false in Hl.
  rewrite delete_S. unfold try_except, bind at 1, os_remove, bind at 1, syscall.
  destruct (w_faults w) as [|[|] fs]; cbn [set_faults w_files]; rewrite ?Hl;
    reflexivity.
Qed.

(** After a [delete] that returned [True] the entry is gone, whatever the
    file system did in between and does afterwards: [get] returns
    [None], [has] returns [False], a second [delete] returns [False]. *)
Theorem deleted_key_is_gone depth depth' key m w w' :
  _hash_method self key <> _hash_method self _fs_count_file ->
  delete self depth key m w = (Return true, w') ->
  Dir.lookup (_get_filename self key) (w_files w') = None
  /\ fst (get self (S depth') key w') = Return VNone
  /\ fst (has self depth' key w') = Return false
  /\ (forall m', fst (delete self (S depth') key m' w') = Return false).
Proof.
  intros Hreg H.
  assert (Hl : Dir.lookup (_get_filename self key) (w_files w') = None).
  { destruct depth as [|depth]; [discriminate|].
    rewrite delete_S in H. apply try_except_inv in H.
    destruct H as [(b & H & _) | (e & w1 & _ & H)].
    - apply bind_inv in H. destruct H as [([] & w1 & H1 & H2) | (e & _ & He)];
        [|discriminate].
      apply os_remove_gone in H1.
      apply bind_inv in H2. destruct H2 as [([] & w2 & H2 & H3) | (e & _ & He)];
        [|discriminate].
      injection H3 as <-.
      assert (Hev : evolves (frame (counter_path self)) w1 w2).
      { destruct m; cbn [negb] in H2.
        - injection H2 as <-. apply evolves_refl. apply frame_refl.
        - eapply (preserves_update_count self (frame (counter_path self))
                    (frame_refl _) (frame_trans _)); [| |exact H2].
          + intros a b. left. left. reflexivity.
          + intros a b. left. right. reflexivity. }
      destruct (ev_files _ _ _ Hev (_get_filename self key)) as [Hcp|Heq].
      + exfalso. apply (regular_not_counter_path self WF key Hreg Hcp).
      + subst w'. rewrite Heq. exact H1.
    - destruct (is_FileNotFoundError e).
      + discriminate.
      + unfold bind, logger_error in H. discriminate. }
  split; [exact Hl|]. split; [|split].
  - apply get_of_absent, Hl.
  - apply has_of_absent, Hl.
  - intros m'. apply delete_of_absent, Hl.
Qed.

End Counting.

(* ===================================================================== *)
(** ** Further properties: what [set] leaves behind *)
(* ===================================================================== *)

(** [int(x)] of a float that is not negative is its floor. *)
Lemma py_int_bounds (x : Q) :
  (0 <= x)%Q ->
  (inject_Z (py_int x) <= x)%Q /\ (x < inject_Z (py_int x) + 1)%Q.
Proof.
  destruct x as [n d]. unfold Qle, Qlt, py_int, inject_Z. simpl.
  intros Hn. rewrite Z.mul_1_r in Hn.
  rewrite Z.quot_div_nonneg by lia.
  pose proof (Z.mul_div_le n (Z.pos d) ltac:(lia)).
  pose proof (Z.mul_succ_div_gt n (Z.pos d) ltac:(lia)).
  split; nia.
Qed.

Section Writes.

Context {codec : Codec}.
Variable self : FileSystemCacheMsgspec.
Hypothesis WF : well_formed self.

Local Abbreviation cfn := (_get_filename self _fs_count_file).

(** A successful [set] leaves the file of the key with the mode of the
    cache, or with [S_IWRITE] on Windows, whatever mode the file had. *)
Theorem set_applies_mode depth key value timeout w w' :
  fault_free w ->
  _hash_method self key <> _hash_method self _fs_count_file ->
  set self depth key value timeout false w = (Return true, w') ->
  exists data,
    Dir.lookup (_get_filename self key) (w_files w')
    = Some (mkfile data
              (match w_platform w with Win32 => S_IWRITE | Posix => _mode self end)).
Proof.
  intros Hff Hreg H. destruct depth as [|depth]; [discriminate|].
  destruct (set_success_inv self depth key value timeout w w' Hff H)
    as (wp & data & w2 & Hp & Hffp & Hnowp & Hs & _ & Hf2 & Hff2 & Hnow2 & Hend).
  assert (Hev : evolves any_change w wp).
  { apply (preserves_prune self any_change any_change_refl any_change_trans
             (any_free _) (any_free _) depth any_removable _ _ _ Hp). }
  pose proof (ev_platform _ _ _ Hev) as Hplat.
  exists data.
  assert (Hl2 : Dir.lookup (_get_filename self key) (w_files w2)
                = Some (mkfile data
                          (match w_platform w with
                           | Win32 => S_IWRITE | Posix => _mode self end))).
  { rewrite Hf2, lookup_installed_target. unfold final_mode. rewrite Hplat.
    reflexivity. }
  destruct (Dir.mem (_get_filename self key) (w_files wp)).
  - subst w'. exact Hl2.
  - assert (Hev2 : evolves (frame (counter_path self)) w2 w').
    { apply (preserves_update_count self (frame (counter_path self))
               (frame_refl _) (frame_trans _) (counter_free self)
               (counter_tmp_free self) _ _ _ _ _ _ Hend). }
    destruct (ev_files _ _ _ Hev2 (_get_filename self key)) as [Hcp|Heq].
    + exfalso. apply (regular_not_counter_path self WF key Hreg Hcp).
    + rewrite Heq. exact Hl2.
Qed.

Lemma write_phase_refused_open fn tmp data fs w :
  w_faults w = true :: fs ->
  write_phase self fn tmp data w = (Raise OSError, set_faults fs w).
Proof.
  intros Hf. unfold write_phase, write_file, bind at 1, bind at 1.
  rewrite (syscall_refused fs w Hf). reflexivity.
Qed.

Lemma write_phase_refused_replace fn tmp data f fs w :
  w_faults w = false :: false :: false :: true :: fs ->
  tmp <> fn ->
  Dir.lookup fn (w_files w) = Some f ->
  exists w' m,
    write_phase self fn tmp data w = (Raise OSError, w')
    /\ Dir.lookup fn (w_files w') = None
    /\ Dir.lookup tmp (w_files w') = Some (mkfile data m)
    /\ w_log w' = w_log w.
Proof.
  intros Hf Hne Hl.
  assert (Hm : forall g h,
             Dir.mem fn (Dir.store tmp g (Dir.store tmp h (w_files w))) = true).
  { intros g h. rewrite !mem_store_neq by exact Hne. apply mem_true. eauto. }
  unfold write_phase, write_file, os_path_exists, os_remove, os_replace, bind, syscall.
  rewrite Hf. cbn [set_faults set_files w_faults w_files].
  rewrite Hm. cbn [negb set_faults set_files w_faults w_files].
  rewrite Hm. cbn [set_faults set_files w_faults w_files].
  eexists _, _. split; [reflexivity|].
  cbn [set_faults set_files w_faults w_files w_log].
  split; [apply lookup_erase_eq|]. split; [|reflexivity].
  rewrite lookup_erase_neq by congruence.
  rewrite store_store. apply lookup_store_eq.
Qed.

(** A [set] that fails, in a cache without counting.  When the temporary
    file cannot be opened, [set] returns [False], logs the error, and no
    file has changed.  When the rename is refused while an entry is
    overwritten, [set] returns [False] as well, but the old entry has
    already been removed: the key has no file any more, and the new
    record is left under the temporary name. *)
Theorem failed_set_outcomes depth key value timeout data fs w :
  _threshold self = 0 ->
  _serialize self (VList [VInt (expiry self timeout (w_now w)); value])
    = Return data ->
  (w_faults w = true :: fs ->
   exists w',
     set self (S (S depth)) key value timeout false w = (Return false, w')
     /\ w_files w' = w_files w
     /\ w_log w' = LogError "set" key OSError :: w_log w)
  /\ (forall f,
        w_faults w = false :: false :: false :: true :: fs ->
        Dir.lookup (_get_filename self key) (w_files w) = Some f ->
        exists w' m,
          set self (S (S depth)) key value timeout false w = (Return false, w')
          /\ Dir.lookup (_get_filename self key) (w_files w') = None
          /\ Dir.lookup (_get_filename self key ++ ".__tmp") (w_files w')
             = Some (mkfile data m)
          /\ w_log w' = LogError "set" key OSError :: w_log w
          /\ forall d, fst (get self (S d) key w') = Return VNone).
Proof.
  intros Ht Hs.
  assert (Hstart :
    set self (S (S depth)) key value timeout false w
    = try_except_else
        (write_phase self (_get_filename self key)
           (_get_filename self key ++ ".__tmp") data)
        (fun exc => logger_error "set" key exc ;; ret false)
        (fun is_new_file =>
           (if negb false && is_new_file
            then _update_count self (S depth) (Some 1) None
            else ret tt) ;;
           ret true) w).
  { rewrite set_S. unfold bind at 1. unfold bind at 1.
    rewrite (prune_disabled self depth w Ht). unfold ret at 1.
    unfold bind at 1. rewrite normalize_timeout_run.
    unfold bind at 1. unfold lift at 1. rewrite Hs. reflexivity. }
  rewrite Hstart. split.
  - intros Hf. unfold try_except_else.
    rewrite (write_phase_refused_open _ _ data fs w Hf).
    eexists. split; [reflexivity|]. split; reflexivity.
  - intros f Hf Hl. unfold try_except_else.
    destruct (write_phase_refused_replace (_get_filename self key)
                (_get_filename self key ++ ".__tmp") data f fs w Hf
                (tmp_neq _) Hl) as (w1 & m & Hrun & Hl1 & Hl2 & Hlog).
    rewrite Hrun. eexists _, m. split; [reflexivity|].
    cbn [logger_error bind ret add_log w_files w_log fst snd].
    split; [exact Hl1|]. split; [exact Hl2|]. split; [rewrite Hlog; reflexivity|].
    intros d. apply (get_of_absent self). exact Hl1.
Qed.

(** The expiry is a whole number of seconds: [set] stores
    [int(time() + timeout)], where the sum is the sum of two floats,
    rounded as floats are.  An entry set with a timeout therefore expires
    at the last whole second not after that sum, less than a second
    early; from then on [get] returns [None]. *)
Theorem entry_expires_on_whole_second depth depth' key value t w w' now' :
  fault_free w' ->
  regular self key \/ _threshold self = 0 \/ (fault_free w /\ counter_ok self w) ->
  set self depth key value (Some t) false w = (Return true, w') ->
  reads_back self (VList [VInt (expiry self (Some t) (w_now w)); value]) ->
  ~ (t == 0)%Q -> (1 <= float_add (w_now w) t)%Q ->
  expiry self (Some t) (w_now w) = py_int (float_add (w_now w) t)
  /\ (inject_Z (expiry self (Some t) (w_now w)) <= float_add (w_now w) t)%Q
  /\ (float_add (w_now w) t < inject_Z (expiry self (Some t) (w_now w)) + 1)%Q
  /\ ((inject_Z (expiry self (Some t) (w_now w)) < now')%Q ->
      fst (get self (S (S depth')) key (set_now now' w')) = Return VNone).
Proof.
  intros Hff' Hcase Hset Hrb Ht Hpos.
  assert (He : expiry self (Some t) (w_now w) = py_int (float_add (w_now w) t)).
  { unfold expiry. cbn [BaseCache_normalize_timeout].
    destruct (Qeq_bool t 0) eqn:E; [|reflexivity].
    apply Qeq_bool_iff in E. contradiction. }
  assert (H0 : (0 <= float_add (w_now w) t)%Q).
  { apply Qle_trans with (y := 1%Q); [discriminate | exact Hpos]. }
  destruct (py_int_bounds _ H0) as [Hlo Hhi].
  split; [exact He|]. rewrite He. split; [exact Hlo|]. split; [exact Hhi|].
  intros Hlate.
  destruct (set_stored_record self WF depth key value (Some t) w w' Hcase Hset)
    as (data & mode & Hs & Hl).
  pose proof (deserialize_serialized self _ _ Hrb Hs) as Hd.
  assert (Hnz : py_int (float_add (w_now w) t) <> 0).
  { intros Hz. rewrite Hz in Hhi.
    apply (Qlt_not_le _ _ Hhi). exact Hpos. }
  rewrite (get_stale self depth' key (mkfile data mode)
             (py_int (float_add (w_now w) t)) value (set_now now' w')).
  - reflexivity.
  - exact Hff'.
  - exact Hl.
  - rewrite <- He. exact Hd.
  - apply stale_true; assumption.
Qed.

Lemma prune_idle depth n w :
  fault_free w ->
  _threshold self = 0 \/ (counts self (w_files w) n /\ n <= _threshold self) ->
  _prune self (S (S depth)) w = (Return tt, w).
Proof.
  intros Hff [Hz|((f & Hl & Hd) & Hle)].
  - apply prune_disabled. exact Hz.
  - apply (prune_under self depth f n w Hff Hl Hd Hle).
Qed.

(** What one key does leaves the others alone.  A [delete] changes what
    [get] returns for no key with another digest; neither does a [set]
    that finds the count within the threshold, so that nothing is
    evicted. *)
Theorem other_keys_untouched depth depth' key other w :
  fault_free w ->
  _hash_method self other <> _hash_method self key ->
  _hash_method self other <> _hash_method self _fs_count_file ->
  (forall m r w',
      delete self depth key m w = (r, w') ->
      fst (get self (S depth') other w') = fst (get self (S depth') other w))
  /\ (forall n value timeout r w',
        _threshold self = 0 \/ (counts self (w_files w) n /\ n <= _threshold self) ->
        set self (S (S (S depth))) key value timeout false w = (r, w') ->
        fst (get self (S depth') other w') = fst (get self (S depth') other w)).
Proof.
  intros Hff Hk Hc.
  set (S := fun q => (q = _get_filename self key
                      \/ q = _get_filename self key ++ ".__tmp")
                     \/ counter_path self q).
  assert (HS : ~ S (_get_filename self other)).
  { intros [[E|E]|E].
    - apply Hk. apply (filename_inj self WF). exact E.
    - apply (filename_not_tmp self WF _ _ E).
    - apply (regular_not_counter_path self WF other Hc E). }
  assert (Hsame : forall w', evolves (frame S) w w' ->
            fst (get self (Datatypes.S depth') other w')
            = fst (get self (Datatypes.S depth') other w)).
  { intros w' Hev.
    pose proof (ev_faults _ _ _ Hev Hff) as Hff'.
    rewrite !get_reads_own_file by assumption.
    rewrite (ev_now _ _ _ Hev).
    destruct (ev_files _ _ _ Hev (_get_filename self other)) as [E|E];
      [contradiction | rewrite E; reflexivity]. }
  assert (Hfc : free_at (frame S) cfn)
    by (intros a b; left; right; left; reflexivity).
  assert (Hft : free_at (frame S) (cfn ++ ".__tmp"))
    by (intros a b; left; right; right; reflexivity).
  assert (Hfk : free_at (frame S) (_get_filename self key))
    by (intros a b; left; left; left; reflexivity).
  assert (Hfkt : free_at (frame S) (_get_filename self key ++ ".__tmp"))
    by (intros a b; left; left; right; reflexivity).
  split.
  - intros m r w' Hdel. apply Hsame.
    apply (preserves_delete self (frame S) (frame_refl _) (frame_trans _)
             Hfc Hft depth key m (free_removable _ _ Hfk) _ _ _ Hdel).
  - intros n value timeout r w' Hidle Hset. apply Hsame.
    rewrite set_S in Hset.
    unfold bind at 1 in Hset. unfold bind at 1 in Hset.
    rewrite (prune_idle depth n w Hff Hidle) in Hset. unfold ret at 1 in Hset.
    pose proof (fun data => preserves_write_phase self (frame S) (frame_refl _)
                  (frame_trans _) _ _ data Hfk Hfkt) as Hwp.
    pose proof (preserves_normalize_timeout self (frame S) (frame_refl _)) as Hnt.
    pose proof (preserves_update_count self (frame S) (frame_refl _)
                  (frame_trans _) Hfc Hft) as Huc.
    revert Hset.
    match goal with
    | |- ?m w = _ -> _ => assert (Hpres : preserves (frame S) m)
    end.
    { pose proof (frame_refl S). pose proof (frame_trans S). pres. }
    intros Hset. apply (Hpres _ _ _ Hset).
Qed.

Lemma prune_without_counter depth w :
  fault_free w -> 0 <= _threshold self ->
  Dir.lookup cfn (w_files w) = None ->
  _prune self (S (S depth)) w = (Return tt, w).
Proof.
  intros Hff Hth Hl. rewrite prune_S.
  destruct (_threshold self =? 0); [reflexivity|].
  unfold bind at 1. unfold bind at 1.
  rewrite (get_absent self depth _fs_count_file w Hff Hl).
  unfold bind, lift, py_gt_int, py_or_zero. cbn [py_truthy py_num negb].
  rewrite (proj2 (Z.ltb_ge (_threshold self) 0)) by exact Hth.
  reflexivity.
Qed.

(** The counter is only as good as its file.  When the counter file is
    missing, no eviction is due, and the [set] of a new key writes the
    count 1, however many entries the directory holds. *)
Theorem lost_counter_restarts_at_one depth key value timeout data data1 w :
  fault_free w -> 0 < _threshold self ->
  _hash_method self key <> _hash_method self _fs_count_file ->
  Dir.lookup cfn (w_files w) = None ->
  Dir.lookup (_get_filename self key) (w_files w) = None ->
  _serialize self (VList [VInt (expiry self timeout (w_now w)); value])
    = Return data ->
  _serialize self (VList [VInt 0; VInt 1]) = Return data1 ->
  exists w',
    set self (S (S (S depth))) key value timeout false w = (Return true, w')
    /\ (exists mode, Dir.lookup cfn (w_files w') = Some (mkfile data1 mode))
    /\ (exists mode,
          Dir.lookup (_get_filename self key) (w_files w') = Some (mkfile data mode))
    /\ (forall q, q <> _get_filename self key ->
          q <> _get_filename self key ++ ".__tmp" -> ~ counter_path self q ->
          Dir.lookup q (w_files w') = Dir.lookup q (w_files w)).
Proof.
  intros Hff Hth Hreg Hlc Hlk Hs Hs1.
  assert (Hne : _get_filename self key <> cfn).
  { intros E. apply Hreg. apply (filename_inj self WF). exact E. }
  rewrite set_S. unfold bind at 1. unfold bind at 1.
  rewrite (prune_without_counter depth w Hff ltac:(lia) Hlc). unfold ret at 1.
  unfold bind at 1. rewrite normalize_timeout_run.
  unfold bind at 1. unfold lift at 1. rewrite Hs.
  destruct (write_phase_run self (_get_filename self key)
              (_get_filename self key ++ ".__tmp") data w Hff (tmp_neq _))
    as (w2 & Hrun & Hf2 & Hff2 & Hnow2 & Hplat2 & _).
  unfold try_except_else. rewrite Hrun.
  assert (Hm : Dir.mem (_get_filename self key) (w_files w) = false)
    by (apply mem_false; exact Hlk).
  rewrite Hm. cbn [negb andb].
  assert (Hlc2 : Dir.lookup cfn (w_files w2) = None).
  { rewrite Hf2, lookup_installed_other; [exact Hlc | congruence |].
    intros E. apply (filename_not_tmp self WF _ _ E). }
  (* the count update finds no counter *)
  rewrite update_count_S.
  assert (Hb : (_threshold self =? 0) = false) by (apply Z.eqb_neq; lia).
  rewrite Hb. cbn [Z.eqb negb].
  unfold bind at 1. unfold bind at 1. unfold bind at 1.
  rewrite (get_absent self depth _fs_count_file w2 Hff2 Hlc2).
  unfold lift, py_add_int, py_or_zero. cbn [py_truthy py_num Z.add].
  destruct (set_mgmt_run self depth _fs_count_file (VInt 1) None data1 w2 Hff2 Hs1)
    as (w' & Hrun' & Hf' & _).
  rewrite (bind_run _ _ _ _ _ Hrun'). exists w'. split; [reflexivity|].
  split; [|split].
  - eexists. rewrite Hf'. apply lookup_installed_target.
  - exists (final_mode self w). rewrite Hf', lookup_installed_other.
    + rewrite Hf2. apply lookup_installed_target.
    + exact Hne.
    + apply (filename_not_tmp self WF).
  - intros q Hq Hqt Hncp. rewrite Hf', lookup_installed_other.
    + rewrite Hf2. apply lookup_installed_other; assumption.
    + intros E. apply Hncp. left. exact E.
    + intros E. apply Hncp. right. exact E.
Qed.

End Writes.

(* ===================================================================== *)
(** ** Further properties: the counter is the number of entries *)
(* ===================================================================== *)

Section Tracked.

Context {codec : Codec}.
Variable self : FileSystemCacheMsgspec.
Hypothesis WF : well_formed self.
Hypothesis Hth : _threshold self <> 0.
Hypothesis Hrt : count_roundtrip self.

Local Abbreviation cfn := (_get_filename self _fs_count_file).

Lemma tidy_counter_tmp d : tidy self d -> Dir.mem (cfn ++ ".__tmp") d = false.
Proof. intros H. apply mem_false. apply H. Qed.

(** the directory after a write of the right count *)
Lemma tracked_counter_write d n data mode :
  NoDup (paths d) -> tidy self d ->
  n = Z.of_nat (List.length (listing self d)) ->
  _serialize self (VList [VInt 0; VInt n]) = Return data ->
  tracked self (installed cfn (cfn ++ ".__tmp") data mode d).
Proof.
  intros Hnd Htidy Hn Hs. split; [|split].
  - apply NoDup_installed; [apply tmp_neq | apply tidy_counter_tmp | ]; assumption.
  - apply (tidy_installed self WF). exact Htidy.
  - rewrite (listing_installed_counter self WF) by (apply tidy_counter_tmp; exact Htidy).
    rewrite <- Hn. apply counts_installed; assumption.
Qed.

(** What the cache shows in a tracked state: the count is the length of
    the listing. *)
Lemma tracked_observed depth w :
  fault_free w -> tracked self (w_files w) ->
  _list_dir self w = (Return (listing self (w_files w)), w)
  /\ _file_count self (S depth) w
     = (Return (VInt (Z.of_nat (List.length (listing self (w_files w))))), w).
Proof.
  intros Hff (_ & _ & Hc). split.
  - apply (list_dir_run self w Hff (wf_path self WF)).
  - unfold _file_count. rewrite (bind_run _ _ _ _ _ (counts_get self depth _ w Hff Hc)).
    rewrite py_or_zero_int. reflexivity.
Qed.

(** An eviction check that returns leaves the counter right. *)
Lemma prune_keeps_tracked depth w wp :
  fault_free w -> tracked self (w_files w) ->
  _prune self depth w = (Return tt, wp) ->
  fault_free wp /\ w_now wp = w_now w /\ tracked self (w_files wp).
Proof.
  intros Hff Htr H. pose proof Htr as (Hnd & Htidy & Hc).
  destruct depth as [|depth]; [discriminate|].
  rewrite prune_S in H.
  apply Z.eqb_neq in Hth as Hb. rewrite Hb in H.
  destruct depth as [|depth]; [discriminate|].
  unfold bind at 1 in H. unfold bind at 1 in H.
  rewrite (counts_get self depth _ w Hff Hc) in H.
  rewrite py_or_zero_int in H. unfold bind at 1 in H.
  unfold lift, py_gt_int in H. cbn [py_num] in H. unfold ret at 1 in H.
  destruct (_threshold self <? _) eqn:Hover; cbn [negb] in H.
  - rewrite (bind_run _ _ _ _ _ (list_dir_run self w Hff (wf_path self WF))) in H.
    rewrite (bind_run _ _ _ _ _ (eq_refl : time w = (Return (w_now w), w))) in H.
    destruct (sweep_run self (w_now w) (listing self (w_files w)) 0 0 w Hff)
      as (n' & ws & Hrun & Hfiles & Hffs & Hnows & Hplats).
    rewrite (bind_run _ _ _ _ _ Hrun) in H.
    rewrite (bind_run _ _ _ _ _ (list_dir_run self ws Hffs (wf_path self WF))) in H.
    apply bind_inv in H. destruct H as [([] & w3 & H1 & H2) | (e & _ & He)];
      [|discriminate].
    apply (update_count_value_inv self _ _ _ _ Hffs Hth) in H1.
    destruct H1 as (data & Hs & Hf3 & Hff3 & Hnow3 & _).
    unfold logger_debug in H2. injection H2 as <-.
    cbn [add_log w_files w_now]. split; [exact Hff3|].
    split; [congruence|]. rewrite Hf3.
    apply (tracked_counter_write (w_files ws)
             (Z.of_nat (List.length (listing self (w_files ws)))) data);
      [| |reflexivity|exact Hs].
    + rewrite Hfiles. apply sweep_dir_NoDup. exact Hnd.
    + rewrite Hfiles. intros key. apply sweep_dir_none. apply Htidy.
  - injection H as <-. auto.
Qed.

(** [__init__] counts the entries it finds.  On a directory without
    leftover temporary files, a constructor that returns has stored the
    number of entries [_list_dir] reports, and has changed no other
    file; and it does return when that count can be serialized. *)
Theorem init_counts_entries depth w :
  fault_free w -> NoDup (paths (w_files w)) -> tidy self (w_files w) ->
  (forall w',
      init self depth w = (Return tt, w') ->
      fault_free w'
      /\ _list_dir self w' = (Return (listing self (w_files w)), w')
      /\ (forall d, _file_count self (S d) w'
                    = (Return (VInt (Z.of_nat (List.length
                                       (listing self (w_files w))))), w'))
      /\ (forall q, ~ counter_path self q ->
            Dir.lookup q (w_files w') = Dir.lookup q (w_files w))
      /\ tracked self (w_files w'))
  /\ (forall data,
        _serialize self
          (VList [VInt 0; VInt (Z.of_nat (List.length (listing self (w_files w))))])
        = Return data ->
        exists w', init self (S (S depth)) w = (Return tt, w')).
Proof.
  intros Hff Hnd Htidy.
  apply Z.eqb_neq in Hth as Hb. split.
  - intros w' H. unfold init, os_makedirs in H.
    unfold bind at 1 in H. rewrite (syscall_fault_free w Hff) in H.
    rewrite Hb in H. cbn [negb] in H.
    unfold bind at 1 in H. rewrite (list_dir_run self w Hff (wf_path self WF)) in H.
    destruct (update_count_value_inv self depth _ w w' Hff Hth H)
      as (data & Hs & Hf & Hff' & _).
    assert (Htr : tracked self (w_files w')).
    { rewrite Hf.
      apply (tracked_counter_write (w_files w) _ data _ Hnd Htidy eq_refl Hs). }
    assert (Hlist : listing self (w_files w') = listing self (w_files w)).
    { rewrite Hf. apply (listing_installed_counter self WF).
      apply tidy_counter_tmp. exact Htidy. }
    split; [exact Hff'|]. split; [|split; [|split]].
    + rewrite <- Hlist. apply (tracked_observed 0 w' Hff' Htr).
    + intros d. rewrite <- Hlist. apply (tracked_observed d w' Hff' Htr).
    + intros q Hq. rewrite Hf. apply lookup_installed_other.
      * intros E. apply Hq. left. exact E.
      * intros E. apply Hq. right. exact E.
    + exact Htr.
  - intros data Hs. unfold init, os_makedirs.
    unfold bind at 1. rewrite (syscall_fault_free w Hff).
    rewrite Hb. cbn [negb].
    unfold bind at 1. rewrite (list_dir_run self w Hff (wf_path self WF)).
    destruct (update_count_value_run self depth _ data w Hff Hth Hs)
      as (w' & Hrun & _).
    exists w'. exact Hrun.
Qed.

(** [set] keeps the counter right.  From a state in which the counter
    holds the number of listed entries, a [set] that returns [True]
    leads to such a state again, whether it added an entry, overwrote
    one, or evicted entries first. *)
Theorem set_keeps_count_exact depth key value timeout w w' :
  fault_free w -> tracked self (w_files w) ->
  _hash_method self key <> _hash_method self _fs_count_file ->
  set self depth key value timeout false w = (Return true, w') ->
  fault_free w' /\ tracked self (w_files w')
  /\ forall d,
       _file_count self (S d) w'
       = (Return (VInt (Z.of_nat (List.length (listing self (w_files w'))))), w').
Proof.
  intros Hff Htr Hreg H.
  assert (Hgoal : fault_free w' /\ tracked self (w_files w')).
  { destruct depth as [|depth]; [discriminate|].
    destruct (set_success_inv self depth key value timeout w w' Hff H)
      as (wp & data & w2 & Hp & _ & _ & Hs & _ & Hf2 & Hff2 & Hnow2 & Hend).
    destruct (prune_keeps_tracked depth w wp Hff Htr Hp)
      as (Hffp & _ & Hnd & Htidy & Hc).
    pose proof (regular_filename self WF key Hreg) as Hne.
    assert (Htmp : Dir.mem (_get_filename self key ++ ".__tmp") (w_files wp) = false)
      by (apply mem_false; apply Htidy).
    assert (Hnd2 : NoDup (paths (w_files w2))).
    { rewrite Hf2. apply NoDup_installed; [apply tmp_neq | exact Htmp | exact Hnd]. }
    assert (Htidy2 : tidy self (w_files w2)).
    { rewrite Hf2. apply (tidy_installed self WF). exact Htidy. }
    assert (Hc2 : counts self (w_files w2)
                    (Z.of_nat (List.length (listing self (w_files wp))))).
    { apply (counts_other self (w_files wp)); [|exact Hc].
      rewrite Hf2. apply lookup_installed_other.
      - congruence.
      - intros E. apply (filename_not_tmp self WF _ _ E). }
    pose proof (listing_installed_entry self WF key data (final_mode self wp)
                  (w_files wp) Hreg Hnd Htmp) as Hlen.
    rewrite <- Hf2 in Hlen.
    destruct (Dir.mem (_get_filename self key) (w_files wp)).
    - subst w'. split; [exact Hff2|]. split; [exact Hnd2|]. split; [exact Htidy2|].
      rewrite Hlen. exact Hc2.
    - destruct (update_count_delta_inv self depth 1 _ w2 w' Hff2 Hth
                  ltac:(discriminate) Hc2 Hend)
        as (data' & Hs' & Hf' & Hff' & _).
      split; [exact Hff'|]. rewrite Hf'.
      apply (tracked_counter_write (w_files w2)
               (Z.of_nat (List.length (listing self (w_files wp))) + 1) data'
               _ Hnd2 Htidy2);
        [|exact Hs'].
      rewrite Hlen. lia. }
  destruct Hgoal as [Hff' Htr']. split; [exact Hff'|]. split; [exact Htr'|].
  intros d. apply (tracked_observed d w' Hff' Htr').
Qed.

(** [delete] keeps the counter right: after a [delete] that returns
    [True] the entry is gone and the counter again holds the number of
    listed entries, one less than before. *)
Theorem delete_keeps_count_exact depth key w w' :
  fault_free w -> tracked self (w_files w) ->
  _hash_method self key <> _hash_method self _fs_count_file ->
  delete self depth key false w = (Return true, w') ->
  fault_free w' /\ tracked self (w_files w')
  /\ List.length (listing self (w_files w))
     = S (List.length (listing self (w_files w')))
  /\ forall d,
       _file_count self (S d) w'
       = (Return (VInt (Z.of_nat (List.length (listing self (w_files w'))))), w').
Proof.
  intros Hff Htr Hreg H. pose proof Htr as (Hnd & Htidy & Hc).
  pose proof (regular_filename self WF key Hreg) as Hne.
  assert (Hgoal : fault_free w' /\ tracked self (w_files w')
                  /\ List.length (listing self (w_files w))
                     = S (List.length (listing self (w_files w')))).
  { destruct depth as [|depth]; [discriminate|].
    rewrite delete_S in H. unfold try_except, bind at 1 in H.
    destruct (Dir.mem (_get_filename self key) (w_files w)) eqn:Hm.
    - rewrite (os_remove_hit _ _ Hff Hm) in H. cbn [negb] in H.
      set (w1 := set_files _ w) in H.
      assert (Hc1 : counts self (w_files w1)
                      (Z.of_nat (List.length (listing self (w_files w))))).
      { apply (counts_other self (w_files w)); [|exact Hc].
        apply lookup_erase_neq. exact Hne. }
      pose proof (listing_erase_entry self WF key (w_files w) Hreg Hnd Hm) as Hlen.
      destruct (_update_count self depth (Some (-1)) None w1) as [[[]|e] w2] eqn:Hu.
      + unfold bind, ret in H. rewrite Hu in H. injection H as <-.
        destruct (update_count_delta_inv self depth (-1) _ w1 w2 Hff Hth
                    ltac:(discriminate) Hc1 Hu)
          as (data' & Hs' & Hf' & Hff' & _).
        assert (Htr1 : tracked self (w_files w2)).
        { rewrite Hf'.
          apply (tracked_counter_write (w_files w1)
                   (Z.of_nat (List.length (listing self (w_files w))) + -1) data');
            [| | |exact Hs'].
          - apply NoDup_erase. exact Hnd.
          - apply tidy_erase. exact Htidy.
          - cbn [w1 set_files w_files]. lia. }
        split; [exact Hff'|]. split; [exact Htr1|].
        rewrite Hf'.
        rewrite (listing_installed_counter self WF).
        * exact Hlen.
        * apply tidy_counter_tmp. apply tidy_erase. exact Htidy.
      + unfold bind in H. rewrite Hu in H.
        destruct (is_FileNotFoundError e); [discriminate|].
        unfold logger_error in H. discriminate.
    - rewrite (os_remove_miss _ _ Hff Hm) in H. discriminate. }
  destruct Hgoal as (Hff' & Htr' & Hlen).
  split; [exact Hff'|]. split; [exact Htr'|]. split; [exact Hlen|].
  intros d. apply (tracked_observed d w' Hff' Htr').
Qed.

End Tracked.

(* ===================================================================== *)
(** ** Further properties: listing, file names, serialization *)
(* ===================================================================== *)

Section Names.

Context {codec : Codec}.
Variable self : FileSystemCacheMsgspec.
Hypothesis WF : well_formed self.

Local Abbreviation cfn := (_get_filename self _fs_count_file).

(** What [_list_dir] returns, exactly: the paths directly under the
    cache directory, files and subdirectories alike, whose name does not
    end in [.__wz_cache] and is not the digest of the reserved key; each
    once, where no path is a file and a subdirectory at once.  The
    counter file is never among them; the file of every other key is,
    when it exists; and so is every subdirectory, which is no entry of
    the cache. *)
Theorem list_dir_lists_exactly w :
  fault_free w ->
  exists l,
    _list_dir self w = (Return l, w)
    /\ (forall p,
          In p l
          <-> exists fn,
                p = dir_prefix (_path self) ++ fn
                /\ fn <> "" /\ Str.has_char "/" fn = false
                /\ (Dir.mem p (w_files w) = true
                    \/ exists r, Dir.mem (p ++ "/" ++ r) (w_files w) = true)
                /\ Str.ends_with ".__wz_cache" fn = false
                /\ fn <> _hash_method self _fs_count_file)
    /\ (NoDup (paths (w_files w)) ->
        (forall p r, Dir.mem p (w_files w) = true ->
                     Dir.mem (p ++ "/" ++ r) (w_files w) = true -> False) ->
        NoDup l)
    /\ ~ In cfn l
    /\ (forall key,
          _hash_method self key <> _hash_method self _fs_count_file ->
          Dir.mem (_get_filename self key) (w_files w) = true ->
          In (_get_filename self key) l)
    /\ (forall fn r,
          fn <> "" -> Str.has_char "/" fn = false ->
          Str.ends_with ".__wz_cache" fn = false ->
          fn <> _hash_method self _fs_count_file ->
          Dir.mem (dir_prefix (_path self) ++ fn ++ "/" ++ r) (w_files w) = true ->
          In (dir_prefix (_path self) ++ fn) l
          /\ (Dir.mem (dir_prefix (_path self) ++ fn) (w_files w) = false ->
              forall n,
                exists n',
                  sweep self (w_now w) 0 [dir_prefix (_path self) ++ fn] n w
                  = (Return n', w))).
Proof.
  intros Hff. exists (listing self (w_files w)).
  split; [apply (list_dir_run self w Hff (wf_path self WF))|].
  split; [intros p; apply (listing_in self WF)|].
  split; [apply (NoDup_listing self WF)|].
  split; [apply (listing_not_counter self WF)|].
  split; [intros key; apply (listing_entry self WF)|].
  intros fn r Hne Hs Hsuf Hc Hm. split.
  - apply (listing_in self WF). exists fn.
    split; [reflexivity|]. split; [exact Hne|]. split; [exact Hs|].
    split; [|split; assumption].
    right. exists r. rewrite append_assoc. exact Hm.
  - intros Hnf n. cbn [sweep].
    destruct (sweep_step self (w_now w) 0 (dir_prefix (_path self) ++ fn) n w Hff)
      as (n' & Hstep).
    unfold bind at 1. rewrite Hstep.
    apply mem_false in Hnf. rewrite Hnf. exists n'. reflexivity.
Qed.

(** Two keys share one entry exactly when their digests are equal: the
    file names are then the same and [get] returns the same for both;
    keys with different digests have different files. *)
Theorem keys_share_entry_iff_digests_equal depth k1 k2 :
  (_get_filename self k1 = _get_filename self k2
   <-> _hash_method self k1 = _hash_method self k2)
  /\ (_hash_method self k1 = _hash_method self k2 ->
      forall w, fault_free w ->
        fst (get self (S depth) k1 w) = fst (get self (S depth) k2 w))
  /\ Str.last_component (_get_filename self k1) = _hash_method self k1.
Proof.
  split; [|split].
  - split.
    + apply (filename_inj self WF).
    + intros E. unfold _get_filename. rewrite E. reflexivity.
  - intros E w Hff. rewrite !get_reads_own_file by assumption.
    unfold _get_filename. rewrite E. reflexivity.
  - apply (filename_basename self WF).
Qed.

End Names.

Section Serialization.

Context {codec : Codec}.
Variable self : FileSystemCacheMsgspec.

(** [_deserialize] undoes [_serialize], with compression and without:
    when the packer's output unpacks to the object, and the compressor's
    output decompresses to its input, what [_serialize] returns for the
    object is read back as the object. *)
Theorem serialize_then_deserialize obj packed data :
  msgpack_encode obj = Return packed ->
  msgpack_decode packed = Return obj ->
  (forall z, zlib_compress (compress_level self) packed = Return z ->
             zlib_decompress z = Return packed) ->
  _serialize self obj = Return data ->
  _deserialize self data = Return obj.
Proof.
  intros He Hd Hz. unfold _serialize, _deserialize. rewrite He. cbn [obind].
  destruct (compress self).
  - intros Hc. rewrite (Hz _ Hc). exact Hd.
  - intros Hc. injection Hc as <-. exact Hd.
Qed.

(** A record that cannot be serialized is not written: a public [set]
    raises the error of [_serialize] (the packer's, or the compressor's)
    before it touches a file, when no eviction is due. *)
Theorem unserializable_value_raises depth key value timeout e w :
  _threshold self = 0 ->
  _serialize self (VList [VInt (expiry self timeout (w_now w)); value]) = Raise e ->
  set self (S (S depth)) key value timeout false w = (Raise e, w).
Proof.
  intros Ht He. rewrite set_S. unfold bind at 1. unfold bind at 1.
  rewrite (prune_disabled self depth w Ht). unfold ret at 1.
  unfold bind at 1. rewrite normalize_timeout_run.
  unfold bind at 1. unfold lift at 1. rewrite He. reflexivity.
Qed.

(** [clear] lists the directory outside its [try]: when the listing is
    refused the error reaches the caller and no file has been removed.
    The same holds for the listing of the recount, after a removal has
    been refused. *)
Theorem clear_raises_when_listing_fails depth fs w :
  (w_faults w = true :: fs ->
   clear self depth w = (Raise OSError, set_faults fs w))
  /\ (forall p rest,
        fault_free w -> _path self <> "" ->
        listing self (w_files w) = p :: rest ->
        clear self depth (with_faults (false :: true :: true :: fs) w)
        = (Raise OSError, with_faults fs w)).
Proof.
  split.
  - intros Hf. unfold clear, bind at 1, _list_dir, bind at 1, os_listdir, bind at 1.
    rewrite (syscall_refused fs w Hf). reflexivity.
  - intros p rest Hff Hp Hl.
    assert (Hlist : _list_dir self (with_faults (false :: true :: true :: fs) w)
                    = (Return (p :: rest), with_faults (true :: true :: fs) w)).
    { unfold _list_dir, os_listdir, bind, syscall. cbn [with_faults set_faults w_faults].
      apply String.eqb_neq in Hp. rewrite Hp. unfold ret.
      rewrite <- Hl. reflexivity. }
    unfold clear. rewrite (bind_run _ _ _ _ _ Hlist). cbn [clear_loop].
    unfold bind at 1, try_except, bind at 1.
    rewrite (os_remove_refused p (true :: fs)) by reflexivity.
    cbn [is_OSError]. unfold bind at 1, _list_dir, bind at 1, os_listdir, bind at 1.
    rewrite (syscall_refused fs) by reflexivity. reflexivity.
Qed.

End Serialization.

(* ===================================================================== *)
(** ** Further properties: the factory *)
(* ===================================================================== *)

Lemma dict_get_set_eq k v d : dict_get k (dict_set k v d) = Some v.
Proof.
  induction d as [|[k' v'] d IH]; simpl.
  - rewrite String.eqb_refl. reflexivity.
  - destruct (String.eqb_spec k k') as [<-|Hne]; simpl.
    + rewrite String.eqb_refl. reflexivity.
    + apply String.eqb_neq in Hne. rewrite Hne. exact IH.
Qed.

Lemma dict_get_set_neq k k' v d :
  k <> k' -> dict_get k' (dict_set k v d) = dict_get k' d.
Proof.
  intros Hne. induction d as [|[k1 v1] d IH]; simpl.
  - apply not_eq_sym, String.eqb_neq in Hne. rewrite Hne. reflexivity.
  - destruct (String.eqb_spec k k1) as [<-|Hk]; simpl.
    + apply not_eq_sym, String.eqb_neq in Hne. rewrite Hne. reflexivity.
    + rewrite IH. reflexivity.
Qed.

Lemma dict_get_app k (a b : pydict) :
  dict_get k (a ++ b)%list
  = match dict_get k a with Some v => Some v | None => dict_get k b end.
Proof.
  induction a as [|[k' v'] a IH]; simpl; [reflexivity|].
  destruct (String.eqb k k'); [reflexivity | exact IH].
Qed.

Lemma keys_dict_set k v d :
  map fst (dict_set k v d)
  = if existsb (String.eqb k) (map fst d) then map fst d
    else (map fst d ++ [k])%list.
Proof.
  induction d as [|[k' v'] d IH]; simpl; [reflexivity|].
  destruct (String.eqb k k'); simpl; [reflexivity|].
  rewrite IH. destruct (existsb (String.eqb k) (map fst d)); reflexivity.
Qed.

Lemma NoDup_dict_set k v d : NoDup (map fst d) -> NoDup (map fst (dict_set k v d)).
Proof.
  intros H. rewrite keys_dict_set.
  destruct (existsb (String.eqb k) (map fst d)) eqn:E; [exact H|].
  apply NoDup_snoc; [exact H|].
  intros Hin. assert (existsb (String.eqb k) (map fst d) = true).
  { apply existsb_exists. exists k. split; [exact Hin | apply String.eqb_refl]. }
  congruence.
Qed.

Lemma in_keys_dict_set k v d x :
  In x (map fst (dict_set k v d)) -> x = k \/ In x (map fst d).
Proof.
  rewrite keys_dict_set.
  destruct (existsb (String.eqb k) (map fst d)); [auto|].
  intros H. apply in_app_or in H. destruct H as [H|[H|[]]]; auto.
Qed.

(** a keyword that names a parameter already filled makes the call fail *)
Lemma bind_keywords_clash params k : forall kwargs bound v x,
  dict_get k bound = Some x -> dict_get k kwargs = Some v ->
  bind_keywords params bound kwargs = None.
Proof.
  induction kwargs as [|[k1 v1] r IH]; intros bound v x Hb Hk; simpl in *;
    [discriminate|].
  destruct (existsb (String.eqb k1) params); [|reflexivity].
  destruct (dict_get k1 bound) eqn:E1; [reflexivity|].
  destruct (String.eqb_spec k k1) as [->|Hne]; [congruence|].
  apply (IH _ v x); [|exact Hk].
  rewrite dict_get_app, Hb. reflexivity.
Qed.

(** keywords that name free parameters, each once, are all bound *)
Lemma bind_keywords_all params : forall kwargs bound,
  NoDup (map fst kwargs) ->
  (forall k, In k (map fst kwargs) ->
             existsb (String.eqb k) params = true /\ dict_get k bound = None) ->
  bind_keywords params bound kwargs = Some (bound ++ kwargs)%list.
Proof.
  induction kwargs as [|[k1 v1] r IH]; intros bound Hnd Hk; simpl.
  - rewrite app_nil_r. reflexivity.
  - destruct (Hk k1 (or_introl eq_refl)) as [Hp Hb]. rewrite Hp, Hb.
    inversion Hnd as [|? ? Hnotin Hnd']; subst.
    rewrite IH.
    + rewrite <- app_assoc. reflexivity.
    + exact Hnd'.
    + intros k Hin. destruct (Hk k (or_intror Hin)) as [Hp' Hb'].
      split; [exact Hp'|]. rewrite dict_get_app, Hb'. simpl.
      destruct (String.eqb_spec k k1) as [->|]; [contradiction | reflexivity].
Qed.

Lemma bind_positional_two p1 p2 ps x y rest :
  bind_positional (p1 :: p2 :: ps) (x :: y :: rest)
  = match bind_positional ps rest with
    | Some b => Some ((p1, x) :: (p2, y) :: b)
    | None => None
    end.
Proof. simpl. destruct (bind_positional ps rest); reflexivity. Qed.

Section Factory.

Context {codec : Codec}.

(** what the factory makes of the caller's keyword arguments *)
Local Abbreviation updated kwargs th ie c lvl :=
  (dict_update kwargs
     [("threshold", th); ("ignore_errors", ie); ("compress", c);
      ("compress_level", lvl)]).

Lemma updated_get kwargs th ie c lvl :
  dict_get "threshold" (updated kwargs th ie c lvl) = Some th
  /\ dict_get "ignore_errors" (updated kwargs th ie c lvl) = Some ie
  /\ dict_get "compress" (updated kwargs th ie c lvl) = Some c
  /\ dict_get "compress_level" (updated kwargs th ie c lvl) = Some lvl.
Proof.
  unfold dict_update. cbn [fold_left fst snd].
  repeat split;
    repeat first [ apply dict_get_set_eq
                 | rewrite dict_get_set_neq by discriminate ].
Qed.

Lemma updated_other kwargs th ie c lvl k :
  ~ In k ["threshold"; "ignore_errors"; "compress"; "compress_level"] ->
  dict_get k (updated kwargs th ie c lvl) = dict_get k kwargs.
Proof.
  intros Hk. unfold dict_update. cbn [fold_left fst snd].
  rewrite !dict_get_set_neq; [reflexivity | | | |];
    intros E; apply Hk; rewrite <- E; simpl; auto.
Qed.

Lemma updated_keys kwargs th ie c lvl :
  NoDup (map fst kwargs) ->
  NoDup (map fst (updated kwargs th ie c lvl))
  /\ forall k, In k (map fst (updated kwargs th ie c lvl)) ->
       In k ["threshold"; "ignore_errors"; "compress"; "compress_level"]
       \/ In k (map fst kwargs).
Proof.
  intros Hnd. unfold dict_update. cbn [fold_left fst snd]. split.
  - repeat apply NoDup_dict_set. exact Hnd.
  - intros k Hin.
    repeat (apply in_keys_dict_set in Hin;
            destruct Hin as [->|Hin]; [left; simpl; auto|]).
    right. exact Hin.
Qed.

(** The factory builds the cache from the configuration.  The directory,
    the threshold and the flags come from [CACHE_DIR], [CACHE_THRESHOLD],
    [CACHE_IGNORE_ERRORS], [CACHE_COMPRESS] and [CACHE_COMPRESS_LEVEL],
    the last two with the defaults [False] and 3, whatever the caller's
    [kwargs] say for them; [kwargs] is updated in place; the timeout and
    the mode keep the defaults of the signature.  Then [__init__] runs:
    the result is the instance, or the error of [__init__]. *)
Theorem factory_builds_from_config depth config kwargs dir th ie c lvl w :
  dict_get "CACHE_DIR" config = Some (VStr dir) ->
  dict_get "CACHE_THRESHOLD" config = Some (VInt th) ->
  dict_get "CACHE_IGNORE_ERRORS" config = Some (VBool ie) ->
  dict_get_default "CACHE_COMPRESS" (VBool false) config = VBool c ->
  dict_get_default "CACHE_COMPRESS_LEVEL" (VInt 3) config = VInt lvl ->
  NoDup (map fst kwargs) ->
  (forall k, In k (map fst kwargs) ->
             In k ["threshold"; "ignore_errors"; "compress"; "compress_level"]) ->
  let self :=
    {| _path := dir; _threshold := th; default_timeout := 300;
       _mode := 384; _hash_method := MD5.hexdigest; ignore_errors := ie;
       compress := c; compress_level := lvl |} in
  factory depth config [] kwargs w
  = (mkcall
       (match fst (init self depth w) with
        | Return _ => Built self
        | Raise e => InitError e
        end)
       [VStr dir]
       (updated kwargs (VInt th) (VBool ie) (VBool c) (VInt lvl)),
     snd (init self depth w)).
Proof.
  intros Hdir Hth Hie Hc Hlvl Hnd Hkeys self.
  unfold factory. rewrite Hdir, Hth, Hie, Hc, Hlvl.
  destruct (updated_get kwargs (VInt th) (VBool ie) (VBool c) (VInt lvl))
    as (G1 & G2 & G3 & G4).
  destruct (updated_keys kwargs (VInt th) (VBool ie) (VBool c) (VInt lvl) Hnd)
    as (Hnd' & Hin').
  set (kw := updated kwargs (VInt th) (VBool ie) (VBool c) (VInt lvl)) in *.
  assert (Hfour : forall k, In k (map fst kw) ->
            In k ["threshold"; "ignore_errors"; "compress"; "compress_level"]).
  { intros k Hk. destruct (Hin' k Hk) as [H|H]; [exact H | apply Hkeys, H]. }
  assert (Hbind : bind_call init_params [VStr dir] kw
                  = Some ([("cache_dir", VStr dir)] ++ kw)%list).
  { unfold bind_call. cbn [bind_positional init_params].
    apply bind_keywords_all; [exact Hnd'|].
    intros k Hk. apply Hfour in Hk. simpl in Hk.
    destruct Hk as [<-|[<-|[<-|[<-|[]]]]]; split; reflexivity. }
  rewrite Hbind.
  assert (Hother : forall k,
            ~ In k ["threshold"; "ignore_errors"; "compress"; "compress_level"] ->
            dict_get k kw = None).
  { intros k Hk. destruct (dict_get k kw) eqn:E; [|reflexivity].
    exfalso. apply Hk. apply Hfour.
    clear - E. induction kw as [|[k1 v1] r IH]; simpl in *; [discriminate|].
    destruct (String.eqb_spec k k1) as [->|]; [left; reflexivity | right; auto]. }
  assert (Hinst : instance ([("cache_dir", VStr dir)] ++ kw)%list = Some self).
  { unfold instance, dict_get_default. rewrite !dict_get_app.
    cbn [dict_get String.eqb Ascii.eqb Bool.eqb].
    rewrite G1, G2, G3, G4.
    rewrite !Hother by (simpl; intuition discriminate).
    reflexivity. }
  rewrite Hinst.
  destruct (init self depth w) as [[[]|e] w']; reflexivity.
Qed.

(** The factory takes no positional arguments of the caller: it puts the
    directory in front of them, so that the first of them is the
    threshold, which the factory also passes by keyword; the call of the
    constructor fails before any file is touched.  The caller's [args]
    keeps the directory. *)
Theorem factory_rejects_positional_args depth config dir th ie a rest kwargs w :
  dict_get "CACHE_DIR" config = Some dir ->
  dict_get "CACHE_THRESHOLD" config = Some th ->
  dict_get "CACHE_IGNORE_ERRORS" config = Some ie ->
  exists kwargs',
    factory depth config (a :: rest) kwargs w
    = (mkcall CallError (dir :: a :: rest) kwargs', w)
    /\ dict_get "threshold" kwargs' = Some th.
Proof.
  intros Hdir Hth Hie. unfold factory. rewrite Hdir, Hth, Hie.
  set (kw := dict_update kwargs _).
  assert (G : dict_get "threshold" kw = Some th) by apply updated_get.
  exists kw. split; [|exact G].
  assert (Hbind : bind_call init_params (dir :: a :: rest) kw = None).
  { unfold bind_call, init_params. rewrite bind_positional_two.
    match goal with
    | |- context [bind_positional ?p rest] =>
        destruct (bind_positional p rest) as [b|]; [|reflexivity]
    end.
    apply (bind_keywords_clash _ "threshold" kw _ th a); [reflexivity | exact G]. }
  rewrite Hbind. reflexivity.
Qed.

(** The three keys the factory reads with [config[...]] must be there: a
    missing one is a [KeyError], raised before the constructor is called
    and before [kwargs] is changed; when [CACHE_DIR] is there, [args] has
    already received it. *)
Theorem factory_needs_config_keys depth config args kwargs w :
  (dict_get "CACHE_DIR" config = None ->
   factory depth config args kwargs w
   = (mkcall (KeyError "CACHE_DIR") args kwargs, w))
  /\ (forall dir,
        dict_get "CACHE_DIR" config = Some dir ->
        dict_get "CACHE_THRESHOLD" config = None ->
        factory depth config args kwargs w
        = (mkcall (KeyError "CACHE_THRESHOLD") (dir :: args) kwargs, w))
  /\ (forall dir th,
        dict_get "CACHE_DIR" config = Some dir ->
        dict_get "CACHE_THRESHOLD" config = Some th ->
        dict_get "CACHE_IGNORE_ERRORS" config = None ->
        factory depth config args kwargs w
        = (mkcall (KeyError "CACHE_IGNORE_ERRORS") (dir :: args) kwargs, w)).
Proof.
  split; [|split].
  - intros H. unfold factory. rewrite H. reflexivity.
  - intros dir H1 H2. unfold factory. rewrite H1, H2. reflexivity.
  - intros dir th H1 H2 H3. unfold factory. rewrite H1, H2, H3. reflexivity.
Qed.

End Factory.

(* ===================================================================== *)
(** ** The further properties on the sample caches *)
(* ===================================================================== *)

(** A refused read of the entry of ["k"]. *)
Lemma io_error_is_a_logged_miss_witness :
  get cache0 1 "k" world_refused
  = (Return VNone, add_log (LogError "get" "k" OSError) (set_faults [] world_refused))
  /\ has cache0 0 "k" world_refused
     = (Return false, add_log (LogError "has" "k" OSError) (set_faults [] world_refused))
  /\ delete cache0 1 "k" false world_refused
     = (Return false,
        add_log (LogError "delete" "k" OSError) (set_faults [] world_refused)).
Proof.
  apply (io_error_is_a_logged_miss cache0 0 "k" false [] world_refused).
  reflexivity.
Defined.

(** The live entry of ["k"], and the same entry a thousand seconds later. *)
Lemma has_agrees_with_get_witness :
  (has cache0 0 "k" world2 = (Return true, world2)
   /\ get cache0 1 "k" world2 = (Return (VStr "v"), world2))
  /\ (exists w',
        has cache0 1 "k" world_later = (Return false, w')
        /\ get cache0 2 "k" world_later = (Return VNone, w')).
Proof.
  assert (Hff : fault_free world2) by (vm_compute; reflexivity).
  assert (Hff' : fault_free world_later) by (vm_compute; reflexivity).
  assert (Hl : Dir.lookup (_get_filename cache0 "k") (w_files world2) = Some file_k)
    by (vm_compute; reflexivity).
  assert (Hl' : Dir.lookup (_get_filename cache0 "k") (w_files world_later)
                = Some file_k) by (vm_compute; reflexivity).
  assert (Hd : _deserialize cache0 (f_data file_k)
               = Return (VList [VInt 1700000300; VStr "v"]))
    by (vm_compute; reflexivity).
  assert (Hs : stale 1700000300 (w_now world2) = false) by (vm_compute; reflexivity).
  assert (Hs' : stale 1700000300 (w_now world_later) = true)
    by (vm_compute; reflexivity).
  split.
  - destruct (has_agrees_with_get cache0 0 "k" world2 Hff) as [_ H].
    destruct (H file_k 1700000300 (VStr "v") Hl Hd) as [H1 _]. exact (H1 Hs).
  - destruct (has_agrees_with_get cache0 0 "k" world_later Hff') as [_ H].
    destruct (H file_k 1700000300 (VStr "v") Hl' Hd) as [_ H2]. exact (H2 Hs').
Defined.

(** A file that is not a record, under the name of ["k"]. *)
Lemma corrupt_entry_is_a_logged_miss_witness :
  get cache0 1 "k" world_corrupt
  = (Return VNone, add_log (LogError "get" "k" DecodeError) world_corrupt)
  /\ has cache0 0 "k" world_corrupt
     = (Return false, add_log (LogError "has" "k" DecodeError) world_corrupt).
Proof.
  apply (corrupt_entry_is_a_logged_miss cache0 0 "k"
           (mkfile "not a record" 384) DecodeError world_corrupt).
  - reflexivity.
  - vm_compute. reflexivity.
  - vm_compute. reflexivity.
  - reflexivity.
Defined.

(** [add] on the expired entry of ["k"]. *)
Lemma add_refused_while_file_exists_witness :
  add cache0 1 "k" (VStr "again") None world_later = (Return false, world_later)
  /\ fst (get cache0 3 "k" world_later) = Return VNone.
Proof.
  assert (Hff' : fault_free world_later) by (vm_compute; reflexivity).
  assert (Hl' : Dir.lookup (_get_filename cache0 "k") (w_files world_later)
                = Some file_k) by (vm_compute; reflexivity).
  assert (Hd : _deserialize cache0 (f_data file_k)
               = Return (VList [VInt 1700000300; VStr "v"]))
    by (vm_compute; reflexivity).
  assert (Hs' : stale 1700000300 (w_now world_later) = true)
    by (vm_compute; reflexivity).
  destruct (add_refused_while_file_exists cache0 1 "k" (VStr "again") None file_k
              world_later Hl') as [H1 H2].
  split; [exact H1|]. exact (H2 1700000300 (VStr "v") Hff' Hd Hs').
Defined.

(** [delete("k")] on [world2]: the file goes, the counter goes from 1 to 0. *)
Lemma delete_removes_and_counts_down_witness :
  exists w',
    delete cache0 3 "k" false world2 = (Return true, w')
    /\ Dir.lookup (_get_filename cache0 "k") (w_files w') = None
    /\ (exists mode,
          Dir.lookup (_get_filename cache0 _fs_count_file) (w_files w')
          = Some (mkfile (record_of cache0 (VList [VInt 0; VInt (1 - 1)])) mode))
    /\ (forall q, q <> _get_filename cache0 "k" -> ~ counter_path cache0 q ->
          Dir.lookup q (w_files w') = Dir.lookup q (w_files world2)).
Proof.
  assert (Hff : fault_free world2) by (vm_compute; reflexivity).
  assert (Hl : Dir.lookup (_get_filename cache0 "k") (w_files world2) = Some file_k)
    by (vm_compute; reflexivity).
  assert (Hc : counts cache0 (w_files world2) 1).
  { exists counter2. split; [vm_compute; reflexivity | vm_compute; reflexivity]. }
  assert (Hs : _serialize cache0 (VList [VInt 0; VInt (1 - 1)])
               = Return (record_of cache0 (VList [VInt 0; VInt (1 - 1)])))
    by (vm_compute; reflexivity).
  destruct (delete_removes_and_counts_down cache0 cache0_wf 0 "k" world2 Hff)
    as (_ & _ & H).
  apply (H file_k 1 _ Hl ltac:(discriminate) regular_k Hc Hs).
Defined.

(** After [delete("k")] the entry of ["k"] is gone. *)
Lemma deleted_key_is_gone_witness :
  Dir.lookup (_get_filename cache0 "k") (w_files world_deleted) = None
  /\ fst (get cache0 1 "k" world_deleted) = Return VNone
  /\ fst (has cache0 0 "k" world_deleted) = Return false
  /\ (forall m', fst (delete cache0 1 "k" m' world_deleted) = Return false).
Proof.
  apply (deleted_key_is_gone cache0 cache0_wf depth0 0 "k" false world2 world_deleted).
  - exact regular_k.
  - vm_compute. reflexivity.
Defined.

(** The file of ["k"] after the first [set] has the mode of the cache. *)
Lemma set_applies_mode_witness :
  exists data,
    Dir.lookup (_get_filename cache0 "k") (w_files world2)
    = Some (mkfile data
              (match w_platform world1 with
               | Win32 => S_IWRITE | Posix => _mode cache0 end)).
Proof.
  apply (set_applies_mode cache0 cache0_wf depth0 "k" (VStr "v") None world1 world2).
  - vm_compute. reflexivity.
  - exact regular_k.
  - vm_compute. reflexivity.
Defined.

(** The unbounded cache: a refused open, and a refused rename during the
    overwrite of ["k"]. *)
Lemma failed_set_outcomes_witness :
  (exists w',
     set cache_unbounded 2 "k" (VStr "v") None false world_open_fails
     = (Return false, w')
     /\ w_files w' = w_files world_open_fails
     /\ w_log w' = LogError "set" "k" OSError :: w_log world_open_fails)
  /\ (exists w' m,
        set cache_unbounded 2 "k" (VStr "new") None false world_replace_refused
        = (Return false, w')
        /\ Dir.lookup (_get_filename cache_unbounded "k") (w_files w') = None
        /\ Dir.lookup (_get_filename cache_unbounded "k" ++ ".__tmp") (w_files w')
           = Some (mkfile
                     (record_of cache_unbounded
                        (VList [VInt (expiry cache_unbounded None
                                        (w_now world_replace_refused));
                                VStr "new"])) m)
        /\ w_log w' = LogError "set" "k" OSError :: w_log world_replace_refused
        /\ forall d, fst (get cache_unbounded (S d) "k" w') = Return VNone).
Proof.
  split.
  - assert (Hs : _serialize cache_unbounded
                   (VList [VInt (expiry cache_unbounded None (w_now world_open_fails));
                           VStr "v"])
                 = Return (record_of cache_unbounded
                             (VList [VInt (expiry cache_unbounded None
                                             (w_now world_open_fails)); VStr "v"])))
      by (vm_compute; reflexivity).
    destruct (failed_set_outcomes cache_unbounded 0 "k" (VStr "v") None _ []
                world_open_fails eq_refl Hs) as [H _].
    apply H. reflexivity.
  - assert (Hs : _serialize cache_unbounded
                   (VList [VInt (expiry cache_unbounded None
                                   (w_now world_replace_refused)); VStr "new"])
                 = Return (record_of cache_unbounded
                             (VList [VInt (expiry cache_unbounded None
                                             (w_now world_replace_refused));
                                     VStr "new"])))
      by (vm_compute; reflexivity).
    assert (Hl : exists f, Dir.lookup (_get_filename cache_unbounded "k")
                             (w_files world_replace_refused) = Some f)
      by (eexists; vm_compute; reflexivity).
    destruct Hl as [f Hl].
    destruct (failed_set_outcomes cache_unbounded 0 "k" (VStr "new") None _ []
                world_replace_refused eq_refl Hs) as [_ H].
    apply (H f); [reflexivity | exact Hl].
Defined.

(** A timeout of 0.9999999999 seconds set on the full second 1700000000:
    the float sum is 1700000001.0, so that is the stored expiry, later
    than the exact sum; the entry is a miss half a second after it. *)
Lemma entry_expires_on_whole_second_witness :
  expiry cache0 (Some (9999999999 # 10000000000)) (w_now world1) = 1700000001
  /\ (w_now world1 + (9999999999 # 10000000000) < 1700000001)%Q
  /\ fst (get cache0 2 "k" (set_now (3400000003 # 2) world_nearly)) = Return VNone.
Proof.
  assert (Hff : fault_free world_nearly) by (vm_compute; reflexivity).
  assert (Hset : set cache0 depth0 "k" (VStr "v") (Some (9999999999 # 10000000000))
                   false world1
                 = (Return true, world_nearly)) by (vm_compute; reflexivity).
  assert (Hrb : reads_back cache0
                  (VList [VInt (expiry cache0 (Some (9999999999 # 10000000000))
                                  (w_now world1)); VStr "v"]))
    by (apply reads_back_computed; vm_compute; reflexivity).
  assert (Ht : ~ (9999999999 # 10000000000 == 0)%Q) by discriminate.
  assert (Hpos : (1 <= float_add (w_now world1) (9999999999 # 10000000000))%Q)
    by (vm_compute; discriminate).
  destruct (entry_expires_on_whole_second cache0 cache0_wf depth0 0 "k" (VStr "v")
              (9999999999 # 10000000000) world1 world_nearly (3400000003 # 2)
              Hff (or_introl regular_k) Hset Hrb Ht Hpos) as (H0 & H1 & H2 & H3).
  split; [rewrite H0; vm_compute; reflexivity|].
  split; [vm_compute; reflexivity|]. apply H3. vm_compute. reflexivity.
Defined.

Lemma regular_j :
  _hash_method cache0 "j" <> _hash_method cache0 _fs_count_file.
Proof. vm_compute. discriminate. Qed.

(** Deleting, or setting, the key ["j"] does not change what ["k"] reads. *)
Lemma other_keys_untouched_witness :
  (forall m r w',
      delete cache0 depth0 "j" m world2 = (r, w') ->
      fst (get cache0 1 "k" w') = fst (get cache0 1 "k" world2))
  /\ (forall r w',
        set cache0 (S (S (S depth0))) "j" (VInt 5) None false world2 = (r, w') ->
        fst (get cache0 1 "k" w') = fst (get cache0 1 "k" world2)).
Proof.
  assert (Hff : fault_free world2) by (vm_compute; reflexivity).
  assert (Hne : _hash_method cache0 "k" <> _hash_method cache0 "j")
    by (vm_compute; discriminate).
  assert (Hc : counts cache0 (w_files world2) 1).
  { exists counter2. split; [vm_compute; reflexivity | vm_compute; reflexivity]. }
  destruct (other_keys_untouched cache0 cache0_wf depth0 0 "j" "k" world2
              Hff Hne regular_k) as [H1 H2].
  split; [exact H1|].
  intros r w'. apply (H2 1 (VInt 5) None r w').
  right. split; [exact Hc | vm_compute; discriminate].
Defined.

Lemma cache0_count_roundtrip : count_roundtrip cache0.
Proof. apply ref_count_roundtrip. reflexivity. Qed.

Lemma cache_small_count_roundtrip : count_roundtrip cache_small.
Proof. apply ref_count_roundtrip. reflexivity. Qed.

(** The constructor of [cache0] on the empty directory. *)
Lemma init_counts_entries_witness :
  (fault_free world1
   /\ _list_dir cache0 world1 = (Return (listing cache0 (w_files world0)), world1)
   /\ (forall d, _file_count cache0 (S d) world1
                 = (Return (VInt (Z.of_nat (List.length
                                    (listing cache0 (w_files world0))))), world1))
   /\ (forall q, ~ counter_path cache0 q ->
         Dir.lookup q (w_files world1) = Dir.lookup q (w_files world0))
   /\ tracked cache0 (w_files world1))
  /\ exists w', init cache0 2 world0 = (Return tt, w').
Proof.
  assert (Hnd : NoDup (paths (w_files world0))) by constructor.
  assert (Htidy : tidy cache0 (w_files world0)) by (intros key; reflexivity).
  destruct (init_counts_entries cache0 cache0_wf ltac:(discriminate)
              cache0_count_roundtrip depth0 world0 eq_refl Hnd Htidy) as [H1 _].
  destruct (init_counts_entries cache0 cache0_wf ltac:(discriminate)
              cache0_count_roundtrip 0 world0 eq_refl Hnd Htidy) as [_ H2].
  split.
  - apply H1. vm_compute. reflexivity.
  - apply (H2 (record_of cache0 (VList [VInt 0; VInt 0]))). vm_compute. reflexivity.
Defined.

Lemma world_full_tracked : tracked cache_small (w_files world_full).
Proof.
  split; [|split].
  - vm_compute. repeat constructor; simpl; intuition discriminate.
  - apply (no_tmp_tidy cache_small). vm_compute. reflexivity.
  - exists counter_full. split; [vm_compute; reflexivity | vm_compute; reflexivity].
Qed.

(** A [set] that evicts first: the fourth entry in the cache of threshold
    two. *)
Lemma set_keeps_count_exact_witness :
  fault_free world_after_sweep /\ tracked cache_small (w_files world_after_sweep)
  /\ forall d,
       _file_count cache_small (S d) world_after_sweep
       = (Return (VInt (Z.of_nat (List.length
                          (listing cache_small (w_files world_after_sweep))))),
          world_after_sweep).
Proof.
  apply (set_keeps_count_exact cache_small cache_small_wf ltac:(discriminate)
           cache_small_count_roundtrip depth0 "d" (VInt 4) None world_full
           world_after_sweep).
  - vm_compute. reflexivity.
  - exact world_full_tracked.
  - vm_compute. discriminate.
  - vm_compute. reflexivity.
Defined.

Lemma world2_tracked : tracked cache0 (w_files world2).
Proof.
  split; [|split].
  - vm_compute. repeat constructor; simpl; intuition discriminate.
  - apply (no_tmp_tidy cache0). vm_compute. reflexivity.
  - exists counter2. split; [vm_compute; reflexivity | vm_compute; reflexivity].
Qed.

(** [delete("k")] on [world2]. *)
Lemma delete_keeps_count_exact_witness :
  fault_free world_deleted /\ tracked cache0 (w_files world_deleted)
  /\ List.length (listing cache0 (w_files world2))
     = S (List.length (listing cache0 (w_files world_deleted)))
  /\ forall d,
       _file_count cache0 (S d) world_deleted
       = (Return (VInt (Z.of_nat (List.length
                          (listing cache0 (w_files world_deleted))))),
          world_deleted).
Proof.
  apply (delete_keeps_count_exact cache0 cache0_wf ltac:(discriminate)
           cache0_count_roundtrip depth0 "k" world2 world_deleted).
  - vm_compute. reflexivity.
  - exact world2_tracked.
  - exact regular_k.
  - vm_compute. reflexivity.
Defined.

(** The listing of the default cache with a subdirectory in its
    directory: the subdirectory is listed, the counter file is not, and
    the sweep passes over the subdirectory. *)
Lemma list_dir_lists_exactly_witness :
  exists l,
    _list_dir cache0 world_subdir = (Return l, world_subdir)
    /\ In (_get_filename cache0 "k") l
    /\ In "/tmp/cache/sub" l
    /\ ~ In (_get_filename cache0 _fs_count_file) l
    /\ NoDup l
    /\ exists n', sweep cache0 (w_now world_subdir) 0 ["/tmp/cache/sub"] 0 world_subdir
                  = (Return n', world_subdir).
Proof.
  destruct (list_dir_lists_exactly cache0 cache0_wf world_subdir)
    as (l & Hrun & _ & Hnd & Hnc & Hkey & Hsub).
  - vm_compute. reflexivity.
  - exists l. split; [exact Hrun|].
    destruct (Hsub "sub" "x") as (Hin & Hsweep);
      [discriminate | reflexivity | reflexivity | vm_compute; discriminate
      | vm_compute; reflexivity |].
    split; [apply Hkey; [exact regular_k | vm_compute; reflexivity]|].
    split; [exact Hin|]. split; [exact Hnc|]. split.
    + apply Hnd.
      * vm_compute. distinct_paths.
      * intros p r Hp Hq. apply mem_paths in Hp. apply mem_paths in Hq.
        vm_compute in Hp.
        destruct Hp as [<-|[<-|[<-|[]]]]; vm_compute in Hq;
          repeat (destruct Hq as [Hq|Hq]; [discriminate|]); exact Hq.
    + apply (Hsweep ltac:(vm_compute; reflexivity) 0).
Defined.

(** The keys ["k"] and ["j"] of [cache0]. *)
Lemma keys_share_entry_iff_digests_equal_witness :
  (_get_filename cache0 "k" = _get_filename cache0 "j"
   <-> _hash_method cache0 "k" = _hash_method cache0 "j")
  /\ (_hash_method cache0 "k" = _hash_method cache0 "j" ->
      forall w, fault_free w ->
        fst (get cache0 1 "k" w) = fst (get cache0 1 "j" w))
  /\ Str.last_component (_get_filename cache0 "k") = _hash_method cache0 "k".
Proof.
  exact (keys_share_entry_iff_digests_equal cache0 cache0_wf 0 "k" "j").
Defined.

(** A record through the compressing cache. *)
Lemma serialize_then_deserialize_witness :
  _deserialize cache_compressed
    (record_of cache_compressed (VList [VInt 1700000300; VStr "v"]))
  = Return (VList [VInt 1700000300; VStr "v"]).
Proof.
  apply (serialize_then_deserialize cache_compressed
           (VList [VInt 1700000300; VStr "v"])
           (record_of cache0 (VList [VInt 1700000300; VStr "v"]))).
  - vm_compute. reflexivity.
  - vm_compute. reflexivity.
  - intros z Hz. vm_compute in Hz. injection Hz as <-. vm_compute. reflexivity.
  - vm_compute. reflexivity.
Defined.

(** An object the packer does not know, given to the unbounded cache. *)
Lemma unserializable_value_raises_witness :
  set cache_unbounded 2 "k" (VObject "Session") None false world0
  = (Raise TypeError, world0).
Proof.
  apply (unserializable_value_raises cache_unbounded 0 "k" (VObject "Session") None
           TypeError world0).
  - reflexivity.
  - vm_compute. reflexivity.
Defined.

(** [clear] of [cache0] when the listing is refused. *)
Lemma clear_raises_when_listing_fails_witness :
  clear cache0 depth0 world_refused = (Raise OSError, set_faults [] world_refused)
  /\ clear cache0 depth0 (with_faults [false; true; true] world2)
     = (Raise OSError, with_faults [] world2).
Proof.
  destruct (clear_raises_when_listing_fails cache0 depth0 [] world_refused) as [H1 _].
  destruct (clear_raises_when_listing_fails cache0 depth0 [] world2) as [_ H2].
  split.
  - apply H1. reflexivity.
  - apply (H2 (_get_filename cache0 "k") []).
    + vm_compute. reflexivity.
    + discriminate.
    + vm_compute. reflexivity.
Defined.

(** The factory on the sample configuration, with a caller who asks for
    another threshold. *)
Lemma factory_builds_from_config_witness :
  factory depth0 config0 [] [("threshold", VInt 7)] world0
  = (mkcall
       (match fst (init {| _path := "/tmp/cache"; _threshold := 100;
                           default_timeout := 300; _mode := 384;
                           _hash_method := MD5.hexdigest; ignore_errors := false;
                           compress := true; compress_level := 3 |} depth0 world0) with
        | Return _ =>
            Built {| _path := "/tmp/cache"; _threshold := 100;
                     default_timeout := 300; _mode := 384;
                     _hash_method := MD5.hexdigest; ignore_errors := false;
                     compress := true; compress_level := 3 |}
        | Raise e => InitError e
        end)
       [VStr "/tmp/cache"]
       (dict_update [("threshold", VInt 7)]
          [("threshold", VInt 100); ("ignore_errors", VBool false);
           ("compress", VBool true); ("compress_level", VInt 3)]),
     snd (init {| _path := "/tmp/cache"; _threshold := 100;
                  default_timeout := 300; _mode := 384;
                  _hash_method := MD5.hexdigest; ignore_errors := false;
                  compress := true; compress_level := 3 |} depth0 world0)).
Proof.
  apply (factory_builds_from_config depth0 config0 [("threshold", VInt 7)]
           "/tmp/cache" 100 false true 3 world0).
  - reflexivity.
  - reflexivity.
  - reflexivity.
  - reflexivity.
  - reflexivity.
  - repeat constructor. intros [].
  - intros k [<-|[]]. left. reflexivity.
Defined.

(** The factory with a positional argument of the caller. *)
Lemma factory_rejects_positional_args_witness :
  exists kwargs',
    factory depth0 config0 [VInt 7] [] world0
    = (mkcall CallError [VStr "/tmp/cache"; VInt 7] kwargs', world0)
    /\ dict_get "threshold" kwargs' = Some (VInt 100).
Proof.
  apply (factory_rejects_positional_args depth0 config0 (VStr "/tmp/cache")
           (VInt 100) (VBool false) (VInt 7) [] [] world0); reflexivity.
Defined.

(** The factory on an empty configuration. *)
Lemma factory_needs_config_keys_witness :
  factory depth0 [] [] [] world0 = (mkcall (KeyError "CACHE_DIR") [] [], world0).
Proof.
  destruct (factory_needs_config_keys depth0 [] [] [] world0) as [H _].
  apply H. reflexivity.
Defined.

(** [set("j", 5)] after the counter file of [world2] has been lost: the
    directory holds two entries, the counter says 1. *)
Lemma lost_counter_restarts_at_one_witness :
  exists w',
    set cache0 3 "j" (VInt 5) None false world_lost_counter = (Return true, w')
    /\ (exists mode,
          Dir.lookup (_get_filename cache0 _fs_count_file) (w_files w')
          = Some (mkfile (record_of cache0 (VList [VInt 0; VInt 1])) mode))
    /\ (exists mode,
          Dir.lookup (_get_filename cache0 "j") (w_files w')
          = Some (mkfile
                    (record_of cache0
                       (VList [VInt (expiry cache0 None (w_now world_lost_counter));
                               VInt 5])) mode))
    /\ (forall q, q <> _get_filename cache0 "j" ->
          q <> _get_filename cache0 "j" ++ ".__tmp" -> ~ counter_path cache0 q ->
          Dir.lookup q (w_files w') = Dir.lookup q (w_files world_lost_counter)).
Proof.
  apply (lost_counter_restarts_at_one cache0 cache0_wf 0 "j" (VInt 5) None).
  - vm_compute. reflexivity.
  - reflexivity.
  - exact regular_j.
  - vm_compute. reflexivity.
  - vm_compute. reflexivity.
  - vm_compute. reflexivity.
  - vm_compute. reflexivity.
Defined.

(** The depth given to the sample runs is more than is ever used. *)
Lemma depth_seven_suffices_witness :
  (forall key w, get cache0 depth0 key w = get cache0 7 key w)
  /\ (forall key m w, delete cache0 depth0 key m w = delete cache0 7 key m w)
  /\ (forall delta value w,
        _update_count cache0 depth0 delta value w
        = _update_count cache0 7 delta value w)
  /\ (forall key value timeout m w,
        set cache0 depth0 key value timeout m w = set cache0 7 key value timeout m w)
  /\ (forall w, _prune cache0 depth0 w = _prune cache0 7 w).
Proof.
  apply (depth_seven_suffices cache0 depth0). unfold depth0. lia.
Defined.
